(** * ConstrainedPlanning.cpp: the constrained-planning demo driver

    A shallow embedding of [usage] and [main] of
    [demos/ConstrainedPlanning.cpp].  The driver is glue around the
    planning library: everything it does is either control flow over its
    arguments, a call into the library, or output to [std::cout] and to
    files.  The embedding therefore keeps

    - the arguments as a list of strings, [argc] being its length;
    - every call into the library as an entry of a chronological log,
      together with the value the library returned;
    - every output to [std::cout] or to an [std::ofstream] as an entry of
      the same log;
    - [exit], undefined behaviour (an access out of range, [front()] of an
      empty vector) as the ways a run can stop early.

    The library is a record of oracles.  An oracle is handed the whole log
    up to the call, so its answer may depend on everything that happened
    before: no purity and no particular behaviour of the library is
    assumed.  The only assumption is that a library call returns.

    [double] is kept abstract with the handful of operations the driver
    applies to it. *)

From Stdlib Require Import ZArith String Ascii Bool Lia List.
Import ListNotations.
Open Scope Z_scope.

(** ** Machine-level data *)

(** [std::size_t] on the LP64 platforms the demo is built for. *)
Definition SIZE_MAX : Z := 2 ^ 64 - 1.
Definition size_t (z : Z) : Z := z mod (SIZE_MAX + 1).

(** [v.size()] of a [std::vector] or of an Eigen vector. *)
Definition size {A : Type} (v : list A) : Z := size_t (Z.of_nat (length v)).

(** [strcmp]: only the sign of the result is specified by C. *)
Definition strcmp (a b : string) : Z :=
  match String.compare a b with
  | Eq => 0
  | Lt => -1
  | Gt => 1
  end.

Definition nl : string := String (ascii_of_nat 10) EmptyString.

(** Pointers to library objects (state spaces, planners, charts, states). *)
Inductive pointer : Type :=
| nullptr
| addr (a : N).

Definition is_null (p : pointer) : bool :=
  match p with
  | nullptr => true
  | addr _ => false
  end.

(** The operations of [double] that the driver uses. *)
Record DoubleOps (double : Type) : Type := {
  dofZ : Z -> double;                  (* an integer literal or (double)n *)
  dlit : Z -> Z -> double;             (* the decimal literal m * 10^e *)
  M_PI : double;
  dadd : double -> double -> double;
  ddiv : double -> double -> double;
  dle : double -> double -> bool       (* x <= y *)
}.
Arguments dofZ {double}.
Arguments dlit {double}.
Arguments M_PI {double}.
Arguments dadd {double}.
Arguments ddiv {double}.
Arguments dle {double}.

(** Modelled from the spec: [ompl::base::PlannerStatus] is declared in a
    header of the planning library that is not among the sources.  The spec
    separates success, approximate success and "no solution found"; the
    enumeration lists the library's status values. *)
Inductive PlannerStatus : Type :=
| UNKNOWN
| INVALID_START
| INVALID_GOAL
| UNRECOGNIZED_GOAL_TYPE
| TIMEOUT
| APPROXIMATE_SOLUTION
| EXACT_SOLUTION
| CRASH
| ABORT.

(** Modelled from the spec: [PlannerStatus::operator bool], from the same
    header; a status counts as success when it is an exact or an
    approximate solution. *)
Definition status_bool (s : PlannerStatus) : bool :=
  match s with
  | APPROXIMATE_SOLUTION | EXACT_SOLUTION => true
  | _ => false
  end.

Definition status_eqb (a b : PlannerStatus) : bool :=
  match a, b with
  | UNKNOWN, UNKNOWN
  | INVALID_START, INVALID_START
  | INVALID_GOAL, INVALID_GOAL
  | UNRECOGNIZED_GOAL_TYPE, UNRECOGNIZED_GOAL_TYPE
  | TIMEOUT, TIMEOUT
  | APPROXIMATE_SOLUTION, APPROXIMATE_SOLUTION
  | EXACT_SOLUTION, EXACT_SOLUTION
  | CRASH, CRASH
  | ABORT, ABORT => true
  | _, _ => false
  end.

(** The two manifold wrappers: the object called [atlas] in the first
    branch of [main] and the one called [proj] in the second. *)
Inductive space : Type :=
| Atlas
| Projected.

(** ** The log *)

Section Log.
Context {double : Type}.

Definition Vec : Type := list double.

(** What can be sent to an output stream. *)
Inductive item : Type :=
| Str (s : string)
| Dbl (d : double)
| Int (z : Z)
| RowVec (v : Vec).                  (* [v.transpose()] of an Eigen vector *)

(** The calls into the library, each with its arguments and, last, the
    value it returned (when it returns one the driver uses). *)
Inductive libcall : Type :=
| PrintProblems
| PrintPlanners
| ParseProblem (problem : string) (sleep : double) (x y : Vec)
| NewStateSpace (sp : space) (p : pointer)
| SimpleSetup (sp : space)
| GetSpaceInformation
| SetSpaceInformation (sp : space)
| SetStateValidityChecker
| SetValidStateSamplerAllocator (sp : space)
| SetExploration (v : double)
| SetRho (v : double)
| SetAlpha (v : double)
| SetEpsilon (v : double)
| SetDelta (sp : space) (v : double)
| SetMaxChartsPerExtension (n : Z)
| AnchorChart (v : Vec) (chart : pointer)
| ScopedState (sp : space)
| SetRealState (sp : space) (v : Vec) (chart : option pointer)
| SetStartAndGoalStates
| GetAmbientDimension (sp : space) (n : Z)
| RealVectorBounds (dim : Z)
| SetLow (v : double)
| SetHigh (v : double)
| SetBounds (sp : space)
| GetRho_s (v : double)
| ParsePlanner (planner : string) (range : double) (p : pointer)
| SetPlanner
| Setup
| Clock (t : Z)
| Solve (limit : double) (stat : PlannerStatus)
| GetSolutionPath
| GetStates (waypoints : list pointer)
| DumpPath (sp : space) (file : string)
| TraverseManifold (sp : space) (from to : pointer) (stateList : list pointer)
| EqualStates (sp : space) (a b : pointer) (r : bool)
| ConstVectorView (s : pointer) (v : Vec)
| Distance (sp : space) (a b : pointer) (d : double)
| FreeState (sp : space) (s : pointer)
| GetPlannerData
| FindProperty (key : string) (found : bool)   (* properties.find(key) != end() *)
| GetProperty (key : string) (value : string) (* properties[key] *)
| GetChartCount (n : Z)
| DumpMesh (file : string)
| ToBoostGraph
| DumpGraph (sp : space) (file : string)
| EstimateFrontierPercent (v : double).

Inductive event : Type :=
| Cout (i : item)                    (* std::cout << i *)
| FOpen (file : string)              (* std::ofstream f(file) *)
| FPut (file : string) (i : item)    (* f << i *)
| FClose (file : string)             (* f.close() *)
| Call (c : libcall).

Definition log : Type := list event.

(** The planning library and the C library, as oracles over the log. *)
Record Library : Type := {
  CLOCKS_PER_SEC : Z;
  atof : string -> double;
  clock : log -> Z;
  parseProblem : log -> string -> double -> Vec * Vec;
  new_StateSpace : log -> space -> pointer;
  anchorChart : log -> Vec -> pointer;
  getAmbientDimension : log -> space -> Z;
  getRho_s : log -> double;
  parsePlanner : log -> string -> double -> pointer;
  solve : log -> double -> PlannerStatus;
  getStates : log -> list pointer;
  traverseManifold : log -> space -> pointer -> pointer -> list pointer;
  equalStates : log -> space -> pointer -> pointer -> bool;
  constVectorView : log -> pointer -> Vec;
  distance : log -> space -> pointer -> pointer -> double;
  findProperty : log -> string -> bool;
  getProperty : log -> string -> string;
  getChartCount : log -> Z;
  estimateFrontierPercent : log -> double
}.
End Log.

Arguments Vec : clear implicits.
Arguments item : clear implicits.
Arguments libcall : clear implicits.
Arguments event : clear implicits.
Arguments log : clear implicits.
Arguments Library : clear implicits.

(** ** The monad of the driver: a log, and three ways to stop early *)

(** The undefined behaviour that the embedding represents: a vector read
    out of range, [argv[i]], [waypoints[i]], [stateList[i]], or [front()]
    and [back()] of an empty [stateList].  A pointer that the library
    handed back (the constraint of [parseProblem], lines 78 and 220; the
    states of a path or of a traversal, lines 153-172) is only passed on
    to the library here, whose oracle answers whatever the pointer: the
    dereference of a null or dangling pointer is not represented. *)
Inductive ub : Type :=
| ArgvOutOfBounds (i : Z)
| WaypointOutOfBounds (i : Z)
| StateListOutOfBounds (i : Z)
| EmptyStateList.

Inductive stop : Type :=
| Exited (code : Z)                    (* exit(code) *)
| Undefined (u : ub)                   (* undefined behaviour *)
| OutOfFuel.                           (* the embedding's loop bound was hit *)

Inductive result (A : Type) : Type :=
| Ok (a : A)
| Stop (s : stop).
Arguments Ok {A}.
Arguments Stop {A}.

Section Monad.
Context {double : Type}.

Definition M (A : Type) : Type := log double -> result A * log double.

Definition ret {A : Type} (a : A) : M A := fun l => (Ok a, l).

Definition bind {A B : Type} (m : M A) (k : A -> M B) : M B :=
  fun l =>
    match m l with
    | (Ok a, l') => k a l'
    | (Stop s, l') => (Stop s, l')
    end.

Definition halt {A : Type} (s : stop) : M A := fun l => (Stop s, l).

Definition emit (e : event double) : M unit := fun l => (Ok tt, l ++ [e]).

(** A library call: the answer is computed from the log so far, then the
    call is logged with its answer. *)
Definition call {A : Type} (answer : log double -> A)
    (c : A -> libcall double) : M A :=
  fun l => let a := answer l in (Ok a, l ++ [Call (c a)]).

Definition call_ (c : libcall double) : M unit := emit (Call c).

Definition when (b : bool) (m : M unit) : M unit :=
  if b then m else ret tt.

(** [v[i]] of a vector; out of range is undefined behaviour. *)
Definition index {A : Type} (oob : Z -> ub) (v : list A) (i : Z) : M A :=
  match (if i <? 0 then None else nth_error v (Z.to_nat i)) with
  | Some a => ret a
  | None => halt (Undefined (oob i))
  end.

Definition front {A : Type} (v : list A) : M A :=
  match v with
  | a :: _ => ret a
  | [] => halt (Undefined EmptyStateList)
  end.

Definition back {A : Type} (v : list A) : M A :=
  match rev v with
  | a :: _ => ret a
  | [] => halt (Undefined EmptyStateList)
  end.
End Monad.

Declare Scope driver_scope.
Delimit Scope driver_scope with driver.
Notation "x <- m ;; k" := (bind m (fun x => k))
  (at level 61, m at next level, right associativity) : driver_scope.
Notation "m ;;; k" := (bind m (fun _ => k))
  (at level 61, right associativity) : driver_scope.
Open Scope driver_scope.

(** [for (std::size_t i = i0; i < bound; i++) acc = body(i, acc);] *)
Fixpoint for_loop {double A : Type} (fuel : nat) (i bound : Z)
    (body : Z -> A -> @M double A) (acc : A) : @M double A :=
  if i <? bound then
    match fuel with
    | O => halt OutOfFuel
    | S fuel' =>
        acc' <- body i acc ;;
        for_loop fuel' (size_t (i + 1)) bound body acc'
    end
  else ret acc.

(** ** The driver *)

Section Driver.
Context {double : Type} (F : DoubleOps double) (L : Library double).

Definition cout (i : item double) : @M double unit := emit (Cout i).

Definition fput (file : string) (i : item double) : @M double unit :=
  emit (FPut file i).

(** [x.size()] of an Eigen vector ([Eigen::Index] is signed). *)
Definition rows (x : Vec double) : Z := Z.of_nat (length x).

(** [void usage(const char *const progname)].  Does not return. *)
Definition usage {A : Type} (progname : string) : @M double A :=
  cout (Str "Usage: ") ;;;
  cout (Str progname) ;;;
  cout (Str (" <problem> <planner> <timelimit> <-c?>" ++ nl)) ;;;
  call_ PrintProblems ;;;
  call_ PrintPlanners ;;;
  halt (Exited 0).

(** Lines 168-174 and 299-303: the inner loop over the traversal,
    [for (std::size_t i = 1; i < stateList.size(); i++)]. *)
Definition print_states (sp : space) (stateList : list pointer)
    (length : double) : @M double double :=
  for_loop (List.length stateList) 1 (size stateList)
    (fun i length =>
       s <- index StateListOutOfBounds stateList i ;;
       v <- call (fun l => constVectorView L l s) (ConstVectorView s) ;;
       fput "anim.txt" (RowVec v) ;;;
       fput "anim.txt" (Str nl) ;;;
       s' <- index StateListOutOfBounds stateList (size_t (i - 1)) ;;
       d <- call (fun l => distance L l sp s' s) (Distance sp s' s) ;;
       ret (dadd F length d))
    length.

(** [for (auto &state : stateList) atlas->freeState(state);] *)
Fixpoint free_states (sp : space) (stateList : list pointer) : @M double unit :=
  match stateList with
  | [] => ret tt
  | state :: rest => call_ (FreeState sp state) ;;; free_states sp rest
  end.

(** Lines 150-179 and 285-308: the body of the loop over the waypoints. *)
Definition segment (sp : space) (waypoints : list pointer) (i : Z)
    (length : double) : @M double double :=
  from <- index WaypointOutOfBounds waypoints i ;;
  to <- index WaypointOutOfBounds waypoints (size_t (i + 1)) ;;
  stateList <- call (fun l => traverseManifold L l sp from to)
                    (TraverseManifold sp from to) ;;
  a <- front stateList ;;
  b <- back stateList ;;
  same <- call (fun l => equalStates L l sp a b) (EqualStates sp a b) ;;
  length' <- (if same : bool then
                s <- front stateList ;;
                v <- call (fun l => constVectorView L l s) (ConstVectorView s) ;;
                fput "anim.txt" (RowVec v) ;;;
                fput "anim.txt" (Str nl) ;;;
                ret length
              else print_states sp stateList length) ;;
  free_states sp stateList ;;;
  ret length'.

(** Lines 144-181 and 279-310: re-interpolate the solution path into
    [anim.txt] and measure it. *)
Definition interpolate (sp : space) (waypoints : list pointer)
    : @M double double :=
  let length := dofZ F 0 in
  emit (FOpen "anim.txt") ;;;
  length <- for_loop (S (List.length waypoints)) 0
              (size_t (size waypoints - 1)) (segment sp waypoints) length ;;
  emit (FClose "anim.txt") ;;;
  ret length.

(** Lines 128-197 and 263-326, which differ only in the wrapper object. *)
Definition plan (sp : space) (x : Vec double) (verbose : Z)
    (runtime_limit : double) : @M double unit :=
  tstart <- call (clock L) Clock ;;
  stat <- call (fun l => solve L l runtime_limit) (Solve runtime_limit) ;;
  (if status_bool stat then
     tnow <- call (clock L) Clock ;;
     let time := ddiv F (dofZ F (tnow - tstart)) (dofZ F (CLOCKS_PER_SEC L)) in
     call_ GetSolutionPath ;;;
     when ((rows x =? 3) && negb (verbose =? 0))
       (emit (FOpen "path.ply") ;;;
        call_ (DumpPath sp "path.ply") ;;;
        emit (FClose "path.ply")) ;;;
     waypoints <- call (getStates L) GetStates ;;
     length <- interpolate sp waypoints ;;
     when (status_eqb stat APPROXIMATE_SOLUTION)
       (cout (Str ("Solution is approximate." ++ nl))) ;;;
     cout (Str "Length: ") ;;; cout (Dbl length) ;;; cout (Str nl) ;;;
     cout (Str "Took ") ;;; cout (Dbl time) ;;;
     cout (Str (" seconds." ++ nl))
   else
     cout (Str ("No solution found." ++ nl))) ;;;
  call_ GetPlannerData ;;;
  found <- call (fun l => findProperty L l "approx goal distance REAL")
                (FindProperty "approx goal distance REAL") ;;
  if found : bool then
    cout (Str "Approx goal distance: ") ;;;
    value <- call (fun l => getProperty L l "approx goal distance REAL")
                  (GetProperty "approx goal distance REAL") ;;
    cout (Str value) ;;;
    cout (Str nl)
  else ret tt.

(** Lines 78-214: the branch [mode == 1]. *)
Definition atlas_mode (argv : list string) (x y : Vec double) (verbose : Z)
    : @M double unit :=
  let arg := index ArgvOutOfBounds argv in
  atlas <- call (fun l => new_StateSpace L l Atlas) (NewStateSpace Atlas) ;;
  when (is_null atlas) (a0 <- arg 0 ;; usage a0) ;;;
  call_ (SimpleSetup Atlas) ;;;
  call_ GetSpaceInformation ;;;
  call_ (SetSpaceInformation Atlas) ;;;
  call_ SetStateValidityChecker ;;;
  call_ (SetValidStateSamplerAllocator Atlas) ;;;
  call_ (SetExploration (dlit F 5 (-1))) ;;;
  call_ (SetRho (dlit F 5 (-1))) ;;;
  call_ (SetAlpha (ddiv F (M_PI F) (dofZ F 8))) ;;;
  call_ (SetEpsilon (dlit F 2 (-1))) ;;;
  call_ (SetDelta Atlas (dlit F 2 (-2))) ;;;
  call_ (SetMaxChartsPerExtension 200) ;;;
  startChart <- call (fun l => anchorChart L l x) (AnchorChart x) ;;
  goalChart <- call (fun l => anchorChart L l y) (AnchorChart y) ;;
  call_ (ScopedState Atlas) ;;;
  call_ (ScopedState Atlas) ;;;
  call_ (SetRealState Atlas x (Some startChart)) ;;;
  call_ (SetRealState Atlas y (Some goalChart)) ;;;
  call_ SetStartAndGoalStates ;;;
  dim <- call (fun l => getAmbientDimension L l Atlas)
              (GetAmbientDimension Atlas) ;;
  call_ (RealVectorBounds dim) ;;;
  call_ (SetLow (dofZ F (-10))) ;;;
  call_ (SetHigh (dofZ F 10)) ;;;
  call_ (SetBounds Atlas) ;;;
  a2 <- arg 2 ;;
  rho_s <- call (getRho_s L) GetRho_s ;;
  planner <- call (fun l => parsePlanner L l a2 rho_s) (ParsePlanner a2 rho_s) ;;
  when (is_null planner) (a0 <- arg 0 ;; usage a0) ;;;
  call_ SetPlanner ;;;
  call_ Setup ;;;
  a3 <- arg 3 ;;
  let runtime_limit := atof L a3 in
  when (dle F runtime_limit (dofZ F 0)) (a0 <- arg 0 ;; usage a0) ;;;
  plan Atlas x verbose runtime_limit ;;;
  cout (Str "Atlas created ") ;;;
  charts <- call (getChartCount L) GetChartCount ;;
  cout (Int charts) ;;;
  cout (Str (" charts." ++ nl)) ;;;
  when ((rows x =? 3) && negb (verbose =? 0))
    (emit (FOpen "atlas.ply") ;;;
     call_ (DumpMesh "atlas.ply") ;;;
     emit (FClose "atlas.ply") ;;;
     emit (FOpen "graph.ply") ;;;
     call_ GetPlannerData ;;;
     call_ ToBoostGraph ;;;
     call_ (DumpGraph Atlas "graph.ply") ;;;
     emit (FClose "graph.ply") ;;;
     open <- call (estimateFrontierPercent L) EstimateFrontierPercent ;;
     cout (Dbl open) ;;; cout (Str ("% open." ++ nl))).

(** Lines 219-335: the branch [mode == 2]. *)
Definition projected_mode (argv : list string) (x y : Vec double)
    (verbose : Z) : @M double unit :=
  let arg := index ArgvOutOfBounds argv in
  proj <- call (fun l => new_StateSpace L l Projected)
               (NewStateSpace Projected) ;;
  when (is_null proj) (a0 <- arg 0 ;; usage a0) ;;;
  call_ (SimpleSetup Projected) ;;;
  call_ GetSpaceInformation ;;;
  call_ (SetSpaceInformation Projected) ;;;
  call_ SetStateValidityChecker ;;;
  call_ (SetValidStateSamplerAllocator Projected) ;;;
  call_ (SetDelta Projected (dlit F 2 (-2))) ;;;
  call_ (ScopedState Projected) ;;;
  call_ (ScopedState Projected) ;;;
  call_ (SetRealState Projected x None) ;;;
  call_ (SetRealState Projected y None) ;;;
  call_ SetStartAndGoalStates ;;;
  dim <- call (fun l => getAmbientDimension L l Projected)
              (GetAmbientDimension Projected) ;;
  call_ (RealVectorBounds dim) ;;;
  call_ (SetLow (dofZ F (-10))) ;;;
  call_ (SetHigh (dofZ F 10)) ;;;
  call_ (SetBounds Projected) ;;;
  a2 <- arg 2 ;;
  planner <- call (fun l => parsePlanner L l a2 (dlit F 7 (-1)))
                  (ParsePlanner a2 (dlit F 7 (-1))) ;;
  when (is_null planner) (a0 <- arg 0 ;; usage a0) ;;;
  call_ SetPlanner ;;;
  call_ Setup ;;;
  a3 <- arg 3 ;;
  let runtime_limit := atof L a3 in
  when (dle F runtime_limit (dofZ F 0)) (a0 <- arg 0 ;; usage a0) ;;;
  plan Projected x verbose runtime_limit ;;;
  when ((rows x =? 3) && negb (verbose =? 0))
    (emit (FOpen "graph.ply") ;;;
     call_ GetPlannerData ;;;
     call_ ToBoostGraph ;;;
     call_ (DumpGraph Projected "graph.ply") ;;;
     emit (FClose "graph.ply")).

(** [int main(int argc, char **argv)].  [argv] is [progname :: args]:
    the program name is always there, so [argc >= 1]. *)
Definition main (progname : string) (args : list string) : @M double Z :=
  let argv := progname :: args in
  let argc := Z.of_nat (length argv) in
  let arg := index ArgvOutOfBounds argv in
  when (negb (argc =? 5) && negb (argc =? 6)) (a0 <- arg 0 ;; usage a0) ;;;
  let sleep := dofZ F 0 in
  verbose <- (if argc =? 6 then
                a5 <- arg 5 ;;
                when (negb (strcmp a5 "-v" =? 0)) (a0 <- arg 0 ;; usage a0) ;;;
                ret 1
              else ret 0) ;;
  a4 <- arg 4 ;;
  let mode := if strcmp "-a" a4 =? 0 then 1
              else if strcmp "-p" a4 =? 0 then 2
              else 0 in
  a1 <- arg 1 ;;
  xy <- call (fun l => parseProblem L l a1 sleep)
             (fun xy => ParseProblem a1 sleep (fst xy) (snd xy)) ;;
  let x := fst xy in
  let y := snd xy in
  (if mode =? 1 then atlas_mode argv x y verbose
   else if mode =? 2 then projected_mode argv x y verbose
   else ret tt) ;;;
  ret 0.

(** A run of the program: [main] from the empty log. *)
Definition run (progname : string) (args : list string)
    : result Z * log double :=
  main progname args [].
End Driver.

(** ** A small concrete library, to run the driver on *)

Module Toy.
(** Fixed-point numbers, in thousandths, stand in for [double]. *)
Definition ops : DoubleOps Z := {|
  dofZ := fun n => 1000 * n;
  dlit := fun m e => m * 10 ^ (e + 3);
  M_PI := 3142;
  dadd := Z.add;
  ddiv := fun a b => 1000 * a / b;
  dle := Z.leb
|}.

Definition coord (p : pointer) : Z :=
  match p with
  | nullptr => 0
  | addr a => 1000 * Z.of_N a
  end.

Definition pointer_eqb (p q : pointer) : bool :=
  match p, q with
  | nullptr, nullptr => true
  | addr a, addr b => N.eqb a b
  | _, _ => false
  end.

(** A library on a [dim]-dimensional problem that knows the planner "RRT",
    whose [solve] answers [stat] with the solution path [waypoints]; a
    traversal goes straight from one state to the other, through [via]
    when that is given. *)
Definition lib (dim : nat) (stat : PlannerStatus) (waypoints : list pointer)
    (via : option pointer) : Library Z := {|
  CLOCKS_PER_SEC := 1000000;
  atof := fun s => if String.eqb s "1" then 1000 else 0;
  clock := fun l => Z.of_nat (length l);
  parseProblem := fun _ _ _ => (repeat 0 dim, repeat 1000 dim);
  new_StateSpace := fun _ _ => addr 1;
  anchorChart := fun _ _ => addr 2;
  getAmbientDimension := fun _ _ => Z.of_nat dim;
  getRho_s := fun _ => 700;
  parsePlanner := fun _ name _ =>
    if String.eqb name "RRT" then addr 3 else nullptr;
  solve := fun _ _ => stat;
  getStates := fun _ => waypoints;
  traverseManifold := fun _ _ from to =>
    if pointer_eqb from to then [from]
    else match via with
         | Some m => [from; m; to]
         | None => [from; to]
         end;
  equalStates := fun _ _ => pointer_eqb;
  constVectorView := fun _ s => coord s :: repeat 0 (dim - 1);
  distance := fun _ _ a b => Z.abs (coord b - coord a);
  findProperty := fun _ _ => false;
  getProperty := fun _ _ => EmptyString;
  getChartCount := fun _ => 2;
  estimateFrontierPercent := fun _ => 50000
|}.
End Toy.

(** A solution through three states on a line, the last waypoint twice. *)
Definition detour : Library Z :=
  Toy.lib 3 EXACT_SOLUTION [addr 1; addr 4; addr 4] (Some (addr 2)).

(** A planner that runs out of time. *)
Definition timed_out : Library Z := Toy.lib 3 TIMEOUT [] None.

(** ** What a log shows *)

Section Observations.
Context {double : Type}.

(** What was sent to [file], in order. *)
Definition file_content (file : string) (l : log double) : list (item double) :=
  flat_map (fun e => match e with
                     | FPut f i => if String.eqb f file then [i] else []
                     | _ => []
                     end) l.

(** The lines of a file that holds one vector per line. *)
Definition lines (vs : list (Vec double)) : list (item double) :=
  flat_map (fun v => [RowVec v; Str nl]) vs.

(** The states whose vector view was taken, with the view. *)
Definition views (l : log double) : list (pointer * Vec double) :=
  flat_map (fun e => match e with
                     | Call (ConstVectorView s v) => [(s, v)]
                     | _ => []
                     end) l.

(** The traversals made: from, to, and the states returned. *)
Definition traversals (l : log double)
    : list (pointer * pointer * list pointer) :=
  flat_map (fun e => match e with
                     | Call (TraverseManifold _ from to sl) => [(from, to, sl)]
                     | _ => []
                     end) l.

(** The distances asked for: the two states and the answer. *)
Definition distances (l : log double) : list (pointer * pointer * double) :=
  flat_map (fun e => match e with
                     | Call (Distance _ a b d) => [(a, b, d)]
                     | _ => []
                     end) l.

(** The comparisons of states: the two states and the answer. *)
Definition equalities (l : log double) : list (pointer * pointer * bool) :=
  flat_map (fun e => match e with
                     | Call (EqualStates _ a b r) => [(a, b, r)]
                     | _ => []
                     end) l.

(** The events of the loop over the waypoints: lines of [anim.txt] and
    calls on states. *)
Definition loop_event (e : event double) : bool :=
  match e with
  | FPut f _ => String.eqb f "anim.txt"
  | Call (TraverseManifold _ _ _ _)
  | Call (EqualStates _ _ _ _)
  | Call (ConstVectorView _ _)
  | Call (Distance _ _ _ _)
  | Call (FreeState _ _) => true
  | _ => false
  end.

(** What went to [std::cout], in order. *)
Definition couts (l : log double) : list (item double) :=
  flat_map (fun e => match e with Cout i => [i] | _ => [] end) l.

(** The files created, in order. *)
Definition opened (l : log double) : list string :=
  flat_map (fun e => match e with FOpen f => [f] | _ => [] end) l.

(** The calls of the planner's [solve]: the time limit and the status. *)
Definition solves (l : log double) : list (double * PlannerStatus) :=
  flat_map (fun e => match e with
                     | Call (Solve limit stat) => [(limit, stat)]
                     | _ => []
                     end) l.

(** The state spaces and the planners constructed: what came back. *)
Definition spaces (l : log double) : list (space * pointer) :=
  flat_map (fun e => match e with
                     | Call (NewStateSpace sp p) => [(sp, p)]
                     | _ => []
                     end) l.

Definition planners (l : log double) : list (string * pointer) :=
  flat_map (fun e => match e with
                     | Call (ParsePlanner name _ p) => [(name, p)]
                     | _ => []
                     end) l.

(** The calls of [usage]: it is the only caller of [printProblems]. *)
Definition usages (l : log double) : list unit :=
  flat_map (fun e => match e with Call PrintProblems => [tt] | _ => [] end) l.

(** The problems parsed: the start and the goal. *)
Definition problems (l : log double) : list (Vec double * Vec double) :=
  flat_map (fun e => match e with
                     | Call (ParseProblem _ _ x y) => [(x, y)]
                     | _ => []
                     end) l.

(** The solution paths fetched. *)
Definition paths (l : log double) : list (list pointer) :=
  flat_map (fun e => match e with
                     | Call (GetStates waypoints) => [waypoints]
                     | _ => []
                     end) l.

(** What [usage] prints. *)
Definition usage_log (progname : string) : log double :=
  [Cout (Str "Usage: "); Cout (Str progname);
   Cout (Str (" <problem> <planner> <timelimit> <-c?>" ++ nl));
   Call PrintProblems; Call PrintPlanners].

(** The run printed the usage message and ended in [exit(0)]. *)
Definition usage_exit {A : Type} (progname : string)
    (r : result A * log double) : Prop :=
  fst r = Stop (Exited 0) /\ exists pre, snd r = pre ++ usage_log progname.

(** The file was created. *)
Definition written (file : string) (l : log double) : Prop :=
  In (FOpen file) l.

Definition solved (l : log double) (stat : PlannerStatus) : Prop :=
  exists limit, In (Call (Solve limit stat)) l.

(** A vector holds at most [SIZE_MAX] elements. *)
Definition fits {A : Type} (v : list A) : Prop :=
  Z.of_nat (length v) <= SIZE_MAX.
End Observations.

(** ** Reasoning about the driver *)

Section Rules.
Context {double : Type}.

(** [sat m l Q]: run from the log [l], [m] ends with a result and a log
    that satisfy [Q]. *)
Definition sat {A : Type} (m : @M double A) (l : log double)
    (Q : result A -> log double -> Prop) : Prop :=
  Q (fst (m l)) (snd (m l)).

Lemma sat_weaken {A : Type} (m : @M double A) l (Q Q' : result A -> log double -> Prop) :
  sat m l Q -> (forall r l', Q r l' -> Q' r l') -> sat m l Q'.
Proof. unfold sat; auto. Qed.

Lemma sat_and {A : Type} (m : @M double A) l (Q Q' : result A -> log double -> Prop) :
  sat m l Q -> sat m l Q' -> sat m l (fun r l' => Q r l' /\ Q' r l').
Proof. unfold sat; auto. Qed.

Lemma sat_ret {A : Type} (a : A) l (Q : result A -> log double -> Prop) :
  Q (Ok a) l -> sat (ret a) l Q.
Proof. exact (fun H => H). Qed.

Lemma sat_halt {A : Type} (s : stop) l (Q : result A -> log double -> Prop) :
  Q (Stop s) l -> sat (halt s) l Q.
Proof. exact (fun H => H). Qed.

Lemma sat_emit (e : event double) l (Q : result unit -> log double -> Prop) :
  Q (Ok tt) (l ++ [e]) -> sat (emit e) l Q.
Proof. exact (fun H => H). Qed.

Lemma sat_call {A : Type} (answer : log double -> A) c l
    (Q : result A -> log double -> Prop) :
  (forall a, Q (Ok a) (l ++ [Call (c a)])) -> sat (call answer c) l Q.
Proof. intros H; apply H. Qed.

Lemma sat_bind {A B : Type} (m : @M double A) (k : A -> @M double B) l
    (Q : result B -> log double -> Prop) :
  sat m l (fun r l' => match r with
                       | Ok a => sat (k a) l' Q
                       | Stop s => Q (Stop s) l'
                       end) ->
  sat (bind m k) l Q.
Proof.
  unfold sat, bind. destruct (m l) as [[a | s] l']; simpl; auto.
Qed.

Lemma sat_then_emit {B : Type} (e : event double) (k : unit -> @M double B) l Q :
  sat (k tt) (l ++ [e]) Q -> sat (bind (emit e) k) l Q.
Proof. intros H. apply sat_bind, sat_emit, H. Qed.

Lemma sat_then_call {A B : Type} (answer : log double -> A) c
    (k : A -> @M double B) l Q :
  (forall a, sat (k a) (l ++ [Call (c a)]) Q) -> sat (bind (call answer c) k) l Q.
Proof. intros H. apply sat_bind, sat_call, H. Qed.

Lemma sat_then_ret {A B : Type} (a : A) (k : A -> @M double B) l Q :
  sat (k a) l Q -> sat (bind (ret a) k) l Q.
Proof. intros H. apply sat_bind, sat_ret, H. Qed.

Lemma sat_then_halt {A B : Type} (s : stop) (k : A -> @M double B) l
    (Q : result B -> log double -> Prop) :
  Q (Stop s) l -> sat (bind (halt s) k) l Q.
Proof. intros H. apply sat_bind, sat_halt, H. Qed.

Lemma sat_assoc {A B C : Type} (m : @M double A) (k : A -> @M double B)
    (k' : B -> @M double C) l Q :
  sat (bind m (fun a => bind (k a) k')) l Q -> sat (bind (bind m k) k') l Q.
Proof.
  unfold sat, bind. destruct (m l) as [[a | s] l']; simpl; auto.
Qed.

(** The rule of the [for] loop, with an invariant over the index, the
    accumulator and the log.  The index cannot wrap below a bound that
    is itself a [size_t], and [fuel] that covers the distance to the
    bound is never used up. *)
Lemma sat_for_loop {A : Type} (I : Z -> A -> log double -> Prop)
    (E : stop -> log double -> Prop) (bound : Z)
    (body : Z -> A -> @M double A) :
  bound <= SIZE_MAX ->
  (forall i acc l, 0 <= i < bound -> I i acc l ->
     sat (body i acc) l (fun r l' => match r with
                                     | Ok acc' => I (i + 1) acc' l'
                                     | Stop s => E s l'
                                     end)) ->
  forall fuel i acc l,
    0 <= i -> bound - i <= Z.of_nat fuel -> I i acc l ->
    sat (for_loop fuel i bound body acc) l
        (fun r l' => match r with
                     | Ok acc' => I (Z.max i bound) acc' l'
                     | Stop s => E s l'
                     end).
Proof.
  intros Hb Hbody fuel.
  induction fuel as [| fuel IH]; intros i acc l Hi Hfuel HI; simpl.
  - destruct (Z.ltb_spec i bound); [lia |].
    apply sat_ret. now replace (Z.max i bound) with i by lia.
  - destruct (Z.ltb_spec i bound) as [Hlt | Hge].
    + apply sat_bind.
      eapply sat_weaken; [apply (Hbody i acc l); [lia | exact HI] |].
      intros [acc' | s] l' H; [| exact H].
      assert (Hw : size_t (i + 1) = i + 1).
      { unfold size_t. apply Z.mod_small. unfold SIZE_MAX in *. lia. }
      rewrite Hw.
      eapply sat_weaken; [apply IH; [lia | lia | exact H] |].
      intros [a | s] l''; [| auto].
      now replace (Z.max (i + 1) bound) with (Z.max i bound) by lia.
    + apply sat_ret. now replace (Z.max i bound) with i by lia.
Qed.
End Rules.

(** ** Lists, indices and sizes *)

Lemma size_t_small (z : Z) : 0 <= z <= SIZE_MAX -> size_t z = z.
Proof. intros H. unfold size_t. apply Z.mod_small. lia. Qed.

Lemma size_t_range (z : Z) : 0 <= size_t z <= SIZE_MAX.
Proof.
  unfold size_t. assert (H : 0 < SIZE_MAX + 1) by (unfold SIZE_MAX; lia).
  pose proof (Z.mod_pos_bound z _ H). lia.
Qed.

Lemma size_le_length {A : Type} (v : list A) : size v <= Z.of_nat (length v).
Proof.
  unfold size, size_t. apply Z.mod_le; [lia | unfold SIZE_MAX; lia].
Qed.

Lemma size_fits {A : Type} (v : list A) : fits v -> size v = Z.of_nat (length v).
Proof. intros H. apply size_t_small. unfold fits in H. lia. Qed.

Lemma firstn_snoc {A : Type} (l : list A) (k : nat) (a : A) :
  nth_error l k = Some a -> firstn (S k) l = firstn k l ++ [a].
Proof.
  revert k. induction l as [| x l IH]; intros [| k] H; simpl in *;
    try discriminate.
  - now inversion H.
  - now rewrite (IH k H).
Qed.

Lemma nth_error_tl {A : Type} (l : list A) (k : nat) :
  nth_error (tl l) k = nth_error l (S k).
Proof. destruct l; [now destruct k | reflexivity]. Qed.

Lemma nth_error_combine {A B : Type} (l : list A) (l' : list B) k a b :
  nth_error l k = Some a -> nth_error l' k = Some b ->
  nth_error (combine l l') k = Some (a, b).
Proof.
  revert l' k. induction l as [| x l IH]; intros [| y l'] [| k] Ha Hb;
    simpl in *; try discriminate.
  - now inversion Ha; inversion Hb.
  - now apply IH.
Qed.

Lemma nth_error_in_range {A : Type} (l : list A) (k : nat) :
  (k < length l)%nat -> exists a, nth_error l k = Some a.
Proof.
  intros H. destruct (nth_error l k) eqn:E; [eauto |].
  apply nth_error_None in E. lia.
Qed.

Section Homomorphisms.
Context {double : Type}.

Lemma file_content_app f (a b : log double) :
  file_content f (a ++ b) = file_content f a ++ file_content f b.
Proof. apply flat_map_app. Qed.

Lemma views_app (a b : log double) : views (a ++ b) = views a ++ views b.
Proof. apply flat_map_app. Qed.

Lemma traversals_app (a b : log double) :
  traversals (a ++ b) = traversals a ++ traversals b.
Proof. apply flat_map_app. Qed.

Lemma distances_app (a b : log double) :
  distances (a ++ b) = distances a ++ distances b.
Proof. apply flat_map_app. Qed.

Lemma equalities_app (a b : log double) :
  equalities (a ++ b) = equalities a ++ equalities b.
Proof. apply flat_map_app. Qed.

Lemma lines_app (a b : list (Vec double)) : lines (a ++ b) = lines a ++ lines b.
Proof. apply flat_map_app. Qed.

Lemma couts_app (a b : log double) : couts (a ++ b) = couts a ++ couts b.
Proof. apply flat_map_app. Qed.

Lemma opened_app (a b : log double) : opened (a ++ b) = opened a ++ opened b.
Proof. apply flat_map_app. Qed.

Lemma solves_app (a b : log double) : solves (a ++ b) = solves a ++ solves b.
Proof. apply flat_map_app. Qed.

Lemma spaces_app (a b : log double) : spaces (a ++ b) = spaces a ++ spaces b.
Proof. apply flat_map_app. Qed.

Lemma planners_app (a b : log double) :
  planners (a ++ b) = planners a ++ planners b.
Proof. apply flat_map_app. Qed.

Lemma paths_app (a b : log double) : paths (a ++ b) = paths a ++ paths b.
Proof. apply flat_map_app. Qed.

Lemma usages_app (a b : log double) : usages (a ++ b) = usages a ++ usages b.
Proof. apply flat_map_app. Qed.

Lemma problems_app (a b : log double) :
  problems (a ++ b) = problems a ++ problems b.
Proof. apply flat_map_app. Qed.

(** The loop over the waypoints prints nothing, creates no file and
    calls neither a constructor nor the planner. *)
Lemma loop_events_quiet (body : log double) :
  Forall (fun e => loop_event e = true) body ->
  couts body = [] /\ opened body = [] /\ solves body = [] /\
  spaces body = [] /\ planners body = [] /\ paths body = [] /\
  usages body = [] /\
  forall f, String.eqb f "anim.txt" = false -> file_content f body = [].
Proof.
  induction 1 as [| e body He _ IH].
  - repeat split.
  - destruct IH as (Hc & Ho & Hs & Hp & Hq & Hw & Hu & Hf).
    destruct e as [i | f | f i | f | c]; try discriminate He.
    + repeat split; auto. intros g Hg. simpl. rewrite (Hf g Hg).
      simpl in He. apply String.eqb_eq in He. subst f.
      rewrite String.eqb_sym, Hg. reflexivity.
    + destruct c; try discriminate He; repeat split; auto.
Qed.

(** [v[i]] in range. *)
Lemma sat_then_index {A B : Type} (oob : Z -> ub) (v : list A) (i : Z)
    (k : A -> @M double B) l Q :
  0 <= i < Z.of_nat (length v) ->
  (forall a, nth_error v (Z.to_nat i) = Some a -> sat (k a) l Q) ->
  sat (bind (index oob v i) k) l Q.
Proof.
  intros Hi H. unfold index.
  destruct (Z.ltb_spec i 0); [lia |].
  destruct (nth_error_in_range v (Z.to_nat i)) as [a Ha]; [lia |].
  rewrite Ha. apply sat_then_ret, H, Ha.
Qed.
End Homomorphisms.

(** ** The loops *)

Section Loops.
Context {double : Type} (F : DoubleOps double) (L : Library double).

(** [len] plus, from left to right, the distances a log shows. *)
Definition total (len : double) (ext : log double) : double :=
  fold_left (dadd F) (map snd (distances ext)) len.

Lemma total_app len (a b : log double) :
  total len (a ++ b) = total (total len a) b.
Proof. unfold total. now rewrite distances_app, map_app, fold_left_app. Qed.

(** What the log of the inner loop shows once it has handled the first
    [k] states after [stateList[0]]. *)
Definition walked (stateList : list pointer) (k : nat) (len len' : double)
    (ext : log double) : Prop :=
  map fst (views ext) = firstn k (tl stateList) /\
  file_content "anim.txt" ext = lines (map snd (views ext)) /\
  map fst (distances ext) = firstn k (combine stateList (tl stateList)) /\
  len' = total len ext /\
  traversals ext = [] /\
  equalities ext = [] /\
  Forall (fun e => loop_event e = true) ext.

(** How far the inner loop gets: to the end of a vector that [fits]. *)
Definition reach (stateList : list pointer) : nat :=
  Z.to_nat (Z.max 1 (size stateList) - 1).

Lemma reach_fits (stateList : list pointer) :
  fits stateList -> reach stateList = length (tl stateList).
Proof.
  intros H. unfold reach. rewrite (size_fits _ H).
  destruct stateList; simpl length; lia.
Qed.

Lemma print_states_sat sp stateList len l :
  sat (print_states F L sp stateList len) l
    (fun r l' => exists len' ext,
         r = Ok len' /\ l' = l ++ ext /\
         walked stateList (reach stateList) len len' ext).
Proof.
  unfold print_states.
  pose proof (size_t_range (Z.of_nat (length stateList))) as Hrange.
  pose proof (size_le_length stateList) as Hle.
  fold (size stateList) in Hrange.
  eapply sat_weaken.
  - apply (sat_for_loop
             (fun i acc l' => exists ext,
                  l' = l ++ ext /\ 1 <= i /\
                  walked stateList (Z.to_nat (i - 1)) len acc ext)
             (fun _ _ => False)); try lia.
    + intros i acc l1 Hi (ext & -> & Hi1 & Hv & Hf & Hd & Hlen & Ht & He & Hk).
      apply sat_then_index; [lia |]. intros s Hs.
      apply sat_then_call. intros v.
      do 2 apply sat_then_emit.
      rewrite (size_t_small (i - 1)) by lia.
      apply sat_then_index; [lia |]. intros s' Hs'.
      apply sat_then_call. intros d.
      apply sat_ret.
      exists (ext ++ [Call (ConstVectorView s v); FPut "anim.txt" (RowVec v);
                      FPut "anim.txt" (Str nl); Call (Distance sp s' s d)]).
      split; [now rewrite <- !app_assoc |].
      split; [lia |].
      replace (Z.to_nat (i + 1 - 1)) with (S (Z.to_nat (i - 1))) by lia.
      replace (Z.to_nat i) with (S (Z.to_nat (i - 1))) in Hs by lia.
      unfold walked.
      rewrite views_app, file_content_app, distances_app, traversals_app,
        equalities_app, total_app, !map_app, lines_app.
      repeat split.
      * rewrite Hv. simpl. symmetry. apply firstn_snoc.
        now rewrite nth_error_tl.
      * now rewrite Hf.
      * rewrite Hd. simpl. symmetry. apply firstn_snoc.
        apply nth_error_combine; [exact Hs' | now rewrite nth_error_tl].
      * now rewrite <- Hlen.
      * now rewrite Ht.
      * now rewrite He.
      * apply Forall_app. split; [exact Hk |]. now repeat constructor.
    + exists []. split; [now rewrite app_nil_r |]. split; [lia |].
      repeat split; constructor.
  - intros [len' | s] l' H; [| contradiction].
    destruct H as (ext & -> & _ & H).
    exists len', ext. repeat split; apply H.
Qed.

(** Freeing the states shows nothing but the calls themselves. *)
Definition freed (sp : space) (stateList : list pointer) : log double :=
  map (fun s => Call (FreeState sp s)) stateList.

Lemma free_states_sat sp stateList l :
  sat (free_states sp stateList) l
    (fun r l' => r = Ok tt /\ l' = l ++ freed sp stateList).
Proof.
  revert l. induction stateList as [| s rest IH]; intros l; simpl.
  - apply sat_ret. now rewrite app_nil_r.
  - unfold call_. apply sat_then_emit.
    eapply sat_weaken; [apply IH |].
    intros r l' [-> ->]. now rewrite <- app_assoc.
Qed.

Lemma freed_quiet sp stateList :
  views (freed sp stateList) = [] /\
  file_content "anim.txt" (freed sp stateList) = [] /\
  distances (freed sp stateList) = [] /\
  traversals (freed sp stateList) = [] /\
  equalities (freed sp stateList) = [] /\
  Forall (fun e => loop_event e = true) (freed sp stateList).
Proof.
  induction stateList as [| s rest IH]; simpl.
  - repeat split; constructor.
  - destruct IH as (? & ? & ? & ? & ? & ?). repeat split; auto.
Qed.

Lemma last_cons {A : Type} (x d : A) (v : list A) : last (x :: v) d = last v x.
Proof.
  revert x d. induction v as [| y v IH]; intros x d; [reflexivity |].
  change (last (x :: y :: v) d) with (last (y :: v) d).
  now rewrite (IH y d), (IH y x).
Qed.

Lemma back_cons {A : Type} (x : A) (v : list A) :
  @back double A (x :: v) = ret (last v x).
Proof.
  unfold back.
  assert (H : exists t, rev (x :: v) = last v x :: t).
  { revert x. induction v as [| y v IH]; intros x.
    - now exists [].
    - destruct (IH y) as [t Ht].
      change (rev (x :: y :: v)) with (rev (y :: v) ++ [x]).
      rewrite Ht, last_cons. now exists (t ++ [x]). }
  destruct H as [t ->]. reflexivity.
Qed.

(** What the log of one turn of the loop over the waypoints shows. *)
Definition segment_shows (from to : pointer) (len : double)
    (r : result double) (ext : log double) : Prop :=
  exists stateList,
    traversals ext = [(from, to, stateList)] /\
    file_content "anim.txt" ext = lines (map snd (views ext)) /\
    Forall (fun e => loop_event e = true) ext /\
    match stateList with
    | [] => r = Stop (Undefined EmptyStateList)
    | s0 :: rest =>
        exists same : bool,
          equalities ext = [(s0, last rest s0, same)] /\
          r = Ok (total len ext) /\
          if same then
            map fst (views ext) = [s0] /\ distances ext = []
          else
            map fst (views ext) = firstn (reach stateList) rest /\
            map fst (distances ext)
            = firstn (reach stateList) (combine stateList rest)
    end.

Lemma segment_sat sp waypoints i len l from to :
  0 <= i -> i + 1 <= SIZE_MAX ->
  nth_error waypoints (Z.to_nat i) = Some from ->
  nth_error waypoints (Z.to_nat (i + 1)) = Some to ->
  sat (segment F L sp waypoints i len) l
    (fun r l' => exists ext, l' = l ++ ext /\ segment_shows from to len r ext).
Proof.
  intros Hi Hmax Hfrom Hto. unfold segment.
  assert (Hlen : (Z.to_nat (i + 1) < length waypoints)%nat).
  { apply nth_error_Some. now rewrite Hto. }
  apply sat_then_index; [lia |]. intros from' Hfrom'.
  rewrite (size_t_small (i + 1)) by lia.
  apply sat_then_index; [lia |]. intros to' Hto'.
  assert (from' = from) by congruence. assert (to' = to) by congruence.
  subst from' to'.
  apply sat_then_call. intros [| s0 rest].
  - apply sat_then_halt.
    exists [Call (TraverseManifold sp from to [])]. split; [reflexivity |].
    exists []. repeat split. now repeat constructor.
  - apply sat_then_ret. rewrite back_cons. apply sat_then_ret.
    apply sat_then_call. intros [|].
    + apply sat_bind, sat_then_ret, sat_then_call. intros v.
      do 2 apply sat_then_emit. apply sat_ret.
      apply sat_bind.
      eapply sat_weaken; [apply free_states_sat |].
      intros r l' [-> ->]. apply sat_ret.
      destruct (freed_quiet sp (s0 :: rest)) as (Qv & Qf & Qd & Qt & Qe & Qk).
      eexists. split; [rewrite <- !app_assoc; reflexivity |].
      exists (s0 :: rest). cbn [app].
      change (?a :: ?b :: ?c :: ?d :: ?e :: freed sp (s0 :: rest))
        with ([a; b; c; d; e] ++ freed sp (s0 :: rest)).
      unfold total.
      rewrite traversals_app, file_content_app, views_app, equalities_app,
        distances_app, Qv, Qf, Qd, Qt, Qe.
      repeat split.
      * apply Forall_app. split; [now repeat constructor | exact Qk].
      * exists true. now repeat split.
    + apply sat_bind.
      eapply sat_weaken; [apply print_states_sat |].
      intros r l' (len' & ext & -> & -> & Hv & Hf & Hd & Hlen' & Ht & He & Hk).
      apply sat_bind.
      eapply sat_weaken; [apply free_states_sat |].
      intros r l' [-> ->]. apply sat_ret.
      destruct (freed_quiet sp (s0 :: rest)) as (Qv & Qf & Qd & Qt & Qe & Qk).
      exists ([Call (TraverseManifold sp from to (s0 :: rest));
               Call (EqualStates sp s0 (last rest s0) false)]
              ++ ext ++ freed sp (s0 :: rest)).
      split; [now rewrite <- !app_assoc |].
      exists (s0 :: rest). unfold total.
      rewrite !traversals_app, !file_content_app, !views_app, !equalities_app,
        !distances_app, Qv, Qf, Qd, Qt, Qe, Ht, He, !app_nil_r.
      repeat split.
      * exact Hf.
      * apply Forall_app. split; [now repeat constructor |].
        apply Forall_app. now split.
      * exists false. repeat split; [| exact Hv | exact Hd].
        now rewrite Hlen'.
Qed.

(** The bound of the loop over the waypoints, [waypoints.size() - 1]. *)
Definition turns (waypoints : list pointer) : Z := size_t (size waypoints - 1).

Lemma turns_empty : turns [] = SIZE_MAX.
Proof. reflexivity. Qed.

Lemma turns_le (waypoints : list pointer) :
  waypoints <> [] -> turns waypoints <= Z.of_nat (length waypoints) - 1.
Proof.
  intros Hne. unfold turns.
  assert (Hlen : 0 < Z.of_nat (length waypoints)).
  { destruct waypoints; [contradiction | simpl length; lia]. }
  pose proof (size_t_range (Z.of_nat (length waypoints))) as Hr.
  pose proof (size_le_length waypoints) as Hle.
  fold (size waypoints) in Hr.
  destruct (Z.eq_dec (size waypoints) 0) as [E | E].
  - rewrite E.
    destruct (Z_le_gt_dec (Z.of_nat (length waypoints)) SIZE_MAX) as [Hs | Hs].
    + unfold size in E. rewrite size_t_small in E by lia. lia.
    + change (size_t (0 - 1)) with SIZE_MAX. lia.
  - rewrite size_t_small by lia. lia.
Qed.

Lemma turns_fits (waypoints : list pointer) :
  waypoints <> [] -> fits waypoints ->
  turns waypoints = Z.of_nat (length waypoints) - 1.
Proof.
  intros Hne Hf. unfold turns. rewrite (size_fits _ Hf).
  assert (0 < Z.of_nat (length waypoints)).
  { destruct waypoints; [contradiction | simpl length; lia]. }
  unfold fits in Hf. apply size_t_small. lia.
Qed.

(** What the lines of [anim.txt] and the events of a stretch of the
    loop show, whatever the library answers. *)
Definition body_shows (body : log double) : Prop :=
  file_content "anim.txt" body = lines (map snd (views body)) /\
  Forall (fun e => loop_event e = true) body.

Lemma body_shows_app (a b : log double) :
  body_shows a -> body_shows b -> body_shows (a ++ b).
Proof.
  intros [Ha Ka] [Hb Kb]. split.
  - now rewrite file_content_app, views_app, map_app, lines_app, Ha, Hb.
  - apply Forall_app. now split.
Qed.

(** A turn of the loop that came to its end. *)
Definition segment_ok (from to : pointer) (ext : log double) : Prop :=
  exists len, segment_shows from to len (Ok (total len ext)) ext.

(** A stretch of log made of one part per pair of waypoints, in order. *)
Definition segments_of (pairs : list (pointer * pointer)) (body : log double)
    : Prop :=
  exists parts,
    body = concat parts /\
    Forall2 (fun p ext => segment_ok (fst p) (snd p) ext) pairs parts.

Lemma segments_of_snoc pairs body from to ext :
  segments_of pairs body -> segment_ok from to ext ->
  segments_of (pairs ++ [(from, to)]) (body ++ ext).
Proof.
  intros (parts & -> & H) Hok. exists (parts ++ [ext]). split.
  - rewrite concat_app. simpl. now rewrite app_nil_r.
  - apply Forall2_app; [exact H |]. now repeat constructor.
Qed.

(** What the log of [interpolate] shows, by the way it ends. *)
Definition interpolate_shows (waypoints : list pointer) (l : log double)
    (r : result double) (l' : log double) : Prop :=
  match r with
  | Ok len =>
      exists body,
        l' = l ++ FOpen "anim.txt" :: body ++ [FClose "anim.txt"] /\
        body_shows body /\
        waypoints <> [] /\
        len = total (dofZ F 0) body /\
        map fst (traversals body)
        = firstn (Z.to_nat (turns waypoints))
                 (combine waypoints (tl waypoints)) /\
        Forall (fun t => snd t <> []) (traversals body) /\
        segments_of (firstn (Z.to_nat (turns waypoints))
                            (combine waypoints (tl waypoints))) body
  | Stop (Undefined EmptyStateList) =>
      exists body,
        l' = l ++ FOpen "anim.txt" :: body /\
        body_shows body /\
        exists from to, In (from, to, []) (traversals body)
  | Stop (Undefined (WaypointOutOfBounds i)) =>
      waypoints = [] /\ i = 0 /\ l' = l ++ [FOpen "anim.txt"]
  | Stop _ => False
  end.

Lemma interpolate_sat sp waypoints l :
  sat (interpolate F L sp waypoints) l (interpolate_shows waypoints l).
Proof.
  unfold interpolate. apply sat_then_emit.
  destruct waypoints as [| w0 ws].
  - change (size_t (@size pointer [] - 1)) with SIZE_MAX.
    simpl for_loop. change (0 <? SIZE_MAX) with true. cbv iota.
    unfold segment, index. simpl. now repeat split.
  - assert (Hne : w0 :: ws <> []) by discriminate.
    remember (w0 :: ws) as waypoints eqn:Hw. clear Hw w0 ws.
    pose proof (turns_le waypoints Hne) as Hturns.
    pose proof (size_t_range (size waypoints - 1)) as Hr.
    fold (turns waypoints) in Hr |- *.
    apply sat_bind. eapply sat_weaken.
    + apply (sat_for_loop
               (fun i len l' => exists body,
                    l' = (l ++ [FOpen "anim.txt"]) ++ body /\
                    body_shows body /\
                    len = total (dofZ F 0) body /\
                    map fst (traversals body)
                    = firstn (Z.to_nat i) (combine waypoints (tl waypoints)) /\
                    Forall (fun t => snd t <> []) (traversals body) /\
                    segments_of (firstn (Z.to_nat i)
                                   (combine waypoints (tl waypoints))) body)
               (fun s l' => s = Undefined EmptyStateList /\ exists body,
                    l' = (l ++ [FOpen "anim.txt"]) ++ body /\
                    body_shows body /\
                    exists from to, In (from, to, []) (traversals body))
               (turns waypoints)
               (segment F L sp waypoints)); try lia.
      * intros i len l1 Hi (body & -> & Hb & Hlen & Ht & Hn & Hparts).
        destruct (nth_error_in_range waypoints (Z.to_nat i)) as [from Hfrom];
          [lia |].
        destruct (nth_error_in_range waypoints (Z.to_nat (i + 1))) as [to Hto];
          [lia |].
        eapply sat_weaken;
          [apply (segment_sat sp waypoints i len _ from to); try lia; assumption |].
        intros r l' (ext & -> & Hseg).
        pose proof Hseg as (sl & Xt & Xf & Xk & Hsl).
        assert (Hbs : body_shows (body ++ ext))
          by (apply body_shows_app; [exact Hb | now split]).
        destruct sl as [| s0 rest].
        -- subst r. split; [reflexivity |].
           exists (body ++ ext). split; [now rewrite app_assoc |].
           split; [exact Hbs |].
           exists from, to. rewrite traversals_app, Xt.
           apply in_or_app. right. now left.
        -- destruct Hsl as (same & _ & -> & _).
           assert (Hnext : firstn (Z.to_nat (i + 1))
                             (combine waypoints (tl waypoints))
                           = firstn (Z.to_nat i)
                               (combine waypoints (tl waypoints))
                             ++ [(from, to)]).
           { replace (Z.to_nat (i + 1)) with (S (Z.to_nat i)) by lia.
             apply firstn_snoc.
             apply nth_error_combine; [exact Hfrom |].
             rewrite nth_error_tl.
             now replace (S (Z.to_nat i)) with (Z.to_nat (i + 1)) by lia. }
           exists (body ++ ext). split; [now rewrite app_assoc |].
           split; [exact Hbs |].
           split; [now rewrite total_app, <- Hlen |].
           rewrite traversals_app, map_app, Ht, Xt, Hnext.
           split; [reflexivity |]. split.
           ++ apply Forall_app. split; [exact Hn |].
              constructor; [discriminate | constructor].
           ++ apply segments_of_snoc; [exact Hparts |]. now exists len.
      * exists []. rewrite app_nil_r. repeat split; try constructor.
        exists []. split; [reflexivity | constructor].
    + intros [len | s] l'.
      * intros (body & -> & Hb & Hlen & Ht & Hn & Hparts).
        apply sat_then_emit, sat_ret.
        exists body. rewrite <- !app_assoc.
        split; [reflexivity |].
        rewrite Z.max_r in Ht, Hparts by lia. tauto.
      * intros (-> & body & -> & Hb & Hin).
        exists body. rewrite <- app_assoc. tauto.
Qed.
End Loops.

(** ** The shape of a run *)

Lemma strcmp_refl (a : string) : strcmp a a = 0.
Proof.
  unfold strcmp. pose proof (String.compare_antisym a a) as H.
  destruct (String.compare a a); simpl in H; try discriminate; reflexivity.
Qed.

Lemma strcmp_eq (a b : string) : strcmp a b = 0 -> a = b.
Proof.
  unfold strcmp. intros H. apply String.compare_eq_iff.
  destruct (String.compare a b); [reflexivity | discriminate | discriminate].
Qed.

Lemma strcmp_eqb (a b : string) : (strcmp a b =? 0) = String.eqb a b.
Proof.
  destruct (String.eqb_spec a b) as [-> | Hne].
  - now rewrite strcmp_refl.
  - apply Z.eqb_neq. intros H. now apply Hne, strcmp_eq.
Qed.

(** One step of the driver at a time: outputs, library calls with an
    arbitrary answer, and returns. *)
Lemma sat_when_true {double B : Type} (m : @M double unit)
    (k : unit -> @M double B) l Q :
  sat (bind m k) l Q -> sat (bind (when true m) k) l Q.
Proof. exact (fun H => H). Qed.

Lemma sat_when_false {double B : Type} (m : @M double unit)
    (k : unit -> @M double B) l Q :
  sat (k tt) l Q -> sat (bind (when false m) k) l Q.
Proof. exact (fun H => H). Qed.

Ltac wp_step :=
  cbv beta iota zeta;
  lazymatch goal with
  | |- sat (bind (bind _ _) _) _ _ => apply sat_assoc
  | |- sat (bind (emit _) _) _ _ => apply sat_then_emit
  | |- sat (bind (cout _) _) _ _ => apply sat_then_emit
  | |- sat (bind (fput _ _) _) _ _ => apply sat_then_emit
  | |- sat (bind (call_ _) _) _ _ => apply sat_then_emit
  | |- sat (bind (call _ _) _) _ _ => apply sat_then_call; intro
  | |- sat (bind (ret _) _) _ _ => apply sat_then_ret
  | |- sat (bind (halt _) _) _ _ => apply sat_then_halt
  | |- sat (bind (when true _) _) _ _ => apply sat_when_true
  | |- sat (bind (when false _) _) _ _ => apply sat_when_false
  | |- sat (when true _) _ _ => unfold when at 1
  | |- sat (when false _) _ _ => apply sat_ret
  | |- sat (emit _) _ _ => apply sat_emit
  | |- sat (cout _) _ _ => apply sat_emit
  | |- sat (call_ _) _ _ => apply sat_emit
  | |- sat (ret _) _ _ => apply sat_ret
  | |- sat (halt _) _ _ => apply sat_halt
  end.

Ltac wp := repeat wp_step.

(** An argument at a position that is there. *)
Ltac wp_index :=
  apply sat_then_index;
  [ simpl length; lia
  | let a := fresh "a" in
    let H := fresh "H" in
    intros a H; simpl in H; injection H as <- ].

(** The same, stopping in front of a library call that returns a value. *)
Ltac wp0 :=
  repeat (cbv beta iota zeta;
          lazymatch goal with
          | |- sat (bind (call _ _) _) _ _ => fail
          | |- sat (bind (index _ _ _) _) _ _ => wp_index
          | _ => wp_step
          end).

Section Shape.
Context {double : Type} (F : DoubleOps double) (L : Library double).

(** [x.size() == 3 && verbose] *)
Definition dumps (x : Vec double) (verbose : Z) : bool :=
  (rows x =? 3) && negb (verbose =? 0).

Definition no_solution : item double := Str ("No solution found." ++ nl).
Definition approximate : item double := Str ("Solution is approximate." ++ nl).

(** Lines 193-197 and 322-326. *)
Definition planner_data (found : option string) : log double :=
  Call GetPlannerData
  :: match found with
     | Some value =>
         [Call (FindProperty "approx goal distance REAL" true);
          Cout (Str "Approx goal distance: ");
          Call (GetProperty "approx goal distance REAL" value);
          Cout (Str value); Cout (Str nl)]
     | None => [Call (FindProperty "approx goal distance REAL" false)]
     end.

(** Lines 183-186 and 312-315. *)
Definition report (stat : PlannerStatus) (len time : double) : log double :=
  (if status_eqb stat APPROXIMATE_SOLUTION then [Cout approximate] else [])
  ++ [Cout (Str "Length: "); Cout (Dbl len); Cout (Str nl);
      Cout (Str "Took "); Cout (Dbl time); Cout (Str (" seconds." ++ nl))].

(** From the first [clock()] to [path.getStates()]. *)
Definition solution_log (sp : space) (dump : bool) (limit : double)
    (t0 : Z) (stat : PlannerStatus) (t1 : Z) (waypoints : list pointer)
    : log double :=
  [Call (Clock t0); Call (Solve limit stat); Call (Clock t1);
   Call GetSolutionPath]
  ++ (if dump then [FOpen "path.ply"; Call (DumpPath sp "path.ply");
                    FClose "path.ply"]
      else [])
  ++ [Call (GetStates waypoints)].

Definition seconds (t0 t1 : Z) : double :=
  ddiv F (dofZ F (t1 - t0)) (dofZ F (CLOCKS_PER_SEC L)).

(** The three ways [plan] can go. *)
Inductive plan_shows (sp : space) (dump : bool) (limit : double)
    (l : log double) : result unit -> log double -> Prop :=
| plan_no_solution t0 stat found :
    status_bool stat = false ->
    plan_shows sp dump limit l (Ok tt)
      (l ++ [Call (Clock t0); Call (Solve limit stat); Cout no_solution]
         ++ planner_data found)
| plan_stopped t0 stat t1 waypoints s l' :
    status_bool stat = true ->
    interpolate_shows F waypoints
      (l ++ solution_log sp dump limit t0 stat t1 waypoints) (Stop s) l' ->
    plan_shows sp dump limit l (Stop s) l'
| plan_solution t0 stat t1 waypoints len l' found :
    status_bool stat = true ->
    interpolate_shows F waypoints
      (l ++ solution_log sp dump limit t0 stat t1 waypoints) (Ok len) l' ->
    plan_shows sp dump limit l (Ok tt)
      (l' ++ report stat len (seconds t0 t1) ++ planner_data found).

(** The configuration of the state space, lines 84-111 and 226-246. *)
Definition setup_log (sp : space) (x y : Vec double) (c1 c2 : pointer)
    (dim : Z) (rho_s : double) : log double :=
  match sp with
  | Atlas =>
      [Call (SimpleSetup Atlas); Call GetSpaceInformation;
       Call (SetSpaceInformation Atlas); Call SetStateValidityChecker;
       Call (SetValidStateSamplerAllocator Atlas);
       Call (SetExploration (dlit F 5 (-1))); Call (SetRho (dlit F 5 (-1)));
       Call (SetAlpha (ddiv F (M_PI F) (dofZ F 8)));
       Call (SetEpsilon (dlit F 2 (-1))); Call (SetDelta Atlas (dlit F 2 (-2)));
       Call (SetMaxChartsPerExtension 200);
       Call (AnchorChart x c1); Call (AnchorChart y c2);
       Call (ScopedState Atlas); Call (ScopedState Atlas);
       Call (SetRealState Atlas x (Some c1));
       Call (SetRealState Atlas y (Some c2));
       Call SetStartAndGoalStates;
       Call (GetAmbientDimension Atlas dim); Call (RealVectorBounds dim);
       Call (SetLow (dofZ F (-10))); Call (SetHigh (dofZ F 10));
       Call (SetBounds Atlas); Call (GetRho_s rho_s)]
  | Projected =>
      [Call (SimpleSetup Projected); Call GetSpaceInformation;
       Call (SetSpaceInformation Projected); Call SetStateValidityChecker;
       Call (SetValidStateSamplerAllocator Projected);
       Call (SetDelta Projected (dlit F 2 (-2)));
       Call (ScopedState Projected); Call (ScopedState Projected);
       Call (SetRealState Projected x None);
       Call (SetRealState Projected y None);
       Call SetStartAndGoalStates;
       Call (GetAmbientDimension Projected dim); Call (RealVectorBounds dim);
       Call (SetLow (dofZ F (-10))); Call (SetHigh (dofZ F 10));
       Call (SetBounds Projected)]
  end.

(** The range handed to [parsePlanner]. *)
Definition range (sp : space) (rho_s : double) : double :=
  match sp with
  | Atlas => rho_s
  | Projected => dlit F 7 (-1)
  end.

(** Lines 199-214 and 328-335. *)
Definition epilogue (sp : space) (dump : bool) (charts : Z) (open : double)
    : log double :=
  match sp with
  | Atlas =>
      [Cout (Str "Atlas created "); Call (GetChartCount charts);
       Cout (Int charts); Cout (Str (" charts." ++ nl))]
      ++ (if dump then
            [FOpen "atlas.ply"; Call (DumpMesh "atlas.ply");
             FClose "atlas.ply";
             FOpen "graph.ply"; Call GetPlannerData; Call ToBoostGraph;
             Call (DumpGraph Atlas "graph.ply"); FClose "graph.ply";
             Call (EstimateFrontierPercent open);
             Cout (Dbl open); Cout (Str ("% open." ++ nl))]
          else [])
  | Projected =>
      if dump then
        [FOpen "graph.ply"; Call GetPlannerData; Call ToBoostGraph;
         Call (DumpGraph Projected "graph.ply"); FClose "graph.ply"]
      else []
  end.

(** The arguments that pass the checks of lines 50-62. *)
Definition parsed (args : list string) (a1 a2 a3 a4 : string) (verbose : Z)
    : Prop :=
  (args = [a1; a2; a3; a4] /\ verbose = 0) \/
  (args = [a1; a2; a3; a4; "-v"%string] /\ verbose = 1).

(** The modes that lines 64-68 know. *)
Definition mode_of (a4 : string) (sp : space) : Prop :=
  (a4 = "-a"%string /\ sp = Atlas) \/ (a4 = "-p"%string /\ sp = Projected).

(** What the library answered up to the construction of the planner. *)
Record answers : Type := {
  ans_x : Vec double;
  ans_y : Vec double;
  ans_space : pointer;
  ans_start : pointer;
  ans_goal : pointer;
  ans_dim : Z;
  ans_rho_s : double;
  ans_planner : pointer
}.

(** From [parseProblem] to [parsePlanner]. *)
Definition prefix (sp : space) (a1 a2 : string) (n : answers) : log double :=
  [Call (ParseProblem a1 (dofZ F 0) (ans_x n) (ans_y n));
   Call (NewStateSpace sp (ans_space n))]
  ++ setup_log sp (ans_x n) (ans_y n) (ans_start n) (ans_goal n)
       (ans_dim n) (ans_rho_s n)
  ++ [Call (ParsePlanner a2 (range sp (ans_rho_s n)) (ans_planner n))].

(** The eight ways a run can go. *)
Inductive run_shows (progname : string) (args : list string)
    : result Z -> log double -> Prop :=
| shows_bad_count :
    length args <> 4%nat -> length args <> 5%nat ->
    run_shows progname args (Stop (Exited 0)) (usage_log progname)
| shows_bad_flag a1 a2 a3 a4 a5 :
    args = [a1; a2; a3; a4; a5] -> a5 <> "-v"%string ->
    run_shows progname args (Stop (Exited 0)) (usage_log progname)
| shows_no_mode a1 a2 a3 a4 verbose x y :
    parsed args a1 a2 a3 a4 verbose ->
    a4 <> "-a"%string -> a4 <> "-p"%string ->
    run_shows progname args (Ok 0) [Call (ParseProblem a1 (dofZ F 0) x y)]
| shows_no_space a1 a2 a3 a4 verbose sp x y :
    parsed args a1 a2 a3 a4 verbose -> mode_of a4 sp ->
    run_shows progname args (Stop (Exited 0))
      ([Call (ParseProblem a1 (dofZ F 0) x y); Call (NewStateSpace sp nullptr)]
       ++ usage_log progname)
| shows_no_planner a1 a2 a3 a4 verbose sp n :
    parsed args a1 a2 a3 a4 verbose -> mode_of a4 sp ->
    is_null (ans_space n) = false -> ans_planner n = nullptr ->
    run_shows progname args (Stop (Exited 0))
      (prefix sp a1 a2 n ++ usage_log progname)
| shows_bad_limit a1 a2 a3 a4 verbose sp n :
    parsed args a1 a2 a3 a4 verbose -> mode_of a4 sp ->
    is_null (ans_space n) = false -> is_null (ans_planner n) = false ->
    dle F (atof L a3) (dofZ F 0) = true ->
    run_shows progname args (Stop (Exited 0))
      (prefix sp a1 a2 n ++ [Call SetPlanner; Call Setup]
       ++ usage_log progname)
| shows_stopped a1 a2 a3 a4 verbose sp n s l' :
    parsed args a1 a2 a3 a4 verbose -> mode_of a4 sp ->
    is_null (ans_space n) = false -> is_null (ans_planner n) = false ->
    dle F (atof L a3) (dofZ F 0) = false ->
    plan_shows sp (dumps (ans_x n) verbose) (atof L a3)
      (prefix sp a1 a2 n ++ [Call SetPlanner; Call Setup]) (Stop s) l' ->
    run_shows progname args (Stop s) l'
| shows_planned a1 a2 a3 a4 verbose sp n l' charts open :
    parsed args a1 a2 a3 a4 verbose -> mode_of a4 sp ->
    is_null (ans_space n) = false -> is_null (ans_planner n) = false ->
    dle F (atof L a3) (dofZ F 0) = false ->
    plan_shows sp (dumps (ans_x n) verbose) (atof L a3)
      (prefix sp a1 a2 n ++ [Call SetPlanner; Call Setup]) (Ok tt) l' ->
    run_shows progname args (Ok 0)
      (l' ++ epilogue sp (dumps (ans_x n) verbose) charts open).

Lemma usage_sat {A B : Type} (progname : string) (k : A -> @M double B) l
    (Q : result B -> log double -> Prop) :
  Q (Stop (Exited 0)) (l ++ usage_log progname) ->
  sat (bind (usage progname) k) l Q.
Proof.
  intros H. unfold usage, cout, call_.
  repeat (apply sat_assoc, sat_then_emit).
  apply sat_then_halt. now rewrite <- !app_assoc.
Qed.

Lemma plan_sat sp x verbose limit l :
  sat (plan F L sp x verbose limit) l
    (plan_shows sp (dumps x verbose) limit l).
Proof.
  unfold plan.
  change ((rows x =? 3) && negb (verbose =? 0)) with (dumps x verbose).
  apply sat_then_call. intros t0. apply sat_then_call. intros stat.
  destruct (status_bool stat) eqn:Hstat.
  - apply sat_assoc, sat_then_call. intros t1.
    fold (seconds t0 t1).
    assert (Hpath :
      forall waypoints l0,
        l0 = l ++ solution_log sp (dumps x verbose) limit t0 stat t1 waypoints ->
        sat (interpolate F L sp waypoints) l0
            (fun r l' => match r with
                         | Ok len =>
                             forall found,
                               plan_shows sp (dumps x verbose) limit l (Ok tt)
                                 (l' ++ report stat len (seconds t0 t1)
                                     ++ planner_data found)
                         | Stop s =>
                             plan_shows sp (dumps x verbose) limit l (Stop s) l'
                         end)).
    { intros waypoints l0 ->.
      eapply sat_weaken; [apply interpolate_sat |].
      intros [len | s] l' H.
      - intros found. now apply (plan_solution _ _ _ _ t0 stat t1 waypoints).
      - now apply (plan_stopped _ _ _ _ t0 stat t1 waypoints). }
    unfold solution_log, report, planner_data, approximate in Hpath.
    destruct (dumps x verbose); wp;
      (apply sat_bind; eapply sat_weaken;
       [apply Hpath; now rewrite <- !app_assoc |]);
      (intros [len | s] l' H; [| exact H]);
      destruct (status_eqb stat APPROXIMATE_SOLUTION); wp;
      match goal with found : bool |- _ => destruct found end; wp;
      rewrite <- !app_assoc;
      first [ match goal with value : string |- _ => exact (H (Some value)) end
            | exact (H None) ].
  - wp. match goal with found : bool |- _ => destruct found end; wp;
      rewrite <- !app_assoc;
      first [ match goal with value : string |- _ =>
                exact (plan_no_solution _ _ _ _ t0 stat (Some value) Hstat)
              end
            | exact (plan_no_solution _ _ _ _ t0 stat None Hstat) ].
Qed.

Lemma args_cases (args : list string) :
  (length args <> 4%nat /\ length args <> 5%nat) \/
  (exists a1 a2 a3 a4, args = [a1; a2; a3; a4]) \/
  (exists a1 a2 a3 a4 a5, args = [a1; a2; a3; a4; a5]).
Proof.
  destruct args as [| a1 [| a2 [| a3 [| a4 [| a5 [| a6 rest]]]]]];
    simpl; try (left; split; discriminate).
  - right. left. now exists a1, a2, a3, a4.
  - right. right. now exists a1, a2, a3, a4, a5.
Qed.

Lemma run_shows_log progname args r l l' :
  run_shows progname args r l -> l = l' -> run_shows progname args r l'.
Proof. now intros H <-. Qed.

(** The two branches, from the construction of the state space on. *)
Lemma mode_sat progname args a1 a2 a3 a4 verbose sp x y :
  parsed args a1 a2 a3 a4 verbose -> mode_of a4 sp ->
  sat (match sp with
       | Atlas => atlas_mode F L (progname :: args) x y verbose
       | Projected => projected_mode F L (progname :: args) x y verbose
       end ;;; ret 0)
      [Call (ParseProblem a1 (dofZ F 0) x y)]
      (run_shows progname args).
Proof.
  intros Hargs Hmode.
  assert (Hargv : exists tail, progname :: args
                               = progname :: a1 :: a2 :: a3 :: a4 :: tail).
  { destruct Hargs as [[-> _] | [-> _]]; eauto. }
  destruct Hargv as [tail Hargv]. rewrite Hargv.
  destruct sp; [unfold atlas_mode | unfold projected_mode].
  - wp0. apply sat_then_call. intros [| p].
    + simpl is_null. wp0. apply usage_sat.
      now apply (shows_no_space _ _ a1 a2 a3 a4 verbose Atlas x y).
    + simpl is_null. wp0.
      apply sat_then_call. intros c1. wp0.
      apply sat_then_call. intros c2. wp0.
      apply sat_then_call. intros dim. wp0.
      apply sat_then_call. intros rho. wp0.
      apply sat_then_call. intros q. wp0.
      set (n := {| ans_x := x; ans_y := y; ans_space := addr p;
                   ans_start := c1; ans_goal := c2; ans_dim := dim;
                   ans_rho_s := rho; ans_planner := q |}).
      destruct q as [| q]; simpl is_null.
      * wp0. apply usage_sat.
        now apply (shows_no_planner _ _ a1 a2 a3 a4 verbose Atlas n).
      * wp0.
        destruct (dle F (atof L a3) (dofZ F 0)) eqn:Hlimit.
        -- wp0. apply usage_sat.
           now apply (shows_bad_limit _ _ a1 a2 a3 a4 verbose Atlas n).
        -- wp0. apply sat_bind.
           eapply sat_weaken; [apply plan_sat |].
           intros [[] | s] l' H.
           ++ wp0. apply sat_then_call. intros charts. wp0.
              destruct (dumps x verbose) eqn:Hdump.
              ** change ((rows x =? 3) && negb (verbose =? 0))
                   with (dumps x verbose).
                 rewrite Hdump. wp0.
                 apply sat_then_call. intros open. wp0.
                 eapply run_shows_log;
                   [apply (shows_planned _ _ a1 a2 a3 a4 verbose Atlas n l'
                             charts open);
                    try assumption; try reflexivity;
                    simpl ans_x; rewrite Hdump; exact H |].
                 simpl ans_x. rewrite Hdump, <- !app_assoc. reflexivity.
              ** change ((rows x =? 3) && negb (verbose =? 0))
                   with (dumps x verbose).
                 rewrite Hdump. wp0.
                 eapply run_shows_log;
                   [apply (shows_planned _ _ a1 a2 a3 a4 verbose Atlas n l'
                             charts (dofZ F 0));
                    try assumption; try reflexivity;
                    simpl ans_x; rewrite Hdump; exact H |].
                 simpl ans_x. rewrite Hdump, <- !app_assoc. reflexivity.
           ++ now apply (shows_stopped _ _ a1 a2 a3 a4 verbose Atlas n s l').
  - wp0. apply sat_then_call. intros [| p].
    + simpl is_null. wp0. apply usage_sat.
      now apply (shows_no_space _ _ a1 a2 a3 a4 verbose Projected x y).
    + simpl is_null. wp0.
      apply sat_then_call. intros dim. wp0.
      apply sat_then_call. intros q. wp0.
      set (n := {| ans_x := x; ans_y := y; ans_space := addr p;
                   ans_start := nullptr; ans_goal := nullptr; ans_dim := dim;
                   ans_rho_s := dofZ F 0; ans_planner := q |}).
      destruct q as [| q]; simpl is_null.
      * wp0. apply usage_sat.
        now apply (shows_no_planner _ _ a1 a2 a3 a4 verbose Projected n).
      * wp0.
        destruct (dle F (atof L a3) (dofZ F 0)) eqn:Hlimit.
        -- wp0. apply usage_sat.
           now apply (shows_bad_limit _ _ a1 a2 a3 a4 verbose Projected n).
        -- wp0. apply sat_bind.
           eapply sat_weaken; [apply plan_sat |].
           intros [[] | s] l' H.
           ++ change ((rows x =? 3) && negb (verbose =? 0))
                with (dumps x verbose).
              destruct (dumps x verbose) eqn:Hdump; wp0;
                (eapply run_shows_log;
                 [apply (shows_planned _ _ a1 a2 a3 a4 verbose Projected n l'
                           0 (dofZ F 0));
                  try assumption; try reflexivity;
                  simpl ans_x; rewrite Hdump; exact H |]);
                simpl ans_x; rewrite Hdump, <- ?app_assoc;
                try reflexivity.
              now rewrite app_nil_r.
           ++ now apply (shows_stopped _ _ a1 a2 a3 a4 verbose Projected n s l').
Qed.

(** Every run goes one of the eight ways. *)
Lemma run_sound progname args :
  run_shows progname args (fst (run F L progname args))
    (snd (run F L progname args)).
Proof.
  change (sat (main F L progname args) [] (run_shows progname args)).
  unfold main. cbv zeta.
  destruct (args_cases args)
    as [[H4 H5] | [(a1 & a2 & a3 & a4 & ->) | (a1 & a2 & a3 & a4 & a5 & ->)]].
  - assert (E5 : (Z.of_nat (length (progname :: args)) =? 5) = false)
      by (apply Z.eqb_neq; simpl length; lia).
    assert (E6 : (Z.of_nat (length (progname :: args)) =? 6) = false)
      by (apply Z.eqb_neq; simpl length; lia).
    rewrite E5, E6. simpl negb. simpl andb. wp0. apply usage_sat.
    now apply shows_bad_count.
  - change (Z.of_nat (length [progname; a1; a2; a3; a4])) with 5.
    change (5 =? 5) with true. change (5 =? 6) with false.
    simpl negb. simpl andb. wp0.
    rewrite !strcmp_eqb.
    assert (Hargs : parsed [a1; a2; a3; a4] a1 a2 a3 a4 0) by (left; now split).
    destruct (String.eqb_spec "-a" a4) as [<- | Ha].
    + change (1 =? 1) with true. cbv iota.
      apply sat_then_call. intros [x y]. simpl fst. simpl snd.
      apply (mode_sat progname _ _ _ _ _ 0 Atlas x y Hargs).
      left. now split.
    + destruct (String.eqb_spec "-p" a4) as [<- | Hp].
      * change (2 =? 1) with false. change (2 =? 2) with true. cbv iota.
        apply sat_then_call. intros [x y]. simpl fst. simpl snd.
        apply (mode_sat progname _ _ _ _ _ 0 Projected x y Hargs).
        right. now split.
      * change (0 =? 1) with false. change (0 =? 2) with false. cbv iota.
        apply sat_then_call. intros [x y]. simpl fst. simpl snd. wp0.
        apply (shows_no_mode _ _ a1 a2 a3 a4 0 x y Hargs); congruence.
  - change (Z.of_nat (length [progname; a1; a2; a3; a4; a5])) with 6.
    change (6 =? 5) with false. change (6 =? 6) with true.
    simpl negb. simpl andb. wp0.
    rewrite strcmp_eqb.
    destruct (String.eqb_spec a5 "-v") as [-> | Hv]; simpl negb.
    2: { wp0. apply usage_sat. now apply (shows_bad_flag _ _ a1 a2 a3 a4 a5). }
    wp0. rewrite !strcmp_eqb.
    assert (Hargs : parsed [a1; a2; a3; a4; "-v"%string] a1 a2 a3 a4 1)
      by (right; now split).
    destruct (String.eqb_spec "-a" a4) as [<- | Ha].
    + change (1 =? 1) with true. cbv iota.
      apply sat_then_call. intros [x y]. simpl fst. simpl snd.
      apply (mode_sat progname _ _ _ _ _ 1 Atlas x y Hargs).
      left. now split.
    + destruct (String.eqb_spec "-p" a4) as [<- | Hp].
      * change (2 =? 1) with false. change (2 =? 2) with true. cbv iota.
        apply sat_then_call. intros [x y]. simpl fst. simpl snd.
        apply (mode_sat progname _ _ _ _ _ 1 Projected x y Hargs).
        right. now split.
      * change (0 =? 1) with false. change (0 =? 2) with false. cbv iota.
        apply sat_then_call. intros [x y]. simpl fst. simpl snd. wp0.
        apply (shows_no_mode _ _ a1 a2 a3 a4 1 x y Hargs); congruence.
Qed.

Lemma run_cases progname args r l :
  run F L progname args = (r, l) -> run_shows progname args r l.
Proof.
  intros H. pose proof (run_sound progname args) as S.
  now rewrite H in S.
Qed.

(** What follows "Approx goal distance". *)
Definition goal_distance (found : option string) : list (item double) :=
  match found with
  | Some value => [Str "Approx goal distance: "; Str value; Str nl]
  | None => []
  end.

(** What [plan] printed after a solution of length [len]. *)
Definition printed_report (stat : PlannerStatus) (len time : double)
    : list (item double) :=
  (if status_eqb stat APPROXIMATE_SOLUTION then [approximate] else [])
  ++ [Str "Length: "; Dbl len; Str nl;
      Str "Took "; Dbl time; Str (" seconds." ++ nl)].

(** What the part of the log written by [plan] shows. *)
Definition plan_facts (dump : bool) (limit : double) (r : result unit)
    (ext : log double) : Prop :=
  exists stat,
    solves ext = [(limit, stat)] /\
    spaces ext = [] /\
    planners ext = [] /\
    usages ext = [] /\
    file_content "anim.txt" ext = lines (map snd (views ext)) /\
    opened ext
    = (if status_bool stat then
         (if dump then ["path.ply"%string] else []) ++ ["anim.txt"%string]
       else []) /\
    if status_bool stat then
      match r with
      | Ok _ =>
          exists time found waypoints before body after,
            couts ext
            = printed_report stat (total F (dofZ F 0) body) time
              ++ goal_distance found /\
            paths ext = [waypoints] /\ waypoints <> [] /\
            ext = before ++ FOpen "anim.txt" :: body
                         ++ FClose "anim.txt" :: after /\
            traversals before = [] /\ traversals after = [] /\
            distances before = [] /\ distances after = [] /\
            file_content "anim.txt" before = [] /\
            file_content "anim.txt" after = [] /\
            segments_of F (firstn (Z.to_nat (turns waypoints))
                             (combine waypoints (tl waypoints))) body
      | Stop s =>
          couts ext = [] /\
          ((s = Undefined (WaypointOutOfBounds 0) /\ paths ext = [[]]) \/
           (s = Undefined EmptyStateList /\
            exists from to, In (from, to, []) (traversals ext)))
      end
    else
      r = Ok tt /\ paths ext = [] /\
      exists found, couts ext = no_solution :: goal_distance found.

Lemma solution_log_obs sp dump limit t0 stat t1 waypoints :
  solves (solution_log sp dump limit t0 stat t1 waypoints) = [(limit, stat)] /\
  spaces (solution_log sp dump limit t0 stat t1 waypoints) = [] /\
  planners (solution_log sp dump limit t0 stat t1 waypoints) = [] /\
  usages (solution_log sp dump limit t0 stat t1 waypoints) = [] /\
  file_content "anim.txt" (solution_log sp dump limit t0 stat t1 waypoints) = [] /\
  views (solution_log sp dump limit t0 stat t1 waypoints) = [] /\
  opened (solution_log sp dump limit t0 stat t1 waypoints)
  = (if dump then ["path.ply"%string] else []) /\
  couts (solution_log sp dump limit t0 stat t1 waypoints) = [] /\
  paths (solution_log sp dump limit t0 stat t1 waypoints) = [waypoints] /\
  traversals (solution_log sp dump limit t0 stat t1 waypoints) = [] /\
  distances (solution_log sp dump limit t0 stat t1 waypoints) = [].
Proof. destruct dump; repeat split. Qed.

Lemma report_obs stat len time :
  solves (report stat len time) = [] /\
  spaces (report stat len time) = [] /\
  planners (report stat len time) = [] /\
  usages (report stat len time) = [] /\
  file_content "anim.txt" (report stat len time) = [] /\
  views (report stat len time) = [] /\
  opened (report stat len time) = [] /\
  couts (report stat len time) = printed_report stat len time /\
  paths (report stat len time) = [] /\
  traversals (report stat len time) = [] /\
  distances (report stat len time) = [].
Proof.
  unfold report, printed_report.
  destruct (status_eqb stat APPROXIMATE_SOLUTION); repeat split.
Qed.

Lemma planner_data_obs found :
  solves (planner_data found) = [] /\
  spaces (planner_data found) = [] /\
  planners (planner_data found) = [] /\
  usages (planner_data found) = [] /\
  file_content "anim.txt" (planner_data found) = [] /\
  views (planner_data found) = [] /\
  opened (planner_data found) = [] /\
  couts (planner_data found) = goal_distance found /\
  paths (planner_data found) = [] /\
  traversals (planner_data found) = [] /\
  distances (planner_data found) = [].
Proof. destruct found; repeat split. Qed.

Lemma plan_shows_facts sp dump limit l r l' :
  plan_shows sp dump limit l r l' ->
  exists ext, l' = l ++ ext /\ plan_facts dump limit r ext.
Proof.
  intros H. destruct H as [t0 stat found Hs | t0 stat t1 ws s l' Hs H
                           | t0 stat t1 ws len l' found Hs H].
  - eexists. split; [reflexivity |]. exists stat. rewrite Hs.
    destruct found as [value |]; repeat split; auto;
      [now exists (Some value) | now exists None].
  - destruct (solution_log_obs sp dump limit t0 stat t1 ws)
      as (S1 & S2 & S3 & S4 & S5 & S6 & S7 & S8 & S9 & S10 & S11).
    destruct s as [code | [i | i | i |] |]; try contradiction.
    + destruct H as (-> & -> & ->).
      exists (solution_log sp dump limit t0 stat t1 [] ++ [FOpen "anim.txt"]).
      split; [now rewrite <- app_assoc |].
      exists stat. rewrite Hs.
      rewrite solves_app, spaces_app, planners_app, usages_app,
        file_content_app, views_app, opened_app, couts_app, paths_app,
        S1, S2, S3, S4, S5, S6, S7, S8, S9.
      repeat split. now left.
    + destruct H as (body & -> & [Hf Hk] & from & to & Hin).
      destruct (loop_events_quiet body Hk)
        as (Hc & Ho & Hv & Hp & Hq & Hw & Hu & _).
      exists (solution_log sp dump limit t0 stat t1 ws
              ++ FOpen "anim.txt" :: body).
      split; [now rewrite <- app_assoc |].
      exists stat. rewrite Hs.
      change (FOpen "anim.txt" :: body) with ([FOpen "anim.txt"] ++ body).
      rewrite !solves_app, !spaces_app, !planners_app, !usages_app,
        !file_content_app, !views_app, !opened_app, !couts_app,
        !traversals_app,
        S1, S2, S3, S4, S5, S6, S7, S8, S10, Hc, Ho, Hv, Hp, Hq, Hu.
      repeat split; auto. right. split; [reflexivity |]. now exists from, to.
  - destruct (solution_log_obs sp dump limit t0 stat t1 ws)
      as (S1 & S2 & S3 & S4 & S5 & S6 & S7 & S8 & S9 & S10 & S11).
    destruct H as (body & -> & [Hf Hk] & Hne & -> & Ht & Hn & Hparts).
    destruct (loop_events_quiet body Hk)
      as (Hc & Ho & Hv & Hp & Hq & Hw & Hu & _).
    set (len := total F (dofZ F 0) body).
    destruct (report_obs stat len (seconds t0 t1))
      as (R1 & R2 & R3 & R4 & R5 & R6 & R7 & R8 & R9 & R10 & R11).
    destruct (planner_data_obs found)
      as (D1 & D2 & D3 & D4 & D5 & D6 & D7 & D8 & D9 & D10 & D11).
    set (after := report stat len (seconds t0 t1) ++ planner_data found).
    exists (solution_log sp dump limit t0 stat t1 ws
            ++ [FOpen "anim.txt"] ++ body ++ [FClose "anim.txt"] ++ after).
    split.
    { unfold after.
      change (FOpen "anim.txt" :: body ++ [FClose "anim.txt"])
        with ([FOpen "anim.txt"] ++ body ++ [FClose "anim.txt"]).
      now rewrite <- !app_assoc. }
    exists stat. rewrite Hs. unfold after.
    rewrite !solves_app, !spaces_app, !planners_app, !usages_app,
      !file_content_app, !views_app, !opened_app,
      S1, S2, S3, S4, S5, S6, S7, R1, R2, R3, R4, R5, R6, R7,
      D1, D2, D3, D4, D5, D6, D7, Ho, Hv, Hp, Hq, Hu, Hf.
    Opaque solution_log report planner_data.
    simpl. rewrite !app_nil_r.
    repeat split; auto.
    exists (seconds t0 t1), found, ws,
      (solution_log sp dump limit t0 stat t1 ws), body,
      (report stat len (seconds t0 t1) ++ planner_data found).
    change (FOpen "anim.txt" :: body ++ FClose "anim.txt"
              :: report stat len (seconds t0 t1) ++ planner_data found)
      with ([FOpen "anim.txt"] ++ body ++ [FClose "anim.txt"]
              ++ report stat len (seconds t0 t1) ++ planner_data found).
    rewrite !couts_app, !paths_app, !traversals_app, !distances_app,
      !file_content_app,
      S5, S8, S9, S10, S11, R5, R8, R9, R10, R11, D5, D8, D9, D10, D11, Hc, Hw.
    simpl. now repeat split.
    Transparent solution_log report planner_data.
Qed.
End Shape.

(** ** The claims *)

Section Claims.
Context {double : Type} (F : DoubleOps double) (L : Library double).

Lemma usage_log_obs (progname : string) :
  couts (usage_log progname)
  = [Str "Usage: "; Str progname;
     Str (" <problem> <planner> <timelimit> <-c?>" ++ nl) : item double] /\
  opened (@usage_log double progname) = [] /\
  solves (@usage_log double progname) = [] /\
  spaces (@usage_log double progname) = [] /\
  planners (@usage_log double progname) = [] /\
  views (@usage_log double progname) = [] /\
  usages (@usage_log double progname) = [tt] /\
  forall f, file_content f (@usage_log double progname) = [].
Proof. repeat split. Qed.

Lemma prefix_obs sp a1 a2 n :
  couts (prefix F sp a1 a2 n) = [] /\
  opened (prefix F sp a1 a2 n) = [] /\
  solves (prefix F sp a1 a2 n) = [] /\
  spaces (prefix F sp a1 a2 n) = [(sp, ans_space n)] /\
  planners (prefix F sp a1 a2 n) = [(a2, ans_planner n)] /\
  views (prefix F sp a1 a2 n) = [] /\
  distances (prefix F sp a1 a2 n) = [] /\
  usages (prefix F sp a1 a2 n) = [] /\
  (forall f, file_content f (prefix F sp a1 a2 n) = []) /\
  paths (prefix F sp a1 a2 n) = [] /\
  traversals (prefix F sp a1 a2 n) = [].
Proof. destruct sp; repeat split. Qed.

(** What lines 199-214 and 328-335 print. *)
Definition closing (sp : space) (dump : bool) (charts : Z) (open : double)
    : list (item double) :=
  match sp with
  | Atlas =>
      [Str "Atlas created "; Int charts; Str (" charts." ++ nl)]
      ++ (if dump then [Dbl open; Str ("% open." ++ nl)] else [])
  | Projected => []
  end.

Lemma epilogue_obs sp dump charts open :
  couts (epilogue sp dump charts open) = closing sp dump charts open /\
  opened (epilogue sp dump charts open)
  = (if dump then
       match sp with
       | Atlas => ["atlas.ply"; "graph.ply"]
       | Projected => ["graph.ply"]
       end%string
     else []) /\
  solves (epilogue sp dump charts open) = [] /\
  spaces (epilogue sp dump charts open) = [] /\
  planners (epilogue sp dump charts open) = [] /\
  views (epilogue sp dump charts open) = [] /\
  distances (epilogue sp dump charts open) = [] /\
  usages (epilogue sp dump charts open) = [] /\
  (forall f, file_content f (epilogue sp dump charts open) = []) /\
  paths (epilogue sp dump charts open) = [] /\
  traversals (epilogue sp dump charts open) = [].
Proof. destruct sp, dump; repeat split. Qed.

Lemma parsed_length args a1 a2 a3 a4 verbose :
  parsed args a1 a2 a3 a4 verbose ->
  (length args = 4%nat \/ length args = 5%nat) /\
  (length args = 5%nat -> nth_error args 4 = Some "-v"%string) /\
  exists tail, args = a1 :: a2 :: a3 :: a4 :: tail.
Proof.
  intros [[-> _] | [-> _]]; simpl; repeat split; eauto; discriminate.
Qed.

(** The five ways to [usage]. *)
Lemma usage_exit_intro {A : Type} progname (pre : log double) :
  @usage_exit double A progname (Stop (Exited 0), pre ++ usage_log progname).
Proof. split; [reflexivity | now exists pre]. Qed.

(** The eight ways of [run_shows], with the names the proofs below use. *)
Ltac run_analysis Hrun :=
  let S := fresh "S" in
  pose proof (run_cases F L _ _ _ _ Hrun) as S;
  destruct S as [H4 H5 | a1 a2 a3 a4 a5 Hargs Hv
                 | a1 a2 a3 a4 verbose x y Hargs Ha Hp
                 | a1 a2 a3 a4 verbose sp x y Hargs Hmode
                 | a1 a2 a3 a4 verbose sp n Hargs Hmode Hs Hq
                 | a1 a2 a3 a4 verbose sp n Hargs Hmode Hs Hq Hlim
                 | a1 a2 a3 a4 verbose sp n s l' Hargs Hmode Hs Hq Hlim Hplan
                 | a1 a2 a3 a4 verbose sp n l' charts open
                     Hargs Hmode Hs Hq Hlim Hplan].

(** The part of the log that [plan] wrote, and what the parts around it show. *)
Ltac plan_analysis Hplan :=
  lazymatch type of Hplan with
  | plan_shows _ _ _ _ _ (prefix _ ?sp ?a1 ?a2 ?n ++ _) _ _ =>
      destruct (prefix_obs sp a1 a2 n)
        as (Xcouts & Xopened & Xsolves & Xspaces & Xplanners & Xviews & Xdist
            & Xusages & Xfile & Xpaths & Xtrav)
  end;
  destruct (plan_shows_facts F L _ _ _ _ _ _ Hplan)
    as (ext & -> & stat' & Psolves & Pspaces & Pplanners & Pusages & Pfile
        & Popened & Prest).

Ltac obs_app :=
  rewrite ?couts_app, ?opened_app, ?solves_app, ?spaces_app, ?planners_app,
    ?paths_app, ?usages_app, ?file_content_app, ?views_app, ?distances_app,
    ?traversals_app, ?equalities_app.

Ltac obs_app_in H :=
  rewrite ?couts_app, ?opened_app, ?solves_app, ?spaces_app, ?planners_app,
    ?paths_app, ?usages_app, ?file_content_app, ?views_app, ?distances_app,
    ?traversals_app, ?equalities_app in H.

(** C4.  A run whose argument count is neither 5 nor 6, or whose sixth
    argument is not "-v", or in which the construction of the state space
    or of the planner gave a null pointer, prints the usage message and
    ends in [exit(0)]. *)
Theorem usage_on_bad_arguments_or_failed_construction
    (progname : string) (args : list string) :
  (length (progname :: args) <> 5%nat /\ length (progname :: args) <> 6%nat) \/
  (length (progname :: args) = 6%nat /\
   nth_error (progname :: args) 5 <> Some "-v"%string) \/
  (exists sp, In (sp, nullptr) (spaces (snd (run F L progname args)))) \/
  (exists name, In (name, nullptr) (planners (snd (run F L progname args)))) ->
  usage_exit progname (run F L progname args).
Proof.
  intros H. destruct (run F L progname args) as [r l] eqn:Hrun. simpl in H.
  run_analysis Hrun.
  - apply (usage_exit_intro progname []).
  - apply (usage_exit_intro progname []).
  - exfalso. destruct (parsed_length _ _ _ _ _ _ Hargs) as (Hl & Hn & _).
    simpl in H. destruct H as [[? ?] | [[? ?] | [[? []] | [? []]]]].
    + destruct Hl; lia.
    + apply H0, Hn. lia.
  - apply (usage_exit_intro progname [_; _]).
  - apply usage_exit_intro.
  - rewrite app_assoc. apply usage_exit_intro.
  - exfalso. plan_analysis Hplan.
    destruct (parsed_length _ _ _ _ _ _ Hargs) as (Hl & Hn & _).
    obs_app_in H. rewrite Xspaces, Xplanners, Pspaces, Pplanners in H.
    simpl in H. destruct H as [[? ?] | [[? ?] | [[? [E | []]] | [? [E | []]]]]].
    + destruct Hl; lia.
    + apply H0, Hn. lia.
    + inversion E as [[E1 E2]]. now rewrite E2 in Hs.
    + inversion E as [[E1 E2]]. now rewrite E2 in Hq.
  - exfalso. plan_analysis Hplan.
    destruct (epilogue_obs sp (dumps (ans_x n) verbose) charts open)
      as (_ & _ & _ & Espaces & Eplanners & _).
    destruct (parsed_length _ _ _ _ _ _ Hargs) as (Hl & Hn & _).
    obs_app_in H.
    rewrite Xspaces, Xplanners, Pspaces, Pplanners, Espaces, Eplanners in H.
    simpl in H. destruct H as [[? ?] | [[? ?] | [[? [E | []]] | [? [E | []]]]]].
    + destruct Hl; lia.
    + apply H0, Hn. lia.
    + inversion E as [[E1 E2]]. now rewrite E2 in Hs.
    + inversion E as [[E1 E2]]. now rewrite E2 in Hq.
Qed.

(** C5.  With a mode the driver knows and a time limit that [atof] reads
    as at most 0, the run prints the usage message and ends in [exit(0)]
    without a call of the planner's [solve]. *)
Theorem usage_on_nonpositive_time_limit
    (progname problem planner timelimit mode : string) (tail : list string) :
  mode = "-a"%string \/ mode = "-p"%string ->
  dle F (atof L timelimit) (dofZ F 0) = true ->
  usage_exit progname
    (run F L progname (problem :: planner :: timelimit :: mode :: tail)) /\
  solves (snd (run F L progname (problem :: planner :: timelimit :: mode :: tail)))
  = [].
Proof.
  intros Hm Hle.
  destruct (run F L progname (problem :: planner :: timelimit :: mode :: tail))
    as [r l] eqn:Hrun.
  simpl snd. run_analysis Hrun.
  - split; [apply (usage_exit_intro progname []) | reflexivity].
  - split; [apply (usage_exit_intro progname []) | reflexivity].
  - exfalso. destruct (parsed_length _ _ _ _ _ _ Hargs) as (_ & _ & t & E).
    inversion E; subst. destruct Hm; contradiction.
  - split; [apply (usage_exit_intro progname [_; _]) | reflexivity].
  - destruct (prefix_obs sp a1 a2 n) as (_ & _ & E & _).
    split; [apply usage_exit_intro |]. now rewrite solves_app, E.
  - destruct (prefix_obs sp a1 a2 n) as (_ & _ & E & _).
    split; [rewrite app_assoc; apply usage_exit_intro |].
    now rewrite !solves_app, E.
  - exfalso. destruct (parsed_length _ _ _ _ _ _ Hargs) as (_ & _ & t & E).
    inversion E; subst. congruence.
  - exfalso. destruct (parsed_length _ _ _ _ _ _ Hargs) as (_ & _ & t & E).
    inversion E; subst. congruence.
Qed.

(** The run of an invocation whose mode is neither "-a" nor "-p". *)
Lemma run_without_mode progname args a1 a2 a3 a4 verbose :
  parsed args a1 a2 a3 a4 verbose ->
  a4 <> "-a"%string -> a4 <> "-p"%string ->
  run F L progname args
  = (Ok 0, [Call (ParseProblem a1 (dofZ F 0)
                    (fst (parseProblem L [] a1 (dofZ F 0)))
                    (snd (parseProblem L [] a1 (dofZ F 0))))]).
Proof.
  intros Hargs Ha Hp.
  assert (Ea : (strcmp "-a" a4 =? 0) = false).
  { rewrite strcmp_eqb. apply String.eqb_neq. congruence. }
  assert (Ep : (strcmp "-p" a4 =? 0) = false).
  { rewrite strcmp_eqb. apply String.eqb_neq. congruence. }
  destruct Hargs as [[-> _] | [-> _]]; unfold run, main; cbv zeta.
  - change (Z.of_nat (length [progname; a1; a2; a3; a4])) with 5.
    unfold bind, when, index, call, ret. simpl. rewrite Ea, Ep. reflexivity.
  - change (Z.of_nat (length [progname; a1; a2; a3; a4; "-v"%string])) with 6.
    unfold bind, when, index, call, ret. simpl. rewrite Ea, Ep. reflexivity.
Qed.

(** C8.  With 5 arguments, or 6 of which the last is "-v", and a mode that
    is neither "-a" nor "-p", the run parses the problem and returns 0:
    the call of [parseProblem] is all the log holds, so nothing is
    planned, no file is created and nothing is printed. *)
Theorem silent_return_without_mode
    (progname : string) (args : list string)
    (problem planner timelimit mode : string) (verbose : Z) :
  parsed args problem planner timelimit mode verbose ->
  mode <> "-a"%string -> mode <> "-p"%string ->
  fst (run F L progname args) = Ok 0 /\
  snd (run F L progname args)
  = [Call (ParseProblem problem (dofZ F 0)
             (fst (parseProblem L [] problem (dofZ F 0)))
             (snd (parseProblem L [] problem (dofZ F 0))))] /\
  solves (snd (run F L progname args)) = [] /\
  opened (snd (run F L progname args)) = [] /\
  couts (snd (run F L progname args)) = [] /\
  usages (snd (run F L progname args)) = [].
Proof.
  intros Hargs Ha Hp.
  rewrite (run_without_mode _ _ _ _ _ _ _ Hargs Ha Hp).
  repeat split.
Qed.

(** C1, at the invocation [prog sphere RRT 1 -x]: the mode is neither "-a"
    nor "-p", and the run returns 0 without a call of [usage]. *)
Theorem unknown_mode_is_not_refused :
  fst (run F L "prog" ["sphere"; "RRT"; "1"; "-x"]%string) = Ok 0 /\
  usages (snd (run F L "prog" ["sphere"; "RRT"; "1"; "-x"]%string)) = [] /\
  ~ usage_exit "prog" (run F L "prog" ["sphere"; "RRT"; "1"; "-x"]%string).
Proof.
  rewrite (run_without_mode "prog" _ "sphere" "RRT" "1" "-x" 0);
    [| left; now split | discriminate | discriminate].
  repeat split. intros [H _]. discriminate H.
Qed.

(** What the driver printed in a run that went through [plan]. *)
Lemma planned_couts sp a1 a2 n (ext after : log double) :
  couts ((prefix F sp a1 a2 n ++ [Call SetPlanner; Call Setup]) ++ ext ++ after)
  = couts ext ++ couts after.
Proof.
  destruct (prefix_obs sp a1 a2 n) as (E & _).
  now rewrite !couts_app, E.
Qed.

Lemma planned_usages sp a1 a2 n (ext after : log double) :
  usages ((prefix F sp a1 a2 n ++ [Call SetPlanner; Call Setup]) ++ ext ++ after)
  = usages ext ++ usages after.
Proof.
  destruct (prefix_obs sp a1 a2 n) as (_ & _ & _ & _ & _ & _ & _ & E & _).
  now rewrite !usages_app, E.
Qed.

Lemma planned_solves sp a1 a2 n (ext after : log double) :
  solves ((prefix F sp a1 a2 n ++ [Call SetPlanner; Call Setup]) ++ ext ++ after)
  = solves ext ++ solves after.
Proof.
  destruct (prefix_obs sp a1 a2 n) as (_ & _ & E & _).
  now rewrite !solves_app, E.
Qed.

Lemma planned_opened sp a1 a2 n (ext after : log double) :
  opened ((prefix F sp a1 a2 n ++ [Call SetPlanner; Call Setup]) ++ ext ++ after)
  = opened ext ++ opened after.
Proof.
  destruct (prefix_obs sp a1 a2 n) as (_ & E & _).
  now rewrite !opened_app, E.
Qed.

(** C6.  When [solve] reports no solution the run prints "No solution
    found.", does not call [usage] and returns 0.  When it reports an
    approximate solution (and the run meets no undefined behaviour) the run
    prints "Solution is approximate." in front of the report that starts
    with "Length: "; an exact solution is reported without it. *)
Theorem no_solution_is_a_normal_outcome
    (progname : string) (args : list string)
    (limit : double) (stat : PlannerStatus) :
  In (limit, stat) (solves (snd (run F L progname args))) ->
  (status_bool stat = false ->
   fst (run F L progname args) = Ok 0 /\
   usages (snd (run F L progname args)) = [] /\
   exists found sp dump charts open,
     couts (snd (run F L progname args))
     = no_solution :: goal_distance found ++ closing sp dump charts open) /\
  (status_bool stat = true ->
   (forall u, fst (run F L progname args) <> Stop (Undefined u)) ->
   fst (run F L progname args) = Ok 0 /\
   usages (snd (run F L progname args)) = [] /\
   exists len time found sp dump charts open,
     couts (snd (run F L progname args))
     = (if status_eqb stat APPROXIMATE_SOLUTION then [approximate] else [])
       ++ [Str "Length: "; Dbl len; Str nl;
           Str "Took "; Dbl time; Str (" seconds." ++ nl)]
       ++ goal_distance found ++ closing sp dump charts open).
Proof.
  destruct (run F L progname args) as [r l] eqn:Hrun. simpl fst. simpl snd.
  intros Hin. run_analysis Hrun; try contradiction.
  - destruct (prefix_obs sp a1 a2 n) as (_ & _ & E & _).
    rewrite solves_app, E in Hin. contradiction.
  - destruct (prefix_obs sp a1 a2 n) as (_ & _ & E & _).
    rewrite !solves_app, E in Hin. contradiction.
  - plan_analysis Hplan.
    rewrite <- (app_nil_r ext), planned_solves, Psolves in Hin.
    destruct Hin as [Hin | []]. inversion Hin; subst stat'.
    split; intros Hstat; rewrite Hstat in Prest.
    + now destruct Prest.
    + intros Hub. destruct Prest as (_ & [[-> _] | [-> _]]);
        exfalso; eapply Hub; reflexivity.
  - plan_analysis Hplan.
    destruct (epilogue_obs sp (dumps (ans_x n) verbose) charts open)
      as (Ecouts & _ & Esolves & _ & _ & _ & _ & Eusages & _).
    rewrite <- app_assoc, planned_solves, Psolves, Esolves in Hin.
    destruct Hin as [Hin | []]. inversion Hin; subst stat'.
    rewrite <- app_assoc, planned_usages, planned_couts, Pusages, Eusages, Ecouts.
    split; intros Hstat; rewrite Hstat in Prest.
    + destruct Prest as (_ & _ & found & ->).
      repeat split. now exists found, sp, (dumps (ans_x n) verbose), charts, open.
    + intros _.
      destruct Prest as (time & found & ws & before & body & after & -> & _).
      repeat split.
      exists (total F (dofZ F 0) body), time, found, sp,
        (dumps (ans_x n) verbose), charts, open.
      unfold printed_report. now rewrite <- !app_assoc.
Qed.

Lemma planned_views sp a1 a2 n (ext after : log double) :
  views ((prefix F sp a1 a2 n ++ [Call SetPlanner; Call Setup]) ++ ext ++ after)
  = views ext ++ views after.
Proof.
  destruct (prefix_obs sp a1 a2 n) as (_ & _ & _ & _ & _ & E & _).
  now rewrite !views_app, E.
Qed.

Lemma planned_file f sp a1 a2 n (ext after : log double) :
  file_content f
    ((prefix F sp a1 a2 n ++ [Call SetPlanner; Call Setup]) ++ ext ++ after)
  = file_content f ext ++ file_content f after.
Proof.
  destruct (prefix_obs sp a1 a2 n) as (_ & _ & _ & _ & _ & _ & _ & _ & E & _).
  now rewrite !file_content_app, E.
Qed.

(** C2, amended.  [anim.txt] is created in the runs in which [solve]
    reported an exact or approximate solution, whatever the mode, the
    verbosity and the dimension, and in no other run; what a run sends to
    [anim.txt] is the vector views it took of states, one per line. *)
Theorem anim_written_when_solved (progname : string) (args : list string) :
  (In "anim.txt"%string (opened (snd (run F L progname args))) <->
   exists limit stat,
     In (limit, stat) (solves (snd (run F L progname args))) /\
     status_bool stat = true) /\
  file_content "anim.txt" (snd (run F L progname args))
  = lines (map snd (views (snd (run F L progname args)))).
Proof.
  destruct (run F L progname args) as [r l] eqn:Hrun. simpl snd.
  assert (Hnone : forall l0 : log double,
             opened l0 = [] -> solves l0 = [] -> views l0 = [] ->
             file_content "anim.txt" l0 = [] ->
             (In "anim.txt"%string (opened l0) <->
              exists limit stat,
                In (limit, stat) (solves l0) /\ status_bool stat = true) /\
             file_content "anim.txt" l0 = lines (map snd (views l0))).
  { intros l0 -> -> -> ->. repeat split; try contradiction.
    now intros (? & ? & [] & _). }
  run_analysis Hrun.
  - now apply Hnone.
  - now apply Hnone.
  - now apply Hnone.
  - now apply Hnone.
  - destruct (prefix_obs sp a1 a2 n) as (_ & Eo & Es & _ & _ & Ev & _ & _ & Ef & _).
    apply Hnone;
      rewrite ?opened_app, ?solves_app, ?views_app, ?file_content_app,
        ?Eo, ?Es, ?Ev, ?Ef; reflexivity.
  - destruct (prefix_obs sp a1 a2 n) as (_ & Eo & Es & _ & _ & Ev & _ & _ & Ef & _).
    apply Hnone;
      rewrite ?opened_app, ?solves_app, ?views_app, ?file_content_app,
        ?Eo, ?Es, ?Ev, ?Ef; reflexivity.
  - plan_analysis Hplan.
    rewrite <- (app_nil_r ext), planned_opened, planned_solves, planned_views,
      planned_file, Psolves, Popened, Pfile.
    simpl. rewrite !app_nil_r. split; [| reflexivity].
    destruct (status_bool stat') eqn:Hstat.
    + split; [intros _; exists (atof L a3), stat'; split; [now left | exact Hstat] |].
      intros _. apply in_or_app. right. now left.
    + split; [contradiction |].
      intros (lim & st & [E | []] & Hst). inversion E; subst st. congruence.
  - plan_analysis Hplan.
    destruct (epilogue_obs sp (dumps (ans_x n) verbose) charts open)
      as (_ & Eo & Es & _ & _ & Ev & _ & _ & Ef & _).
    rewrite <- app_assoc, planned_opened, planned_solves, planned_views,
      planned_file, Psolves, Popened, Pfile, Eo, Es, Ev, Ef.
    simpl. rewrite !app_nil_r. split; [| reflexivity].
    destruct (status_bool stat') eqn:Hstat.
    + split; [intros _; exists (atof L a3), stat'; split; [now left | exact Hstat] |].
      intros _. apply in_or_app. left. apply in_or_app. right. now left.
    + split.
      * intros Hin. exfalso. simpl in Hin.
        destruct (dumps (ans_x n) verbose), sp; simpl in Hin;
          intuition discriminate.
      * intros (lim & st & [E | []] & Hst). inversion E; subst st. congruence.
Qed.

Lemma prefix_problems sp a1 a2 n :
  problems (prefix F sp a1 a2 n) = [(ans_x n, ans_y n)].
Proof. now destruct sp. Qed.

(** C3, amended.  In a run with a mode the driver knows, "-v" and a
    problem of ambient dimension 3 that returns normally, [graph.ply] is
    created; [atlas.ply] is created exactly in the atlas mode "-a"; and
    [path.ply] is created exactly when [solve] reported an exact or
    approximate solution. *)
Theorem ply_files_of_a_verbose_run
    (progname problem planner timelimit mode : string) :
  mode = "-a"%string \/ mode = "-p"%string ->
  (forall x y,
      In (x, y)
         (problems
            (snd (run F L progname [problem; planner; timelimit; mode; "-v"%string]))) ->
      rows x = 3) ->
  fst (run F L progname [problem; planner; timelimit; mode; "-v"%string]) = Ok 0 ->
  In "graph.ply"%string
     (opened (snd (run F L progname [problem; planner; timelimit; mode; "-v"%string]))) /\
  (In "atlas.ply"%string
      (opened (snd (run F L progname [problem; planner; timelimit; mode; "-v"%string])))
   <-> mode = "-a"%string) /\
  (In "path.ply"%string
      (opened (snd (run F L progname [problem; planner; timelimit; mode; "-v"%string])))
   <-> exists limit stat,
       In (limit, stat)
          (solves (snd (run F L progname [problem; planner; timelimit; mode; "-v"%string])))
       /\ status_bool stat = true).
Proof.
  destruct (run F L progname [problem; planner; timelimit; mode; "-v"%string])
    as [r l] eqn:Hrun.
  simpl fst. simpl snd. intros Hknown Hdim Hr.
  run_analysis Hrun; try discriminate Hr.
  - destruct Hargs as [[E _] | [E _]]; inversion E; subst.
    destruct Hknown; contradiction.
  - plan_analysis Hplan.
    destruct (epilogue_obs sp (dumps (ans_x n) verbose) charts open)
      as (_ & Eo & Es & _).
    assert (Hdump : dumps (ans_x n) verbose = true).
    { destruct Hargs as [[E _] | [E ->]]; [discriminate E |].
      unfold dumps. rewrite (Hdim (ans_x n) (ans_y n)); [reflexivity |].
      rewrite <- app_assoc, !problems_app, prefix_problems. now left. }
    assert (Ha4 : a4 = mode).
    { destruct Hargs as [[E _] | [E _]]; now inversion E. }
    subst a4.
    rewrite <- app_assoc, planned_opened, planned_solves, Psolves, Popened,
      Eo, Es, Hdump.
    assert (Hpath : In "path.ply"%string
                      (if status_bool stat'
                       then ["path.ply"; "anim.txt"]%string else [])
                    <-> exists limit stat,
                        In (limit, stat) [(atof L a3, stat')] /\
                        status_bool stat = true).
    { destruct (status_bool stat') eqn:Hstat.
      - split; [| intros _; now left].
        intros _. exists (atof L a3), stat'. split; [now left | exact Hstat].
      - split; [contradiction |].
        intros (lim & st & [E | []] & Hst). inversion E; subst st. congruence. }
    destruct Hmode as [[-> ->] | [-> ->]];
      destruct (status_bool stat'); simpl in *;
      repeat split; intros; try tauto; try discriminate;
      try (apply Hpath; tauto);
      intuition (try discriminate; try congruence).
Qed.

(** The empty solution path: the bound of the loop wraps around and the
    first turn reads [waypoints[0]]. *)
Lemma interpolate_empty sp l :
  interpolate F L sp [] l
  = (Stop (Undefined (WaypointOutOfBounds 0)), l ++ [FOpen "anim.txt"]).
Proof. reflexivity. Qed.

(** C9.  The loop bound [waypoints.size() - 1] is computed in [size_t]:
    for the empty path it wraps around to [SIZE_MAX] and the first access,
    [waypoints[0]], is out of bounds; for every other path no access to
    [waypoints] is out of bounds.  So the accesses are all in bounds
    exactly when the path is not empty. *)
Theorem waypoint_accesses_in_bounds_iff_nonempty
    (sp : space) (waypoints : list pointer) (l : log double) :
  size_t (size (@nil pointer) - 1) = SIZE_MAX /\
  fst (interpolate F L sp [] l) = Stop (Undefined (WaypointOutOfBounds 0)) /\
  ((forall i, fst (interpolate F L sp waypoints l)
              <> Stop (Undefined (WaypointOutOfBounds i)))
   <-> waypoints <> []).
Proof.
  split; [reflexivity |]. split; [reflexivity |]. split.
  - intros H ->. now apply (H 0).
  - intros Hne i Hr. pose proof (interpolate_sat F L sp waypoints l) as S.
    unfold sat in S. rewrite Hr in S. simpl in S. now destruct S.
Qed.

(** What one turn of the loop wrote: the traversal from [from] to [to]
    gave [s0 :: rest], its ends were compared, and the states whose views
    went to [anim.txt], one per line, are [s0] alone when the ends are
    equal and [rest], that is [stateList[1]] to the last, when not. *)
Definition segment_written (from to : pointer) (ext : log double) : Prop :=
  exists s0 rest same,
    traversals ext = [(from, to, s0 :: rest)] /\
    equalities ext = [(s0, last rest s0, same)] /\
    map fst (views ext) = (if same : bool then [s0] else rest) /\
    file_content "anim.txt" ext = lines (map snd (views ext)).

(** What one turn of the loop measured: no distance when the ends of the
    traversal are equal, and otherwise the distances between the
    neighbours of [s0 :: rest], in order. *)
Definition segment_measured (from to : pointer) (ext : log double) : Prop :=
  exists s0 rest same,
    traversals ext = [(from, to, s0 :: rest)] /\
    equalities ext = [(s0, last rest s0, same)] /\
    map fst (distances ext)
    = (if same : bool then [] else combine (s0 :: rest) rest) /\
    (same = true -> forall len, total F len ext = len).

Lemma segment_ok_fits from to ext :
  segment_ok F from to ext ->
  (forall stateList, traversals ext = [(from, to, stateList)] -> fits stateList) ->
  segment_written from to ext /\ segment_measured from to ext.
Proof.
  intros (len & sl & Ht & Hf & _ & Hsl) Hfits.
  destruct sl as [| s0 rest]; [discriminate Hsl |].
  destruct Hsl as (same & He & _ & Hsame).
  pose proof (reach_fits _ (Hfits _ Ht)) as Hreach. simpl tl in Hreach.
  rewrite Hreach in Hsame.
  split; exists s0, rest, same; (split; [exact Ht |]); (split; [exact He |]).
  - split; [| exact Hf].
    destruct same; [apply Hsame |]. destruct Hsame as [-> _].
    apply firstn_all.
  - destruct same.
    + destruct Hsame as [_ Hd]. split; [now rewrite Hd |].
      intros _ len0. unfold total. now rewrite Hd.
    + destruct Hsame as [_ ->]. split; [| discriminate].
      apply firstn_all2. rewrite length_combine. simpl length. lia.
Qed.

Lemma traversals_concat (parts : list (log double)) ext t :
  In ext parts -> In t (traversals ext) -> In t (traversals (concat parts)).
Proof.
  induction parts as [| p parts IH]; [contradiction |].
  intros [-> | Hin] Ht; simpl; rewrite traversals_app; apply in_or_app.
  - now left.
  - right. now apply IH.
Qed.

Lemma Forall2_impl_in {A B : Type} (P Q : A -> B -> Prop) l1 l2 :
  Forall2 P l1 l2 ->
  (forall a b, In b l2 -> P a b -> Q a b) ->
  Forall2 Q l1 l2.
Proof.
  induction 1 as [| a b l1 l2 Hab _ IH]; intros H; constructor.
  - apply H; [now left | exact Hab].
  - apply IH. intros a' b' Hin. apply H. now right.
Qed.


Lemma turns_all (waypoints : list pointer) :
  waypoints <> [] -> fits waypoints ->
  firstn (Z.to_nat (turns waypoints)) (combine waypoints (tl waypoints))
  = combine waypoints (tl waypoints).
Proof.
  intros Hne Hf. rewrite (turns_fits _ Hne Hf).
  apply firstn_all2. rewrite length_combine.
  destruct waypoints; [contradiction | simpl length; lia].
Qed.

(** A run that returned with a solution path: the part of the log between
    the opening and the closing of [anim.txt] is made of one part per turn
    of the loop, and "Length" is printed with the distances of that part
    added up from 0. *)
Lemma solved_run progname args waypoints :
  fst (run F L progname args) = Ok 0 ->
  In waypoints (paths (snd (run F L progname args))) ->
  waypoints <> [] /\
  exists before body after,
    snd (run F L progname args)
    = before ++ FOpen "anim.txt" :: body ++ FClose "anim.txt" :: after /\
    traversals before = [] /\ traversals after = [] /\
    distances before = [] /\ distances after = [] /\
    file_content "anim.txt" before = [] /\
    file_content "anim.txt" after = [] /\
    segments_of F (firstn (Z.to_nat (turns waypoints))
                     (combine waypoints (tl waypoints))) body /\
    exists pre post,
      couts (snd (run F L progname args))
      = pre ++ Str "Length: " :: Dbl (total F (dofZ F 0) body) :: post.
Proof.
  destruct (run F L progname args) as [r l] eqn:Hrun. simpl fst. simpl snd.
  intros Hr Hin. run_analysis Hrun; try discriminate Hr; try contradiction.
  plan_analysis Hplan.
  destruct (epilogue_obs sp (dumps (ans_x n) verbose) charts open)
    as (Ecouts & _ & _ & _ & _ & _ & Edist & _ & Efile & Epaths & Etrav).
  rewrite <- app_assoc in Hin |- *.
  rewrite !paths_app, Xpaths, Epaths in Hin. simpl in Hin.
  rewrite app_nil_r in Hin.
  rewrite planned_couts, Ecouts.
  destruct (status_bool stat').
  2: { destruct Prest as (_ & E & _). rewrite E in Hin. contradiction. }
  destruct Prest
    as (time & found & ws & before & body & after & Hc & Hp & Hne & -> & Tb & Ta
        & Db & Da & Fb & Fa & Hparts).
  rewrite Hp in Hin. destruct Hin as [<- | []]. split; [exact Hne |].
  exists ((prefix F sp a1 a2 n ++ [Call SetPlanner; Call Setup]) ++ before),
    body, (after ++ epilogue sp (dumps (ans_x n) verbose) charts open).
  split.
  { rewrite <- !app_assoc. simpl. now rewrite <- !app_assoc. }
  rewrite !traversals_app, !distances_app, !file_content_app,
    Xtrav, Xdist, Xfile, Tb, Ta, Db, Da, Fb, Fa, Etrav, Edist, Efile.
  repeat split; auto.
  rewrite Hc. unfold printed_report.
  exists (if status_eqb stat' APPROXIMATE_SOLUTION then [approximate] else []).
  eexists. rewrite <- !app_assoc. reflexivity.
Qed.

(** C7.  In a run that returned with the solution path [waypoints] (a
    vector, like the traversals, of at most [SIZE_MAX] states), the log
    between the opening and the closing of [anim.txt] has one part per pair
    of neighbouring waypoints, in order; in each part the states written
    are [stateList[1]] to the last when the ends of the traversal differ
    and [stateList[0]] alone when they are equal; and every line of
    [anim.txt] is the vector view of one of these states. *)
Theorem anim_lines_of_each_segment
    (progname : string) (args : list string) (waypoints : list pointer) :
  fst (run F L progname args) = Ok 0 ->
  In waypoints (paths (snd (run F L progname args))) ->
  fits waypoints ->
  (forall from to stateList,
      In (from, to, stateList) (traversals (snd (run F L progname args))) ->
      fits stateList) ->
  exists before parts after,
    snd (run F L progname args)
    = before ++ FOpen "anim.txt" :: concat parts
             ++ FClose "anim.txt" :: after /\
    Forall2 (fun p ext => segment_written (fst p) (snd p) ext)
      (combine waypoints (tl waypoints)) parts /\
    file_content "anim.txt" (snd (run F L progname args))
    = lines (map snd (views (concat parts))).
Proof.
  intros Hr Hin Hfits Hsl.
  destruct (solved_run _ _ _ Hr Hin)
    as (Hne & before & body & after & Hl & _ & _ & _ & _ & Fb & Fa
        & (parts & -> & Hparts) & _).
  rewrite (turns_all _ Hne Hfits) in Hparts.
  rewrite Hl in Hsl |- *.
  assert (Hw : Forall2 (fun p ext => segment_written (fst p) (snd p) ext)
                 (combine waypoints (tl waypoints)) parts).
  { apply (Forall2_impl_in _ _ _ _ Hparts).
    intros [from to] ext Hext Hok. simpl in *.
    apply (segment_ok_fits _ _ _ Hok).
    intros sl Ht. apply (Hsl from to sl).
    rewrite traversals_app. apply in_or_app. right.
    change (FOpen "anim.txt" :: concat parts ++ FClose "anim.txt" :: after)
      with ([FOpen "anim.txt"] ++ concat parts ++ FClose "anim.txt" :: after).
    rewrite !traversals_app. apply in_or_app. right. apply in_or_app. left.
    apply (traversals_concat parts ext); [exact Hext |].
    rewrite Ht. now left. }
  exists before, parts, after. split; [reflexivity |]. split; [exact Hw |].
  change (FOpen "anim.txt" :: concat parts ++ FClose "anim.txt" :: after)
    with ([FOpen "anim.txt"] ++ concat parts ++ [FClose "anim.txt"] ++ after).
  rewrite !file_content_app, Fb, Fa. simpl. rewrite app_nil_r.
  clear - Hw. induction Hw as [| [from to] ext pairs parts Hx _ IH].
  - reflexivity.
  - simpl. rewrite file_content_app, views_app, map_app, lines_app, IH.
    destruct Hx as (s0 & rest & same & _ & _ & _ & ->). reflexivity.
Qed.




(** The fuel given to the loops is enough: a run ends by returning 0, by
    [exit(0)], or in one of the two undefined behaviours of the loop over
    the waypoints. *)
Lemma run_ends (progname : string) (args : list string) :
  fst (run F L progname args) = Ok 0 \/
  fst (run F L progname args) = Stop (Exited 0) \/
  fst (run F L progname args) = Stop (Undefined (WaypointOutOfBounds 0)) \/
  fst (run F L progname args) = Stop (Undefined EmptyStateList).
Proof.
  destruct (run F L progname args) as [r l] eqn:Hrun. simpl fst.
  run_analysis Hrun; auto.
  plan_analysis Hplan.
  destruct (status_bool stat'); [| now destruct Prest].
  destruct Prest as (_ & [[-> _] | [-> _]]); auto.
Qed.
End Claims.

(** ** Further properties of the driver *)

(** *** More of what a log shows *)

Section Resources.
Context {double : Type}.

(** The states handed to [freeState], with the wrapper that freed them. *)
Definition frees (l : log double) : list (space * pointer) :=
  flat_map (fun e => match e with
                     | Call (FreeState sp s) => [(sp, s)]
                     | _ => []
                     end) l.

(** The states the traversals returned, with the wrapper that made them. *)
Definition traversed (l : log double) : list (space * pointer) :=
  flat_map (fun e => match e with
                     | Call (TraverseManifold sp _ _ stateList) =>
                         map (pair sp) stateList
                     | _ => []
                     end) l.

(** The readings of [clock()]. *)
Definition clocks (l : log double) : list Z :=
  flat_map (fun e => match e with Call (Clock t) => [t] | _ => [] end) l.

(** The charts anchored: the point and the chart that came back. *)
Definition anchors (l : log double) : list (Vec double * pointer) :=
  flat_map (fun e => match e with
                     | Call (AnchorChart v chart) => [(v, chart)]
                     | _ => []
                     end) l.

(** The calls of [setRealState]: the wrapper, the point and the chart. *)
Definition real_states (l : log double)
    : list (space * Vec double * option pointer) :=
  flat_map (fun e => match e with
                     | Call (SetRealState sp v chart) => [(sp, v, chart)]
                     | _ => []
                     end) l.

(** The chart counts read. *)
Definition chart_counts (l : log double) : list Z :=
  flat_map (fun e => match e with Call (GetChartCount n) => [n] | _ => [] end) l.

(** The properties looked up in the planner data with [find]: the key
    and whether it is there. *)
Definition lookups (l : log double) : list (string * bool) :=
  flat_map (fun e => match e with
                     | Call (FindProperty key found) => [(key, found)]
                     | _ => []
                     end) l.

(** The properties read from the planner data with [operator[]]: the key
    and the value. *)
Definition property_reads (l : log double) : list (string * string) :=
  flat_map (fun e => match e with
                     | Call (GetProperty key value) => [(key, value)]
                     | _ => []
                     end) l.

(** The wrapper object a call is made on or handed: [atlas] or [proj].
    The calls of lines 91-100, 114, 199, 204 and 213 are methods of the
    atlas alone. *)
Definition wrapper (e : event double) : option space :=
  match e with
  | Call (NewStateSpace sp _) | Call (SimpleSetup sp)
  | Call (SetSpaceInformation sp) | Call (SetValidStateSamplerAllocator sp)
  | Call (SetDelta sp _) | Call (ScopedState sp) | Call (SetRealState sp _ _)
  | Call (GetAmbientDimension sp _) | Call (SetBounds sp)
  | Call (DumpPath sp _) | Call (TraverseManifold sp _ _ _)
  | Call (EqualStates sp _ _ _) | Call (Distance sp _ _ _)
  | Call (FreeState sp _) | Call (DumpGraph sp _) => Some sp
  | Call (SetExploration _) | Call (SetRho _) | Call (SetAlpha _)
  | Call (SetEpsilon _) | Call (SetMaxChartsPerExtension _)
  | Call (AnchorChart _ _) | Call (GetRho_s _) | Call (GetChartCount _)
  | Call (DumpMesh _) | Call (EstimateFrontierPercent _) => Some Atlas
  | _ => None
  end.

(** The mode argument that selects a wrapper, lines 65-68. *)
Definition flag (sp : space) : string :=
  match sp with
  | Atlas => "-a"
  | Projected => "-p"
  end.

(** One event seen by the output files: [open] is the file that is open.
    A file is opened when none is open; a write, a dump and a close go to
    the file that is open.  [None] is a breach. *)
Definition file_step (open : option string) (e : event double)
    : option (option string) :=
  match e with
  | FOpen f =>
      match open with
      | None => Some (Some f)
      | Some _ => None
      end
  | FPut f _ | Call (DumpPath _ f) | Call (DumpMesh f) | Call (DumpGraph _ f) =>
      match open with
      | Some g => if String.eqb f g then Some open else None
      | None => None
      end
  | FClose f =>
      match open with
      | Some g => if String.eqb f g then Some None else None
      | None => None
      end
  | _ => Some open
  end.

(** The file left open by a log that keeps to this, from [open]. *)
Fixpoint file_use (open : option string) (l : log double)
    : option (option string) :=
  match l with
  | [] => Some open
  | e :: l' =>
      match file_step open e with
      | Some open' => file_use open' l'
      | None => None
      end
  end.

(** The events [plan] and the loops in it can log. *)
Definition plan_event (e : event double) : bool :=
  match e with
  | Cout _ | FOpen _ | FPut _ _ | FClose _ => true
  | Call (Clock _) | Call (Solve _ _) | Call GetSolutionPath
  | Call (DumpPath _ _) | Call (GetStates _)
  | Call (TraverseManifold _ _ _ _) | Call (EqualStates _ _ _ _)
  | Call (ConstVectorView _ _) | Call (Distance _ _ _ _)
  | Call (FreeState _ _) | Call GetPlannerData | Call (FindProperty _ _)
  | Call (GetProperty _ _) => true
  | _ => false
  end.
End Resources.

(** *** Stretches of log

    [traces m R]: from whatever log [m] starts, what it adds to the log
    and the way it ends satisfy [R].  For an [R] that is kept by putting
    stretches one after the other, the rules below go through the driver
    one statement at a time, loops included. *)

Section Traces.
Context {double : Type}.

(** The way a computation ended: [None] when it returned. *)
Definition outcome {A : Type} (r : result A) : option stop :=
  match r with
  | Ok _ => None
  | Stop s => Some s
  end.

Definition traces {A : Type} (m : @M double A)
    (R : option stop -> log double -> Prop) : Prop :=
  forall l, exists ext, snd (m l) = l ++ ext /\ R (outcome (fst (m l))) ext.

(** [R] holds of the empty stretch, however the run ends there, and of
    a stretch after which the run went on into one of which it holds. *)
Definition local (R : option stop -> log double -> Prop) : Prop :=
  (forall o, R o []) /\
  forall a o b, R None a -> R o b -> R o (a ++ b).

Lemma traces_weaken {A : Type} (m : @M double A)
    (R R' : option stop -> log double -> Prop) :
  (forall o ext, R o ext -> R' o ext) -> traces m R -> traces m R'.
Proof.
  intros H Hm l. destruct (Hm l) as (ext & E & HR). exists ext. auto.
Qed.

Lemma traces_of_sat {A : Type} (m : @M double A)
    (R : option stop -> log double -> Prop) :
  (forall l, sat m l (fun r l' => exists ext, l' = l ++ ext /\ R (outcome r) ext))
  <-> traces m R.
Proof. reflexivity. Qed.

Section Local.
Variable R : option stop -> log double -> Prop.
Hypothesis HR : local R.

Lemma traces_ret {A : Type} (a : A) : traces (ret a) R.
Proof. intros l. exists []. simpl. rewrite app_nil_r. split; [easy | apply HR]. Qed.

Lemma traces_halt {A : Type} (s : stop) : traces (@halt double A s) R.
Proof. intros l. exists []. simpl. rewrite app_nil_r. split; [easy | apply HR]. Qed.

Lemma traces_emit (e : event double) : R None [e] -> traces (emit e) R.
Proof. intros H l. now exists [e]. Qed.

Lemma traces_call {A : Type} (answer : log double -> A)
    (c : A -> libcall double) :
  (forall a, R None [Call (c a)]) -> traces (call answer c) R.
Proof. intros H l. exists [Call (c (answer l))]. split; [easy | apply H]. Qed.

Lemma traces_bind {A B : Type} (m : @M double A) (k : A -> @M double B) :
  traces m R -> (forall a, traces (k a) R) -> traces (bind m k) R.
Proof.
  intros Hm Hk l. destruct (Hm l) as (ext & E & H). unfold bind.
  destruct (m l) as [[a | s] l']; simpl in *; subst l'.
  - destruct (Hk a (l ++ ext)) as (ext' & E' & H').
    exists (ext ++ ext'). rewrite E', app_assoc. split; [easy |].
    now apply HR.
  - now exists ext.
Qed.

(** The same when what follows depends on the answer of the library. *)
Lemma traces_after_call {A B : Type} (answer : log double -> A)
    (c : A -> libcall double) (k : A -> @M double B) :
  (forall a, traces (emit (Call (c a)) ;;; k a) R) ->
  traces (bind (call answer c) k) R.
Proof. intros H l. exact (H (answer l) l). Qed.

(** The same when what follows depends on the element read. *)
Lemma traces_after_index {A B : Type} (oob : Z -> ub) (v : list A) (i : Z)
    (k : A -> @M double B) :
  (forall a, nth_error v (Z.to_nat i) = Some a -> traces (k a) R) ->
  traces (bind (index oob v i) k) R.
Proof.
  intros H. unfold index. destruct (i <? 0).
  - intros l. exists []. simpl. rewrite app_nil_r. split; [easy | apply HR].
  - destruct (nth_error v (Z.to_nat i)) as [a |] eqn:E.
    + intros l. exact (H a eq_refl l).
    + intros l. exists []. simpl. rewrite app_nil_r. split; [easy | apply HR].
Qed.

Lemma traces_when (b : bool) (m : @M double unit) :
  traces m R -> traces (when b m) R.
Proof. destruct b; [easy | intros _; apply traces_ret]. Qed.

Lemma traces_index {A : Type} (oob : Z -> ub) (v : list A) (i : Z) :
  traces (index oob v i) R.
Proof.
  unfold index.
  destruct (if i <? 0 then None else nth_error v (Z.to_nat i));
    [apply traces_ret | apply traces_halt].
Qed.

Lemma traces_front {A : Type} (v : list A) : traces (front v) R.
Proof. destruct v; [apply traces_halt | apply traces_ret]. Qed.

Lemma traces_back {A : Type} (v : list A) : traces (back v) R.
Proof.
  unfold back. destruct (rev v); [apply traces_halt | apply traces_ret].
Qed.

Lemma traces_for_loop {A : Type} (fuel : nat) (i bound : Z)
    (body : Z -> A -> @M double A) (acc : A) :
  (forall i acc, traces (body i acc) R) ->
  traces (for_loop fuel i bound body acc) R.
Proof.
  intros Hbody. revert i acc.
  induction fuel as [| fuel IH]; intros i acc; simpl;
    destruct (i <? bound); try apply traces_ret; [apply traces_halt |].
  apply traces_bind; [apply Hbody | intros acc'; apply IH].
Qed.

Lemma traces_free_states (sp : space) (stateList : list pointer) :
  (forall s, R None [Call (FreeState sp s)]) ->
  traces (free_states sp stateList) R.
Proof.
  intros H. induction stateList as [| s rest IH]; simpl.
  - apply traces_ret.
  - apply traces_bind; [apply traces_emit, H | intros _; exact IH].
Qed.
End Local.
End Traces.

(** One statement of the driver: [block] is tried first, for the
    statements that need more than their events; [leaf] shows [R] of a
    single event. *)
Ltac traces_step HR block leaf :=
  first
    [ block
    | lazymatch goal with
      | |- traces (bind _ _) _ => apply (traces_bind _ HR); [| intro]
      | |- traces (ret _) _ => apply (traces_ret _ HR)
      | |- traces (halt _) _ => apply (traces_halt _ HR)
      | |- traces (emit _) _ => apply traces_emit; leaf
      | |- traces (call _ _) _ => apply traces_call; intro; leaf
      | |- traces (when _ _) _ => apply (traces_when _ HR)
      | |- traces (index _ _ _) _ => apply (traces_index _ HR)
      | |- traces (front _) _ => apply (traces_front _ HR)
      | |- traces (back _) _ => apply (traces_back _ HR)
      | |- traces (for_loop _ _ _ _ _) _ => apply (traces_for_loop _ HR); intros
      | |- traces (free_states _ _) _ =>
          apply (traces_free_states _ HR); intro; leaf
      | |- traces (match ?x with Some _ => _ | None => _ end) _ => destruct x
      | |- traces (if ?b then _ else _) _ => destruct b
      | |- traces (cout _) _ => unfold cout
      | |- traces (fput _ _) _ => unfold fput
      | |- traces (call_ _) _ => unfold call_
      | |- traces (usage _) _ => unfold usage
      | |- traces (print_states _ _ _ _ _) _ => unfold print_states
      | |- traces (segment _ _ _ _ _ _) _ => unfold segment
      | |- traces (interpolate _ _ _ _) _ => unfold interpolate
      | |- traces (plan _ _ _ _ _ _) _ => unfold plan
      | |- traces (atlas_mode _ _ _ _ _ _) _ => unfold atlas_mode
      | |- traces (projected_mode _ _ _ _ _ _) _ => unfold projected_mode
      | |- traces (main _ _ _ _) _ => unfold main
      | |- _ => progress cbv beta zeta
      end ].

Ltac traces_walk HR block leaf := repeat traces_step HR block leaf.

(** The eight ways of a run, and the stretch of log that [plan] wrote. *)
Ltac run_ways Hrun :=
  let S := fresh "S" in
  pose proof (run_cases _ _ _ _ _ _ Hrun) as S;
  destruct S as [H4 H5 | a1 a2 a3 a4 a5 Hargs Hv
                 | a1 a2 a3 a4 verbose x y Hargs Ha Hp
                 | a1 a2 a3 a4 verbose sp x y Hargs Hmode
                 | a1 a2 a3 a4 verbose sp n Hargs Hmode Hs Hq
                 | a1 a2 a3 a4 verbose sp n Hargs Hmode Hs Hq Hlim
                 | a1 a2 a3 a4 verbose sp n s l' Hargs Hmode Hs Hq Hlim Hplan
                 | a1 a2 a3 a4 verbose sp n l' charts open
                     Hargs Hmode Hs Hq Hlim Hplan].

Ltac plan_ways Hplan :=
  lazymatch type of Hplan with
  | plan_shows _ _ _ _ _ (prefix ?F ?sp ?a1 ?a2 ?n ++ _) _ _ =>
      destruct (prefix_obs F sp a1 a2 n)
        as (Xcouts & Xopened & Xsolves & Xspaces & Xplanners & Xviews & Xdist
            & Xusages & Xfile & Xpaths & Xtrav)
  end;
  destruct (plan_shows_facts _ _ _ _ _ _ _ _ Hplan)
    as (ext & -> & stat' & Psolves & Pspaces & Pplanners & Pusages & Pfile
        & Popened & Prest).

Ltac split_log :=
  rewrite ?couts_app, ?opened_app, ?solves_app, ?spaces_app, ?planners_app,
    ?paths_app, ?usages_app, ?file_content_app, ?views_app, ?distances_app,
    ?traversals_app, ?equalities_app, ?problems_app.

Ltac split_log_in H :=
  rewrite ?couts_app, ?opened_app, ?solves_app, ?spaces_app, ?planners_app,
    ?paths_app, ?usages_app, ?file_content_app, ?views_app, ?distances_app,
    ?traversals_app, ?equalities_app, ?problems_app in H.

(** *** The properties *)

Section Further.
Context {double : Type} (F : DoubleOps double) (L : Library double).

Lemma frees_app (a b : log double) : frees (a ++ b) = frees a ++ frees b.
Proof. apply flat_map_app. Qed.

Lemma traversed_app (a b : log double) :
  traversed (a ++ b) = traversed a ++ traversed b.
Proof. apply flat_map_app. Qed.

(** Every state that came out of a traversal was freed, and nothing else. *)
Definition balanced (_ : option stop) (ext : log double) : Prop :=
  frees ext = traversed ext.

Lemma balanced_local : local balanced.
Proof.
  split; [reflexivity |]. unfold balanced. intros a o b Ha Hb.
  now rewrite frees_app, traversed_app, Ha, Hb.
Qed.

(** Neither a traversal nor a [freeState]. *)
Definition still (_ : option stop) (ext : log double) : Prop :=
  frees ext = [] /\ traversed ext = [].

Lemma still_local : local still.
Proof.
  split; [now split |]. unfold still. intros a o b [Ha Ha'] [Hb Hb'].
  now rewrite frees_app, traversed_app, Ha, Ha', Hb, Hb'.
Qed.

Lemma print_states_still sp stateList len :
  traces (print_states F L sp stateList len) still.
Proof. traces_walk still_local fail ltac:(now split). Qed.

(** The inner loop comes to its end, whatever the traversal holds. *)
Lemma print_states_returns sp stateList len l :
  exists len', fst (print_states F L sp stateList len l) = Ok len'.
Proof.
  destruct (print_states_sat F L sp stateList len l) as (len' & _ & E & _).
  now exists len'.
Qed.

Lemma freed_frees sp (stateList : list pointer) :
  frees (@freed double sp stateList) = map (pair sp) stateList /\
  traversed (@freed double sp stateList) = [].
Proof.
  induction stateList as [| s rest [IH IH']]; [now split |].
  simpl. now rewrite IH, IH'.
Qed.

Lemma sat_then_index_any {A B : Type} (oob : Z -> ub) (v : list A) (i : Z)
    (k : A -> @M double B) l (Q : result B -> log double -> Prop) :
  Q (Stop (Undefined (oob i))) l -> (forall a, sat (k a) l Q) ->
  sat (bind (index oob v i) k) l Q.
Proof.
  intros Hq H. unfold index.
  destruct (if i <? 0 then None else nth_error v (Z.to_nat i));
    [apply sat_then_ret, H | apply sat_then_halt, Hq].
Qed.

(** One turn of the loop over the waypoints frees the states of its
    traversal, all of them and in the order of the traversal. *)
Lemma segment_balanced sp waypoints i len :
  traces (segment F L sp waypoints i len) balanced.
Proof.
  apply traces_of_sat. intros l. unfold segment, balanced.
  assert (Hnil : exists ext : log double,
             l = l ++ ext /\ frees ext = traversed ext)
    by (exists []; now rewrite app_nil_r).
  apply sat_then_index_any; [exact Hnil | intros from].
  apply sat_then_index_any; [exact Hnil | intros to].
  apply sat_then_call. intros [| s0 rest].
  - apply sat_then_halt. now exists [Call (TraverseManifold sp from to [])].
  - apply sat_then_ret. rewrite back_cons. apply sat_then_ret.
    apply sat_then_call. intros same.
    apply sat_bind.
    apply sat_weaken
      with (Q := fun r l' => exists ext,
                     l' = (l ++ [Call (TraverseManifold sp from to (s0 :: rest))])
                            ++ [Call (EqualStates sp s0 (last rest s0) same)]
                            ++ ext /\
                     (exists len', r = Ok len') /\ still None ext).
    + destruct same.
      * change (front (s0 :: rest)) with (@ret double _ s0). wp.
        eexists. split; [rewrite <- !app_assoc; reflexivity |].
        split; [now exists len | now split].
      * destruct (print_states_still sp (s0 :: rest) len
                    ((l ++ [Call (TraverseManifold sp from to (s0 :: rest))])
                       ++ [Call (EqualStates sp s0 (last rest s0) false)]))
          as (ext & E & Hs).
        destruct (print_states_returns sp (s0 :: rest) len
                    ((l ++ [Call (TraverseManifold sp from to (s0 :: rest))])
                       ++ [Call (EqualStates sp s0 (last rest s0) false)]))
          as (len' & Hr).
        unfold sat. rewrite E, Hr. exists ext.
        split; [now rewrite <- app_assoc | split; [now exists len' | exact Hs]].
    + intros r l' (ext & -> & [len' ->] & Hf & Ht).
      apply sat_bind. eapply sat_weaken; [apply free_states_sat |].
      intros r l' [-> ->]. apply sat_ret.
      destruct (freed_frees sp (s0 :: rest)) as [Ef Et].
      exists ([Call (TraverseManifold sp from to (s0 :: rest));
               Call (EqualStates sp s0 (last rest s0) same)]
              ++ ext ++ freed sp (s0 :: rest)).
      split; [now rewrite <- !app_assoc |].
      rewrite !frees_app, !traversed_app, Hf, Ht, Ef, Et.
      simpl. now rewrite !app_nil_r.
Qed.

Lemma main_balanced progname args : traces (main F L progname args) balanced.
Proof.
  traces_walk balanced_local
    ltac:(idtac; lazymatch goal with
          | |- traces (segment _ _ _ _ _ _) _ => apply segment_balanced
          end)
    ltac:(reflexivity).
Qed.

(** X1.  In every run, however it ends, the states handed to [freeState]
    are the states the traversals returned: each of them once, in the
    order in which the traversals returned them, and on the wrapper that
    made the traversal. *)
Theorem freed_states_are_the_traversed_states
    (progname : string) (args : list string) :
  frees (snd (run F L progname args)) = traversed (snd (run F L progname args)).
Proof.
  destruct (main_balanced progname args []) as (ext & E & H).
  unfold run. rewrite E. exact H.
Qed.

(** An empty solution path is read out of bounds. *)
Definition path_fault (o : option stop) (ext : log double) : Prop :=
  In [] (paths ext) -> o = Some (Undefined (WaypointOutOfBounds 0)).

Lemma path_fault_local : local path_fault.
Proof.
  split; [intros o [] |]. unfold path_fault. intros a o b Ha Hb Hin.
  rewrite paths_app in Hin. apply in_app_or in Hin.
  destruct Hin as [Hin | Hin]; [discriminate (Ha Hin) | exact (Hb Hin)].
Qed.

(** A traversal that returns no state leaves [front()] nothing to return. *)
Definition traversal_fault (o : option stop) (ext : log double) : Prop :=
  (exists from to, In (from, to, []) (traversals ext)) ->
  o = Some (Undefined EmptyStateList).

Lemma traversal_fault_local : local traversal_fault.
Proof.
  split; [intros o (from & to & []) |]. unfold traversal_fault.
  intros a o b Ha Hb (from & to & Hin).
  rewrite traversals_app in Hin. apply in_app_or in Hin.
  destruct Hin as [Hin | Hin]; [| apply Hb; eauto].
  assert (E : @None stop = Some (Undefined EmptyStateList)) by (apply Ha; eauto).
  discriminate E.
Qed.

Lemma empty_path_stops {B : Type} sp (k : double -> @M double B) l :
  (emit (Call (GetStates [])) ;;; (length <- interpolate F L sp [] ;; k length)) l
  = (Stop (Undefined (WaypointOutOfBounds 0)),
     l ++ [Call (GetStates []); FOpen "anim.txt"]).
Proof.
  transitivity (@Stop B (Undefined (WaypointOutOfBounds 0)),
                (l ++ [@Call double (GetStates [])]) ++ [FOpen "anim.txt"]);
    [reflexivity | now rewrite <- app_assoc].
Qed.

Lemma main_path_fault progname args :
  traces (main F L progname args) path_fault.
Proof.
  traces_walk path_fault_local
    ltac:(idtac; lazymatch goal with
          | |- traces (bind (call (getStates _) _) _) _ =>
              apply traces_after_call; intros [| w ws]; cbv beta;
              [ intros l; rewrite empty_path_stops; eexists;
                split; [reflexivity | intros _; reflexivity]
              | apply (traces_bind _ path_fault_local);
                [apply traces_emit; intros [H | []]; discriminate H | intros _] ]
          end)
    ltac:(intros []).
Qed.

Lemma main_traversal_fault progname args :
  traces (main F L progname args) traversal_fault.
Proof.
  traces_walk traversal_fault_local
    ltac:(idtac; lazymatch goal with
          | |- traces (bind (call _ (TraverseManifold _ _ _)) _) _ =>
              apply traces_after_call; intros [| s0 rest]; cbv beta;
              [ intros l; eexists; split; [reflexivity |];
                intros _; reflexivity
              | apply (traces_bind _ traversal_fault_local);
                [apply traces_emit; intros (? & ? & [H | []]); discriminate H
                | intros _] ]
          end)
    ltac:(intros (? & ? & [])).
Qed.

(** X2.  Of the vectors that the driver reads ([argv], the waypoints of
    the solution path and the states of a traversal), two reads can be
    out of range, and no other.  [waypoints[0]] is read out of range
    exactly when the solution path is empty, and [front()] is called on
    an empty vector exactly when a traversal returned no state; the run
    stops there.  No argument is read past [argc], no waypoint but the
    first and no state [stateList[i]] is read out of range.  The pointers
    that the library hands back are taken as valid: see [ub]. *)
Theorem vector_read_out_of_range_iff_empty_path_or_traversal
    (progname : string) (args : list string) :
  (fst (run F L progname args) = Stop (Undefined (WaypointOutOfBounds 0))
   <-> In [] (paths (snd (run F L progname args)))) /\
  (fst (run F L progname args) = Stop (Undefined EmptyStateList)
   <-> exists from to,
       In (from, to, []) (traversals (snd (run F L progname args)))) /\
  (forall u, fst (run F L progname args) = Stop (Undefined u) ->
             u = WaypointOutOfBounds 0 \/ u = EmptyStateList).
Proof.
  assert (Hback :
    (In [] (paths (snd (run F L progname args))) ->
     fst (run F L progname args) = Stop (Undefined (WaypointOutOfBounds 0))) /\
    ((exists from to,
         In (from, to, []) (traversals (snd (run F L progname args)))) ->
     fst (run F L progname args) = Stop (Undefined EmptyStateList))).
  { unfold run.
    destruct (main_path_fault progname args []) as (e1 & E1 & H1).
    destruct (main_traversal_fault progname args []) as (e2 & E2 & H2).
    rewrite E1 in E2. simpl in E2. subst e2. rewrite E1. simpl app.
    unfold path_fault, traversal_fault in H1, H2.
    destruct (fst (main F L progname args [])) as [v | s]; simpl in H1, H2.
    - split; intros H; [discriminate (H1 H) | discriminate (H2 H)].
    - split; intros H; [apply H1 in H | apply H2 in H]; congruence. }
  destruct Hback as [Hpath Htrav].
  split; [split; [| exact Hpath] | split; [split; [| exact Htrav] |]].
  - destruct (run F L progname args) as [r l] eqn:Hrun. simpl fst. simpl snd.
    clear Hpath Htrav.
    intros Hr. run_ways Hrun; try discriminate Hr.
    injection Hr as ->. plan_ways Hplan.
    destruct (status_bool stat'); [| now destruct Prest].
    destruct Prest as (_ & [[_ Hp] | [E _]]); [| discriminate E].
    split_log. rewrite Hp. apply in_or_app. right. now left.
  - destruct (run F L progname args) as [r l] eqn:Hrun. simpl fst. simpl snd.
    clear Hpath Htrav.
    intros Hr. run_ways Hrun; try discriminate Hr.
    injection Hr as ->. plan_ways Hplan.
    destruct (status_bool stat'); [| now destruct Prest].
    destruct Prest as (_ & [[E _] | [_ (from & to & Hin)]]); [discriminate E |].
    exists from, to. split_log. apply in_or_app. now right.
  - intros u Hu.
    destruct (run_ends F L progname args) as [E | [E | [E | E]]];
      rewrite E in Hu; try discriminate Hu; injection Hu as <-; auto.
Qed.

(** Calls on no wrapper but [sp]. *)
Definition on (sp : space) (_ : option stop) (ext : log double) : Prop :=
  Forall (fun e => forall s, wrapper e = Some s -> s = sp) ext.

Lemma on_local sp : local (on sp).
Proof.
  split; [intros o; constructor |].
  intros a o b Ha Hb. apply Forall_app. now split.
Qed.

Ltac on_event :=
  unfold on; constructor; [cbn; intros ? ?; congruence | constructor].

Lemma atlas_mode_on argv x y verbose :
  traces (atlas_mode F L argv x y verbose) (on Atlas).
Proof. traces_walk (on_local Atlas) fail on_event. Qed.

Lemma projected_mode_on argv x y verbose :
  traces (projected_mode F L argv x y verbose) (on Projected).
Proof. traces_walk (on_local Projected) fail on_event. Qed.

(** Calls on no wrapper but the one that the mode argument selects. *)
Definition on_mode (args : list string) (_ : option stop) (ext : log double)
    : Prop :=
  Forall (fun e => forall s, wrapper e = Some s ->
                             nth_error args 3 = Some (flag s)) ext.

Lemma on_mode_local args : local (on_mode args).
Proof.
  split; [intros o; constructor |].
  intros a o b Ha Hb. apply Forall_app. now split.
Qed.

Lemma on_mode_of args sp o ext :
  nth_error args 3 = Some (flag sp) -> on sp o ext -> on_mode args o ext.
Proof.
  intros H4 Hon. unfold on, on_mode in *.
  apply (Forall_impl _ (P := fun e => forall s, wrapper e = Some s -> s = sp));
    [| exact Hon].
  intros e He s Hs. now rewrite (He s Hs).
Qed.

Lemma main_on_mode progname args : traces (main F L progname args) (on_mode args).
Proof.
  pose proof (on_mode_local args) as HR.
  assert (Hleaf : forall e : event double, wrapper e = None -> on_mode args None [e]).
  { intros e He. constructor; [| constructor]. intros s Hs. congruence. }
  unfold main. cbv zeta.
  apply (traces_bind _ HR);
    [traces_walk HR fail ltac:(now apply Hleaf) | intros _].
  apply (traces_bind _ HR);
    [traces_walk HR fail ltac:(now apply Hleaf) | intros verbose].
  apply (traces_after_index _ HR). intros a4 H4.
  change (nth_error args 3 = Some a4) in H4.
  apply (traces_bind _ HR); [apply (traces_index _ HR) | intros a1].
  apply (traces_bind _ HR);
    [apply traces_call; intros xy; now apply Hleaf | intros xy].
  apply (traces_bind _ HR); [| intros _; apply (traces_ret _ HR)].
  rewrite !strcmp_eqb.
  destruct (String.eqb_spec "-a" a4) as [<- | Ha].
  - apply (traces_weaken _ (on Atlas)); [| apply atlas_mode_on].
    intros o ext. now apply on_mode_of.
  - destruct (String.eqb_spec "-p" a4) as [<- | Hp].
    + apply (traces_weaken _ (on Projected)); [| apply projected_mode_on].
      intros o ext. now apply on_mode_of.
    + apply (traces_ret _ HR).
Qed.

(** X3.  A run works on one wrapper only, the one its mode argument
    selects: every call on, or handing over, the atlas is made in a run
    whose mode is "-a", and every call on the projected state space in a
    run whose mode is "-p".  The calls of the loop over the waypoints and
    of the dumps are among them. *)
Theorem calls_go_to_the_wrapper_of_the_mode
    (progname : string) (args : list string) (e : event double) (sp : space) :
  In e (snd (run F L progname args)) ->
  wrapper e = Some sp ->
  nth_error args 3 = Some (flag sp).
Proof.
  destruct (main_on_mode progname args []) as (ext & E & H).
  unfold run. rewrite E. simpl app. intros Hin.
  unfold on_mode in H. rewrite Forall_forall in H. now apply H.
Qed.

Lemma file_use_app (open : option string) (a b : log double) :
  file_use open (a ++ b)
  = match file_use open a with
    | Some open' => file_use open' b
    | None => None
    end.
Proof.
  revert open. induction a as [| e a IH]; intros open; [reflexivity |].
  simpl. destruct (file_step open e); [apply IH | reflexivity].
Qed.

(** The stretch keeps to the use of files and leaves none open, unless
    the run stopped in the loop over the waypoints, with [anim.txt] open. *)
Definition files (o : option stop) (ext : log double) : Prop :=
  file_use None ext = Some None \/
  exists u, o = Some (Undefined u) /\
            file_use None ext = Some (Some "anim.txt"%string).

Lemma files_local : local files.
Proof.
  split; [now left |]. unfold files.
  intros a o b [Ha | (u & E & _)] Hb; [| discriminate E].
  now rewrite file_use_app, Ha.
Qed.

(** The loop over the waypoints writes to [anim.txt] and to nothing else. *)
Lemma loop_events_keep_file (body : log double) :
  Forall (fun e => loop_event e = true) body ->
  file_use (Some "anim.txt"%string) body = Some (Some "anim.txt"%string).
Proof.
  induction 1 as [| e body He _ IH]; [reflexivity |].
  destruct e as [i | f | f i | f | c]; try discriminate He.
  - simpl in *. now rewrite He.
  - destruct c; try discriminate He; exact IH.
Qed.

Lemma interpolate_files sp waypoints :
  traces (interpolate F L sp waypoints) files.
Proof.
  intros l. pose proof (interpolate_sat F L sp waypoints l) as S.
  unfold sat in S.
  destruct (interpolate F L sp waypoints l) as [[len | s] l']; simpl in *.
  - destruct S as (body & -> & [_ Hk] & _).
    exists (FOpen "anim.txt" :: body ++ [FClose "anim.txt"]).
    split; [reflexivity |]. left.
    change (file_use (Some "anim.txt"%string) (body ++ [FClose "anim.txt"])
            = Some None).
    now rewrite file_use_app, (loop_events_keep_file _ Hk).
  - destruct s as [code | [i | i | i |] |]; try contradiction.
    + destruct S as (_ & _ & ->). exists [FOpen "anim.txt"].
      split; [reflexivity |]. right. now exists (WaypointOutOfBounds i).
    + destruct S as (body & -> & [_ Hk] & _).
      exists (FOpen "anim.txt" :: body). split; [reflexivity |].
      right. exists EmptyStateList. split; [reflexivity |].
      exact (loop_events_keep_file _ Hk).
Qed.

Lemma main_files progname args : traces (main F L progname args) files.
Proof.
  traces_walk files_local
    ltac:(idtac; lazymatch goal with
          | |- traces (interpolate _ _ _ _) _ => apply interpolate_files
          | |- traces (bind (emit (FOpen _)) _) _ =>
              let l := fresh "l" in
              intros l; eexists;
              split; [cbn; rewrite <- ?app_assoc; reflexivity | left; reflexivity]
          end)
    ltac:(now left).
Qed.

(** X4.  The driver has one output file open at a time: a file is opened
    only when none is open, and every write, dump and close goes to the
    file that is open.  A run that returns or ends in [exit(0)] has closed
    every file it opened; only a run that stops in the loop over the
    waypoints leaves a file open, and that file is [anim.txt]. *)
Theorem files_are_used_one_at_a_time (progname : string) (args : list string) :
  exists open,
    file_use None (snd (run F L progname args)) = Some open /\
    (open = None \/
     (open = Some "anim.txt"%string /\
      exists u, fst (run F L progname args) = Stop (Undefined u))).
Proof.
  destruct (main_files progname args []) as (ext & E & H).
  unfold run. rewrite E. simpl app.
  destruct H as [H | (u & Ho & H)].
  - exists None. now split; [| left].
  - exists (Some "anim.txt"%string). split; [exact H |]. right.
    split; [reflexivity |]. exists u.
    destruct (fst (main F L progname args [])); [discriminate Ho |].
    simpl in Ho. congruence.
Qed.

(** *** The stretch of log that [plan] writes *)

Lemma clocks_app (a b : log double) : clocks (a ++ b) = clocks a ++ clocks b.
Proof. apply flat_map_app. Qed.

Lemma anchors_app (a b : log double) : anchors (a ++ b) = anchors a ++ anchors b.
Proof. apply flat_map_app. Qed.

Lemma real_states_app (a b : log double) :
  real_states (a ++ b) = real_states a ++ real_states b.
Proof. apply flat_map_app. Qed.

Lemma chart_counts_app (a b : log double) :
  chart_counts (a ++ b) = chart_counts a ++ chart_counts b.
Proof. apply flat_map_app. Qed.

Lemma loop_event_plan_event (e : event double) :
  loop_event e = true -> plan_event e = true.
Proof.
  destruct e as [i | f | f i | f | c]; try reflexivity.
  destruct c; try reflexivity; discriminate.
Qed.

(** Nothing that [plan] logs parses a problem, configures the state
    space or reads the chart count. *)
Lemma plan_events_silent (ext : log double) :
  Forall (fun e => plan_event e = true) ext ->
  problems ext = [] /\ anchors ext = [] /\ real_states ext = [] /\
  chart_counts ext = [].
Proof.
  induction 1 as [| e ext He _ (IH1 & IH2 & IH3 & IH4)]; [now repeat split |].
  destruct e as [i | f | f i | f | c]; try (now repeat split).
  destruct c; try discriminate He; now repeat split.
Qed.

(** The loop over the waypoints does not read the clock. *)
Lemma loop_events_timeless (body : log double) :
  Forall (fun e => loop_event e = true) body -> clocks body = [].
Proof.
  induction 1 as [| e body He _ IH]; [reflexivity |].
  destruct e as [i | f | f i | f | c]; try exact IH.
  destruct c; try discriminate He; exact IH.
Qed.

(** What [plan] added to the log when it returned. *)
Definition plan_returned (sp : space) (dump : bool) (limit : double)
    (ext : log double) : Prop :=
  exists t0 stat found,
    (status_bool stat = false /\
     ext = [Call (Clock t0); Call (Solve limit stat); Cout no_solution]
             ++ planner_data found) \/
    (status_bool stat = true /\
     exists t1 waypoints body,
       waypoints <> [] /\
       Forall (fun e => loop_event e = true) body /\
       ext = solution_log sp dump limit t0 stat t1 waypoints
               ++ [FOpen "anim.txt"] ++ body ++ [FClose "anim.txt"]
               ++ report stat (total F (dofZ F 0) body) (seconds F L t0 t1)
               ++ planner_data found).

Lemma plan_shows_returned sp dump limit l l' :
  plan_shows F L sp dump limit l (Ok tt) l' ->
  exists ext, l' = l ++ ext /\ plan_returned sp dump limit ext.
Proof.
  intros H. inversion H as [t0 stat found Hs | | t0 stat t1 ws len l0 found Hs Hi];
    subst.
  - eexists. split; [reflexivity |]. exists t0, stat, found. left. now split.
  - destruct Hi as (body & -> & [_ Hk] & Hne & -> & _).
    eexists. split.
    2: { exists t0, stat, found. right. split; [exact Hs |].
         exists t1, ws, body. split; [exact Hne |]. split; [exact Hk |].
         reflexivity. }
    rewrite <- !app_assoc. simpl. now rewrite <- !app_assoc.
Qed.

Lemma plan_shows_events sp dump limit l r l' :
  plan_shows F L sp dump limit l r l' ->
  exists ext, l' = l ++ ext /\ Forall (fun e => plan_event e = true) ext.
Proof.
  assert (Hsol : forall t0 stat t1 ws,
             Forall (fun e : event double => plan_event e = true)
               (solution_log sp dump limit t0 stat t1 ws)).
  { intros. unfold solution_log. destruct dump; repeat constructor. }
  assert (Hbody : forall body : log double,
             Forall (fun e => loop_event e = true) body ->
             Forall (fun e => plan_event e = true) body).
  { intros body. apply Forall_impl. exact loop_event_plan_event. }
  intros H.
  destruct H as [t0 stat found Hs | t0 stat t1 ws s l' Hs Hi
                 | t0 stat t1 ws len l' found Hs Hi].
  - eexists. split; [reflexivity |].
    unfold planner_data. destruct found; repeat constructor.
  - destruct s as [code | [i | i | i |] |]; try contradiction.
    + destruct Hi as (_ & _ & ->).
      exists (solution_log sp dump limit t0 stat t1 ws ++ [FOpen "anim.txt"]).
      split; [now rewrite <- app_assoc |].
      apply Forall_app. split; [apply Hsol | repeat constructor].
    + destruct Hi as (body & -> & [_ Hk] & _).
      exists (solution_log sp dump limit t0 stat t1 ws
              ++ FOpen "anim.txt" :: body).
      split; [now rewrite <- app_assoc |].
      apply Forall_app. split; [apply Hsol |].
      constructor; [reflexivity | now apply Hbody].
  - destruct Hi as (body & -> & [_ Hk] & _).
    exists (solution_log sp dump limit t0 stat t1 ws
            ++ (FOpen "anim.txt" :: body ++ [FClose "anim.txt"])
            ++ report stat len (seconds F L t0 t1) ++ planner_data found).
    split; [now rewrite <- !app_assoc |].
    apply Forall_app. split; [apply Hsol |].
    apply Forall_app. split.
    + constructor; [reflexivity |].
      apply Forall_app. split; [now apply Hbody | repeat constructor].
    + apply Forall_app. split.
      * unfold report. destruct (status_eqb stat APPROXIMATE_SOLUTION);
          repeat constructor.
      * unfold planner_data. destruct found; repeat constructor.
Qed.

(** *** The log of a run that returned *)

Lemma prefix_more sp a1 a2 n :
  clocks (prefix F sp a1 a2 n) = [] /\
  chart_counts (prefix F sp a1 a2 n) = [] /\
  problems (prefix F sp a1 a2 n) = [(ans_x n, ans_y n)] /\
  anchors (prefix F sp a1 a2 n)
  = match sp with
    | Atlas => [(ans_x n, ans_start n); (ans_y n, ans_goal n)]
    | Projected => []
    end /\
  real_states (prefix F sp a1 a2 n)
  = match sp with
    | Atlas => [(Atlas, ans_x n, Some (ans_start n));
                (Atlas, ans_y n, Some (ans_goal n))]
    | Projected => [(Projected, ans_x n, None); (Projected, ans_y n, None)]
    end.
Proof. destruct sp; repeat split. Qed.

Lemma epilogue_more sp dump charts (open : double) :
  clocks (epilogue sp dump charts open) = [] /\
  problems (epilogue sp dump charts open) = [] /\
  anchors (epilogue sp dump charts open) = [] /\
  real_states (epilogue sp dump charts open) = [] /\
  chart_counts (epilogue sp dump charts open)
  = match sp with
    | Atlas => [charts]
    | Projected => []
    end.
Proof. destruct sp, dump; repeat split. Qed.

(** What a run that went through [plan] and returned has logged. *)
Definition planned (args : list string) (l : log double) : Prop :=
  exists a1 a2 a3 a4 verbose sp n ext charts open,
    parsed args a1 a2 a3 a4 verbose /\ mode_of a4 sp /\
    is_null (ans_space n) = false /\ is_null (ans_planner n) = false /\
    dle F (atof L a3) (dofZ F 0) = false /\
    plan_returned sp (dumps (ans_x n) verbose) (atof L a3) ext /\
    Forall (fun e => plan_event e = true) ext /\
    (exists stat, solves ext = [(atof L a3, stat)]) /\
    l = (prefix F sp a1 a2 n ++ [Call SetPlanner; Call Setup])
          ++ ext ++ epilogue sp (dumps (ans_x n) verbose) charts open.

(** A run returns after [plan], or without a mode and with nothing in
    its log but the call of [parseProblem]. *)
Lemma returned_run progname args :
  fst (run F L progname args) = Ok 0 ->
  planned args (snd (run F L progname args)) \/
  solves (snd (run F L progname args)) = [] /\
  nth_error args 3 <> Some "-a"%string /\
  nth_error args 3 <> Some "-p"%string.
Proof.
  destruct (run F L progname args) as [r l] eqn:Hrun. simpl fst. simpl snd.
  intros Hr. run_ways Hrun; try discriminate Hr.
  - right. split; [reflexivity |].
    destruct Hargs as [[-> _] | [-> _]]; simpl; split; congruence.
  - left. destruct (plan_shows_returned _ _ _ _ _ Hplan) as (ext0 & E0 & Hext).
    destruct (plan_shows_events _ _ _ _ _ _ Hplan) as (ext1 & E1 & Hev).
    plan_ways Hplan.
    apply app_inv_head in E0. apply app_inv_head in E1. subst ext0 ext1.
    exists a1, a2, a3, a4, verbose, sp, n, ext, charts, open.
    repeat split; try assumption; [now exists stat' | now rewrite <- !app_assoc].
Qed.

(** X5.  In a run that returns after a solution, the clock is read twice,
    immediately before and immediately after the call of [solve], and the
    time printed after "Took " is the difference of the two readings over
    [CLOCKS_PER_SEC]: it covers the call of [solve] and nothing else. *)
Theorem reported_time_is_the_clock_difference_around_solve
    (progname : string) (args : list string)
    (limit : double) (stat : PlannerStatus) :
  fst (run F L progname args) = Ok 0 ->
  In (limit, stat) (solves (snd (run F L progname args))) ->
  status_bool stat = true ->
  exists t0 t1 pre post,
    snd (run F L progname args)
    = pre ++ [Call (Clock t0); Call (Solve limit stat); Call (Clock t1)] ++ post /\
    clocks (snd (run F L progname args)) = [t0; t1] /\
    exists before after,
      couts (snd (run F L progname args))
      = before
        ++ [Str "Took ";
            Dbl (ddiv F (dofZ F (t1 - t0)) (dofZ F (CLOCKS_PER_SEC L)));
            Str (" seconds." ++ nl)]
        ++ after.
Proof.
  intros Hr Hin Hstat.
  destruct (returned_run _ _ Hr) as [Hp | [E _]];
    [| rewrite E in Hin; contradiction].
  destruct Hp as (a1 & a2 & a3 & a4 & verbose & sp & n & ext & charts & open
                  & _ & _ & _ & _ & _ & Hext & _ & _ & Hl).
  rewrite Hl in Hin |- *. clear Hl Hr.
  destruct (prefix_obs F sp a1 a2 n) as (Xc & _ & Xs & _).
  destruct (prefix_more sp a1 a2 n) as (Xk & _).
  destruct (epilogue_obs sp (dumps (ans_x n) verbose) charts open)
    as (Ec & _ & Es & _).
  destruct (epilogue_more sp (dumps (ans_x n) verbose) charts open) as (Ek & _).
  destruct Hext as (t0 & stat0 & found & [[Hs ->] | (Hs & t1 & ws & body & _ & Hk & ->)]).
  - exfalso. destruct (@planner_data_obs double found) as (Ds & _).
    split_log_in Hin. rewrite Xs, Ds, Es in Hin. simpl in Hin.
    destruct Hin as [Hin | []]. injection Hin as _ <-. congruence.
  - destruct (solution_log_obs sp (dumps (ans_x n) verbose) (atof L a3)
                t0 stat0 t1 ws) as (Ss & _ & _ & _ & _ & _ & _ & Sc & _).
    destruct (report_obs stat0 (total F (dofZ F 0) body) (seconds F L t0 t1))
      as (Rs & _ & _ & _ & _ & _ & _ & Rc & _).
    destruct (@planner_data_obs double found) as (Ds & _ & _ & _ & _ & _ & _ & Dc & _).
    destruct (loop_events_quiet body Hk) as (Bc & _ & Bs & _).
    split_log_in Hin.
    rewrite Xs, Ss, Bs, Rs, Ds, Es in Hin. simpl in Hin.
    destruct Hin as [Hin | []]. injection Hin as <- <-.
    exists t0, t1, (prefix F sp a1 a2 n ++ [Call SetPlanner; Call Setup]).
    eexists. split; [unfold solution_log; rewrite <- !app_assoc; reflexivity |].
    split.
    + rewrite !clocks_app, Xk, Ek, (loop_events_timeless _ Hk).
      unfold solution_log, report, planner_data.
      destruct (dumps (ans_x n) verbose), (status_eqb stat0 APPROXIMATE_SOLUTION),
        found; reflexivity.
    + split_log. rewrite Xc, Sc, Bc, Rc, Dc, Ec. unfold printed_report.
      simpl.
      exists ((if status_eqb stat0 APPROXIMATE_SOLUTION then [approximate] else [])
              ++ [Str "Length: "; Dbl (total F (dofZ F 0) body); Str nl]).
      eexists. rewrite <- !app_assoc. reflexivity.
Qed.

(** [plan] starts with the clock and the call of [solve], and calls
    [solve] once. *)
Lemma plan_shows_starts sp dump limit l r l' :
  plan_shows F L sp dump limit l r l' ->
  exists t0 stat rest,
    l' = l ++ [Call (Clock t0); Call (Solve limit stat)] ++ rest /\
    solves rest = [].
Proof.
  assert (Hsol : forall t0 stat t1 ws,
             solution_log sp dump limit t0 stat t1 ws
             = [Call (Clock t0); Call (Solve limit stat)]
                 ++ [Call (Clock t1); Call GetSolutionPath]
                 ++ (if dump
                     then [FOpen "path.ply"; Call (DumpPath sp "path.ply");
                           FClose "path.ply"]
                     else [])
                 ++ [Call (GetStates ws)]) by reflexivity.
  intros H.
  destruct H as [t0 stat found Hs | t0 stat t1 ws s l' Hs Hi
                 | t0 stat t1 ws len l' found Hs Hi].
  - exists t0, stat, (Cout no_solution :: planner_data found).
    split; [reflexivity | now destruct found].
  - exists t0, stat.
    destruct s as [code | [i | i | i |] |]; try contradiction.
    + destruct Hi as (_ & _ & ->). rewrite Hsol. eexists. split.
      * rewrite <- !app_assoc. reflexivity.
      * now destruct dump.
    + destruct Hi as (body & -> & [_ Hk] & _). rewrite Hsol. eexists. split.
      * rewrite <- !app_assoc. reflexivity.
      * destruct (loop_events_quiet body Hk) as (_ & _ & Bs & _).
        change (FOpen "anim.txt" :: body) with ([FOpen "anim.txt"] ++ body).
        rewrite !solves_app, Bs. now destruct dump.
  - exists t0, stat.
    destruct Hi as (body & -> & [_ Hk] & _). rewrite Hsol. eexists. split.
    + rewrite <- !app_assoc. reflexivity.
    + destruct (loop_events_quiet body Hk) as (_ & _ & Bs & _).
      destruct (report_obs stat len (seconds F L t0 t1)) as (Rs & _).
      destruct (@planner_data_obs double found) as (Ds & _).
      change (FOpen "anim.txt" :: body ++ [FClose "anim.txt"])
        with ([FOpen "anim.txt"] ++ body ++ [FClose "anim.txt"]).
      rewrite !solves_app, Bs, Rs, Ds. now destruct dump.
Qed.

(** X6.  The planner's [solve] is called at most once in a run.  When it
    is called, the mode argument is "-a" or "-p", the state space and the
    planner named by the second argument were constructed and are not
    null, the time limit is [atof] of the third argument and is not at
    most 0, and [setPlanner] and [setup] were called immediately before
    the clock is read and [solve] is called. *)
Theorem solve_is_called_once_after_the_setup
    (progname : string) (args : list string)
    (limit : double) (stat : PlannerStatus) :
  In (limit, stat) (solves (snd (run F L progname args))) ->
  solves (snd (run F L progname args)) = [(limit, stat)] /\
  (exists a1 a2 a3 tail sp p q,
      args = a1 :: a2 :: a3 :: flag sp :: tail /\
      limit = atof L a3 /\ dle F limit (dofZ F 0) = false /\
      spaces (snd (run F L progname args)) = [(sp, addr p)] /\
      planners (snd (run F L progname args)) = [(a2, addr q)]) /\
  exists pre t0 post,
    snd (run F L progname args)
    = pre ++ [Call SetPlanner; Call Setup; Call (Clock t0);
              Call (Solve limit stat)] ++ post /\
    solves pre = [] /\ solves post = [].
Proof.
  assert (Hmain : forall sp a1 a2 a3 a4 verbose n r l' after,
             parsed args a1 a2 a3 a4 verbose -> mode_of a4 sp ->
             is_null (ans_space n) = false -> is_null (ans_planner n) = false ->
             dle F (atof L a3) (dofZ F 0) = false ->
             plan_shows F L sp (dumps (ans_x n) verbose) (atof L a3)
               (prefix F sp a1 a2 n ++ [Call SetPlanner; Call Setup]) r l' ->
             solves after = [] -> spaces after = [] -> planners after = [] ->
             In (limit, stat) (solves (l' ++ after)) ->
             solves (l' ++ after) = [(limit, stat)] /\
             (exists a1 a2 a3 tail sp p q,
                 args = a1 :: a2 :: a3 :: flag sp :: tail /\
                 limit = atof L a3 /\ dle F limit (dofZ F 0) = false /\
                 spaces (l' ++ after) = [(sp, addr p)] /\
                 planners (l' ++ after) = [(a2, addr q)]) /\
             exists pre t0 post,
               l' ++ after
               = pre ++ [Call SetPlanner; Call Setup; Call (Clock t0);
                         Call (Solve limit stat)] ++ post /\
               solves pre = [] /\ solves post = []).
  { intros sp a1 a2 a3 a4 verbose n r l' after
      Hargs Hmode Hs Hq Hlim Hplan As Ap Aq Hin.
    destruct (plan_shows_starts _ _ _ _ _ _ Hplan)
      as (t0 & stat0 & rest & El & Hrest).
    plan_ways Hplan.
    assert (Es : solves ((prefix F sp a1 a2 n ++ [Call SetPlanner; Call Setup])
                           ++ ext ++ after) = [(atof L a3, stat')]).
    { rewrite planned_solves, Psolves, As. reflexivity. }
    rewrite <- app_assoc in Hin |- *. rewrite Es in Hin |- *.
    destruct Hin as [Hin | []]. injection Hin as <- <-.
    split; [reflexivity |]. split.
    - destruct (parsed_length _ _ _ _ _ _ Hargs) as (_ & _ & tail & ->).
      destruct (ans_space n) as [| p] eqn:Ep; [discriminate Hs |].
      destruct (ans_planner n) as [| q] eqn:Eq; [discriminate Hq |].
      exists a1, a2, a3, tail, sp, p, q.
      split; [now destruct Hmode as [[-> ->] | [-> ->]] |].
      split; [reflexivity |]. split; [exact Hlim |].
      rewrite !spaces_app, !planners_app, Xspaces, Xplanners, Pspaces,
        Pplanners, Ap, Aq, ?Ep, ?Eq. now split.
    - apply app_inv_head in El. subst ext.
      assert (stat0 = stat').
      { rewrite solves_app, Hrest in Psolves. simpl in Psolves. congruence. }
      subst stat0.
      exists (prefix F sp a1 a2 n), t0, (rest ++ after).
      split; [now rewrite <- !app_assoc |].
      split; [exact Xsolves | now rewrite solves_app, Hrest, As]. }
  destruct (run F L progname args) as [r l] eqn:Hrun. simpl snd.
  intros Hin. run_ways Hrun; try contradiction.
  - destruct (prefix_obs F sp a1 a2 n) as (_ & _ & E & _).
    rewrite solves_app, E in Hin. contradiction.
  - destruct (prefix_obs F sp a1 a2 n) as (_ & _ & E & _).
    rewrite !solves_app, E in Hin. contradiction.
  - rewrite <- (app_nil_r l') in Hin |- *.
    now apply (Hmain sp a1 a2 a3 a4 verbose n (Stop s)).
  - destruct (epilogue_obs sp (dumps (ans_x n) verbose) charts open)
      as (_ & _ & Es & Ep & Eq & _).
    now apply (Hmain sp a1 a2 a3 a4 verbose n (Ok tt)).
Qed.

Lemma dumps_true (x : Vec double) verbose :
  dumps x verbose = true -> rows x = 3 /\ verbose <> 0.
Proof.
  unfold dumps. intros H. apply andb_prop in H. destruct H as [Hx Hv].
  split; [now apply Z.eqb_eq |].
  intros ->. discriminate Hv.
Qed.

(** X7.  A file other than [anim.txt] is created only in a run whose
    sixth argument is "-v" and whose problem has ambient dimension 3, and
    it is [path.ply], [atlas.ply] or [graph.ply]: without "-v", or in
    another dimension, the driver writes no [.ply] file, however the run
    ends. *)
Theorem ply_files_need_verbose_and_dimension_three
    (progname : string) (args : list string) (f : string) :
  In f (opened (snd (run F L progname args))) ->
  f <> "anim.txt"%string ->
  (f = "path.ply" \/ f = "atlas.ply" \/ f = "graph.ply")%string /\
  nth_error args 4 = Some "-v"%string /\
  exists x y,
    problems (snd (run F L progname args)) = [(x, y)] /\ rows x = 3.
Proof.
  assert (Hmain : forall sp a1 a2 a3 a4 verbose n r l' charts open after,
             parsed args a1 a2 a3 a4 verbose ->
             plan_shows F L sp (dumps (ans_x n) verbose) (atof L a3)
               (prefix F sp a1 a2 n ++ [Call SetPlanner; Call Setup]) r l' ->
             after = [] \/
             after = epilogue sp (dumps (ans_x n) verbose) charts open ->
             In f (opened (l' ++ after)) -> f <> "anim.txt"%string ->
             (f = "path.ply" \/ f = "atlas.ply" \/ f = "graph.ply")%string /\
             nth_error args 4 = Some "-v"%string /\
             exists x y, problems (l' ++ after) = [(x, y)] /\ rows x = 3).
  { intros sp a1 a2 a3 a4 verbose n r l' charts open after
      Hargs Hplan Hafter Hin Hf.
    destruct (plan_shows_events _ _ _ _ _ _ Hplan) as (ext0 & E0 & Hev).
    destruct (plan_events_silent _ Hev) as (Pproblems & _).
    plan_ways Hplan. apply app_inv_head in E0. subst ext0.
    destruct (prefix_more sp a1 a2 n) as (_ & _ & Xproblems & _).
    destruct (epilogue_obs sp (dumps (ans_x n) verbose) charts open)
      as (_ & Eopened & _).
    destruct (epilogue_more sp (dumps (ans_x n) verbose) charts open)
      as (_ & Eproblems & _).
    assert (Hdump : dumps (ans_x n) verbose = true /\
                    (f = "path.ply" \/ f = "atlas.ply" \/ f = "graph.ply")%string).
    { rewrite !opened_app, Xopened, Popened in Hin. simpl in Hin.
      destruct (dumps (ans_x n) verbose); [split; [reflexivity |] | exfalso].
      - destruct Hafter as [-> | ->]; [| rewrite Eopened in Hin];
          destruct (status_bool stat'), sp; simpl in Hin;
          intuition congruence.
      - destruct Hafter as [-> | ->]; [| rewrite Eopened in Hin];
          destruct (status_bool stat'); simpl in Hin; intuition congruence. }
    destruct Hdump as [Hdump Hname]. split; [exact Hname |].
    destruct (dumps_true _ _ Hdump) as [Hrows Hverbose].
    split.
    - destruct Hargs as [[_ ->] | [-> _]]; [contradiction | reflexivity].
    - exists (ans_x n), (ans_y n). split; [| exact Hrows].
      rewrite !problems_app, Xproblems, Pproblems.
      destruct Hafter as [-> | ->]; [| rewrite Eproblems]; reflexivity. }
  destruct (run F L progname args) as [r l] eqn:Hrun. simpl snd.
  intros Hin Hf. run_ways Hrun; try contradiction.
  - destruct (prefix_obs F sp a1 a2 n) as (_ & E & _).
    rewrite opened_app, E in Hin. contradiction.
  - destruct (prefix_obs F sp a1 a2 n) as (_ & E & _).
    rewrite !opened_app, E in Hin. contradiction.
  - rewrite <- (app_nil_r l') in Hin |- *.
    apply (Hmain sp a1 a2 a3 a4 verbose n (Stop s) l' 0 (dofZ F 0) []); auto.
  - apply (Hmain sp a1 a2 a3 a4 verbose n (Ok tt) l' charts open); auto.
Qed.

(** X8.  A solution path of one state has no segment: the run creates
    [anim.txt] and closes it empty, makes no traversal and asks for no
    distance, and the length it prints is 0. *)
Theorem one_state_path_gives_an_empty_anim_and_length_zero
    (progname : string) (args : list string) (w : pointer) :
  fst (run F L progname args) = Ok 0 ->
  In [w] (paths (snd (run F L progname args))) ->
  In "anim.txt"%string (opened (snd (run F L progname args))) /\
  file_content "anim.txt" (snd (run F L progname args)) = [] /\
  traversals (snd (run F L progname args)) = [] /\
  distances (snd (run F L progname args)) = [] /\
  exists pre post,
    couts (snd (run F L progname args))
    = pre ++ Str "Length: " :: Dbl (dofZ F 0) :: post.
Proof.
  intros Hr Hin.
  destruct (solved_run F L _ _ _ Hr Hin)
    as (_ & before & body & after & Hl & Tb & Ta & Db & Da & Fb & Fa
        & (parts & -> & Hparts) & pre & post & Hc).
  change (combine [w] (tl [w])) with (@nil (pointer * pointer)) in Hparts.
  rewrite firstn_nil in Hparts. inversion Hparts; subst.
  rewrite Hc, Hl.
  change (FOpen "anim.txt" :: concat [] ++ FClose "anim.txt" :: after)
    with ([@FOpen double "anim.txt"; FClose "anim.txt"] ++ after).
  rewrite !opened_app, !file_content_app, !traversals_app, !distances_app,
    Fb, Fa, Tb, Ta, Db, Da.
  split; [apply in_or_app; right; now left |].
  repeat split. now exists pre, post.
Qed.

(** X9.  In the atlas mode a run that returns prints "Atlas created ",
    then reads the chart count of the atlas, and then prints the count and
    " charts.", in this order (line 199).  The count is read once in the
    run and after the call of [solve], and [solve] is not called again. *)
Theorem atlas_run_prints_its_chart_count
    (progname : string) (args : list string) :
  fst (run F L progname args) = Ok 0 ->
  nth_error args 3 = Some "-a"%string ->
  exists charts pre post,
    snd (run F L progname args)
    = pre ++ [Cout (Str "Atlas created "); Call (GetChartCount charts);
              Cout (Int charts); Cout (Str (" charts." ++ nl))] ++ post /\
    chart_counts pre = [] /\ chart_counts post = [] /\
    (exists limit stat, solves pre = [(limit, stat)]) /\
    solves post = [].
Proof.
  intros Hr Hmode.
  destruct (returned_run _ _ Hr) as [Hp | (_ & H & _)]; [| contradiction].
  destruct Hp as (a1 & a2 & a3 & a4 & verbose & sp & n & ext & charts & open
                  & Hargs & Hm & _ & _ & _ & _ & Hev & [stat Hs] & ->).
  destruct (parsed_length _ _ _ _ _ _ Hargs) as (_ & _ & tail & ->).
  simpl in Hmode. injection Hmode as ->.
  destruct Hm as [[_ ->] | [E _]]; [| discriminate E].
  destruct (prefix_obs F Atlas a1 a2 n) as (_ & _ & Xs & _).
  destruct (prefix_more Atlas a1 a2 n) as (_ & Xk & _).
  destruct (plan_events_silent _ Hev) as (_ & _ & _ & Pk).
  exists charts, ((prefix F Atlas a1 a2 n ++ [Call SetPlanner; Call Setup]) ++ ext).
  eexists. split; [unfold epilogue; rewrite <- !app_assoc; reflexivity |].
  rewrite !chart_counts_app, !solves_app, Xk, Xs, Pk, Hs.
  repeat split; [| now exists (atof L a3), stat |];
    now destruct (dumps (ans_x n) verbose).
Qed.

(** X10.  When the argument count and the sixth argument pass the
    checks, the run calls [parseProblem] on the problem named by the
    first argument, with an artificial delay of 0, whatever the mode
    argument is, also one that is neither "-a" nor "-p".  The call is the
    first entry of the log, before any other call of the library, any
    output and any file, and the problem is parsed once only. *)
Theorem problem_is_parsed_first_and_once
    (progname : string) (args : list string) :
  length args = 4%nat \/
  (length args = 5%nat /\ nth_error args 4 = Some "-v"%string) ->
  exists problem x y rest,
    nth_error args 0 = Some problem /\
    snd (run F L progname args)
    = Call (ParseProblem problem (dofZ F 0) x y) :: rest /\
    problems rest = [].
Proof.
  assert (Hprefix : forall sp a1 a2 n,
             exists rest,
               prefix F sp a1 a2 n
               = Call (ParseProblem a1 (dofZ F 0) (ans_x n) (ans_y n)) :: rest /\
               problems rest = []).
  { intros sp a1 a2 n. eexists. split; [reflexivity | now destruct sp]. }
  assert (Hfirst : forall a1 a2 a3 a4 verbose,
             parsed args a1 a2 a3 a4 verbose -> nth_error args 0 = Some a1).
  { intros a1 a2 a3 a4 verbose [[-> _] | [-> _]]; reflexivity. }
  destruct (run F L progname args) as [r l] eqn:Hrun. simpl snd.
  intros Hlen. run_ways Hrun.
  - exfalso. destruct Hlen as [? | [? _]]; contradiction.
  - exfalso. subst args. simpl in Hlen.
    destruct Hlen as [E | [_ E]]; [discriminate E | congruence].
  - exists a1, x, y, []. now split; [apply (Hfirst _ _ _ _ _ Hargs) |].
  - exists a1, x, y. eexists.
    split; [apply (Hfirst _ _ _ _ _ Hargs) |]. split; reflexivity.
  - destruct (Hprefix sp a1 a2 n) as (rest & -> & Hrest).
    exists a1, (ans_x n), (ans_y n), (rest ++ usage_log progname).
    split; [apply (Hfirst _ _ _ _ _ Hargs) |]. split; [reflexivity |].
    now rewrite problems_app, Hrest.
  - destruct (Hprefix sp a1 a2 n) as (rest & -> & Hrest).
    exists a1, (ans_x n), (ans_y n),
      (rest ++ [Call SetPlanner; Call Setup] ++ usage_log progname).
    split; [apply (Hfirst _ _ _ _ _ Hargs) |]. split; [reflexivity |].
    now rewrite problems_app, Hrest.
  - destruct (plan_shows_events _ _ _ _ _ _ Hplan) as (ext & -> & Hev).
    destruct (plan_events_silent _ Hev) as (Pp & _).
    destruct (Hprefix sp a1 a2 n) as (rest & -> & Hrest).
    exists a1, (ans_x n), (ans_y n),
      ((rest ++ [Call SetPlanner; Call Setup]) ++ ext).
    split; [apply (Hfirst _ _ _ _ _ Hargs) |]. split; [reflexivity |].
    now rewrite !problems_app, Hrest, Pp.
  - destruct (plan_shows_events _ _ _ _ _ _ Hplan) as (ext & -> & Hev).
    destruct (plan_events_silent _ Hev) as (Pp & _).
    destruct (epilogue_more sp (dumps (ans_x n) verbose) charts open)
      as (_ & Ep & _).
    destruct (Hprefix sp a1 a2 n) as (rest & -> & Hrest).
    exists a1, (ans_x n), (ans_y n),
      (((rest ++ [Call SetPlanner; Call Setup]) ++ ext)
         ++ epilogue sp (dumps (ans_x n) verbose) charts open).
    split; [apply (Hfirst _ _ _ _ _ Hargs) |]. split; [reflexivity |].
    now rewrite !problems_app, Hrest, Pp, Ep.
Qed.

(** X11.  In a run that reaches [solve], the start and the goal handed
    to the state space are the two points that [parseProblem] returned,
    in this order.  In the atlas mode each is set on the chart that
    [anchorChart] returned for that point, and no other chart is
    anchored; in the projection mode no chart is anchored. *)
Theorem start_and_goal_are_those_of_the_problem
    (progname : string) (args : list string)
    (limit : double) (stat : PlannerStatus) :
  In (limit, stat) (solves (snd (run F L progname args))) ->
  exists x y,
    problems (snd (run F L progname args)) = [(x, y)] /\
    ((nth_error args 3 = Some "-a"%string /\
      exists c1 c2,
        anchors (snd (run F L progname args)) = [(x, c1); (y, c2)] /\
        real_states (snd (run F L progname args))
        = [(Atlas, x, Some c1); (Atlas, y, Some c2)]) \/
     (nth_error args 3 = Some "-p"%string /\
      anchors (snd (run F L progname args)) = [] /\
      real_states (snd (run F L progname args))
      = [(Projected, x, None); (Projected, y, None)])).
Proof.
  assert (Hmain : forall sp a1 a2 a3 a4 verbose n r l' charts open after,
             parsed args a1 a2 a3 a4 verbose -> mode_of a4 sp ->
             plan_shows F L sp (dumps (ans_x n) verbose) (atof L a3)
               (prefix F sp a1 a2 n ++ [Call SetPlanner; Call Setup]) r l' ->
             after = [] \/
             after = epilogue sp (dumps (ans_x n) verbose) charts open ->
             exists x y,
               problems (l' ++ after) = [(x, y)] /\
               ((nth_error args 3 = Some "-a"%string /\
                 exists c1 c2,
                   anchors (l' ++ after) = [(x, c1); (y, c2)] /\
                   real_states (l' ++ after)
                   = [(Atlas, x, Some c1); (Atlas, y, Some c2)]) \/
                (nth_error args 3 = Some "-p"%string /\
                 anchors (l' ++ after) = [] /\
                 real_states (l' ++ after)
                 = [(Projected, x, None); (Projected, y, None)]))).
  { intros sp a1 a2 a3 a4 verbose n r l' charts open after
      Hargs Hmode Hplan Hafter.
    destruct (plan_shows_events _ _ _ _ _ _ Hplan) as (ext & -> & Hev).
    destruct (plan_events_silent _ Hev) as (Pp & Pa & Pr & _).
    destruct (prefix_more sp a1 a2 n) as (_ & _ & Xp & Xa & Xr).
    destruct (epilogue_more sp (dumps (ans_x n) verbose) charts open)
      as (_ & Ep & Ea & Er & _).
    destruct (parsed_length _ _ _ _ _ _ Hargs) as (_ & _ & tail & ->).
    assert (Eafter : problems after = [] /\ anchors after = [] /\
                     real_states after = []).
    { destruct Hafter as [-> | ->]; now repeat split. }
    destruct Eafter as (Ap & Aa & Ar).
    exists (ans_x n), (ans_y n).
    rewrite !problems_app, !anchors_app, !real_states_app,
      Xp, Xa, Xr, Pp, Pa, Pr, Ap, Aa, Ar.
    split; [reflexivity |].
    destruct Hmode as [[-> ->] | [-> ->]]; [left | right];
      (split; [reflexivity |]).
    - now exists (ans_start n), (ans_goal n).
    - now split. }
  destruct (run F L progname args) as [r l] eqn:Hrun. simpl snd.
  intros Hin. run_ways Hrun; try contradiction.
  - destruct (prefix_obs F sp a1 a2 n) as (_ & _ & E & _).
    rewrite solves_app, E in Hin. contradiction.
  - destruct (prefix_obs F sp a1 a2 n) as (_ & _ & E & _).
    rewrite !solves_app, E in Hin. contradiction.
  - rewrite <- (app_nil_r l').
    apply (Hmain sp a1 a2 a3 a4 verbose n (Stop s) l' 0 (dofZ F 0) []); auto.
  - apply (Hmain sp a1 a2 a3 a4 verbose n (Ok tt) l' charts open); auto.
Qed.

(** X12.  A run ends in [exit] only through [usage], with status 0, and
    for one of five causes: the argument count, a sixth argument that is
    not "-v", a state space or a planner that came back null, or a time
    limit that is at most 0.  An unknown mode is not among them. *)
Theorem exit_is_through_usage_for_one_of_five_causes
    (progname : string) (args : list string) (code : Z) :
  fst (run F L progname args) = Stop (Exited code) ->
  code = 0 /\
  usage_exit progname (run F L progname args) /\
  ((length args <> 4%nat /\ length args <> 5%nat) \/
   (length args = 5%nat /\ nth_error args 4 <> Some "-v"%string) \/
   (exists sp, In (sp, nullptr) (spaces (snd (run F L progname args)))) \/
   (exists name, In (name, nullptr) (planners (snd (run F L progname args)))) \/
   (exists timelimit,
       nth_error args 2 = Some timelimit /\
       dle F (atof L timelimit) (dofZ F 0) = true)).
Proof.
  destruct (run F L progname args) as [r l] eqn:Hrun. simpl fst. simpl snd.
  intros Hr. run_ways Hrun; try discriminate Hr;
    try (injection Hr as <-; split; [reflexivity |]).
  - split; [apply (usage_exit_intro progname []) |]. now left.
  - split; [apply (usage_exit_intro progname []) |]. right. left.
    subst args. split; [reflexivity |]. simpl. congruence.
  - split; [apply (usage_exit_intro progname [_; _]) |].
    right. right. left. exists sp. now left.
  - split; [apply usage_exit_intro |]. right. right. right. left.
    exists a2. destruct (prefix_obs F sp a1 a2 n) as (_ & _ & _ & _ & E & _).
    rewrite planners_app, E, Hq. now left.
  - split; [rewrite app_assoc; apply usage_exit_intro |].
    right. right. right. right. exists a3. split; [| exact Hlim].
    destruct (parsed_length _ _ _ _ _ _ Hargs) as (_ & _ & tail & ->).
    reflexivity.
  - exfalso. injection Hr as ->. plan_ways Hplan.
    destruct (status_bool stat'); [| now destruct Prest].
    destruct Prest as (_ & [[E _] | [E _]]); discriminate E.
Qed.

(** X13.  A run in which [usage] is called ends there, in [exit(0)]: it
    has printed the usage message and nothing else, created no file and
    not called [solve], and [usage] was called once. *)
Theorem usage_run_prints_the_usage_message_and_nothing_else
    (progname : string) (args : list string) :
  usages (snd (run F L progname args)) <> [] ->
  fst (run F L progname args) = Stop (Exited 0) /\
  (exists pre, snd (run F L progname args) = pre ++ usage_log progname) /\
  couts (snd (run F L progname args))
  = [Str "Usage: "; Str progname;
     Str (" <problem> <planner> <timelimit> <-c?>" ++ nl)] /\
  usages (snd (run F L progname args)) = [tt] /\
  opened (snd (run F L progname args)) = [] /\
  solves (snd (run F L progname args)) = [].
Proof.
  destruct (run F L progname args) as [r l] eqn:Hrun. simpl fst. simpl snd.
  intros Hu.
  assert (Hpre : forall sp a1 a2 n (mid : log double),
             couts mid = [] -> usages mid = [] -> opened mid = [] ->
             solves mid = [] ->
             couts ((prefix F sp a1 a2 n ++ mid) ++ usage_log progname)
             = [Str "Usage: "; Str progname;
                Str (" <problem> <planner> <timelimit> <-c?>" ++ nl)] /\
             usages ((prefix F sp a1 a2 n ++ mid) ++ usage_log progname) = [tt] /\
             opened ((prefix F sp a1 a2 n ++ mid) ++ usage_log progname) = [] /\
             solves ((prefix F sp a1 a2 n ++ mid) ++ usage_log progname) = []).
  { intros sp a1 a2 n mid Mc Mu Mo Ms.
    destruct (prefix_obs F sp a1 a2 n)
      as (Xc & Xo & Xs & _ & _ & _ & _ & Xu & _).
    rewrite !couts_app, !usages_app, !opened_app, !solves_app,
      Xc, Xo, Xs, Xu, Mc, Mu, Mo, Ms.
    now repeat split. }
  run_ways Hrun.
  - split; [reflexivity |]. split; [now exists [] |]. now repeat split.
  - split; [reflexivity |]. split; [now exists [] |]. now repeat split.
  - now contradiction Hu.
  - split; [reflexivity |]. split; [now eexists |]. now repeat split.
  - split; [reflexivity |]. split; [now eexists |].
    rewrite <- (app_nil_r (prefix F sp a1 a2 n)). now apply Hpre.
  - split; [reflexivity |]. split; [rewrite app_assoc; now eexists |].
    rewrite app_assoc. now apply Hpre.
  - exfalso. apply Hu. plan_ways Hplan.
    now rewrite <- (app_nil_r ext), planned_usages, Pusages.
  - exfalso. apply Hu. plan_ways Hplan.
    destruct (epilogue_obs sp (dumps (ans_x n) verbose) charts open)
      as (_ & _ & _ & _ & _ & _ & _ & Eu & _).
    now rewrite <- app_assoc, planned_usages, Pusages, Eu.
Qed.

(** X14.  The inner loop over the states of a traversal, which starts at
    index 1, never reads out of bounds and always comes to its end,
    whatever the traversal holds.  On a traversal of no state or of one it
    does nothing.  On a traversal of at most [SIZE_MAX] states it writes
    the states after the first, one per line, and asks for the distance
    between every state and the next; the length it returns is the length
    it was given plus these distances, added from left to right. *)
Theorem intermediate_states_are_read_in_bounds
    (sp : space) (stateList : list pointer) (len : double) (l : log double) :
  exists len' ext,
    print_states F L sp stateList len l = (Ok len', l ++ ext) /\
    len' = total F len ext /\
    file_content "anim.txt" ext = lines (map snd (views ext)) /\
    ((length stateList <= 1)%nat -> ext = [] /\ len' = len) /\
    (fits stateList ->
     map fst (views ext) = tl stateList /\
     map fst (distances ext) = combine stateList (tl stateList)).
Proof.
  pose proof (print_states_sat F L sp stateList len l) as S. unfold sat in S.
  destruct S as (len' & ext & Hr & Hl & Hv & Hf & Hd & Hlen & _).
  exists len', ext.
  split; [now rewrite (surjective_pairing (print_states _ _ _ _ _ _)), Hr, Hl |].
  split; [exact Hlen |]. split; [exact Hf |]. split.
  - intros Hshort.
    assert (E : print_states F L sp stateList len l = (Ok len, l)).
    { destruct stateList as [| s [| s' rest]]; [reflexivity | reflexivity |].
      simpl in Hshort. lia. }
    rewrite E in Hr, Hl. simpl in Hr, Hl.
    rewrite <- (app_nil_r l) in Hl at 1. apply app_inv_head in Hl.
    split; congruence.
  - intros Hfits. rewrite (reach_fits _ Hfits) in Hv, Hd. split.
    + rewrite Hv. apply firstn_all.
    + rewrite Hd. apply firstn_all2. rewrite length_combine. lia.
Qed.

(** Lines 64-68 and the two branches, once [parseProblem] has returned. *)
Definition dispatch (argv : list string) (mode : string) (x y : Vec double)
    (verbose : Z) : @M double unit :=
  if (if strcmp "-a" mode =? 0 then 1
      else if strcmp "-p" mode =? 0 then 2 else 0) =? 1
  then atlas_mode F L argv x y verbose
  else if (if strcmp "-a" mode =? 0 then 1
           else if strcmp "-p" mode =? 0 then 2 else 0) =? 2
       then projected_mode F L argv x y verbose
       else ret tt.

Lemma main_without_flag progname a1 a2 a3 a4 :
  main F L progname [a1; a2; a3; a4] []
  = (dispatch [progname; a1; a2; a3; a4] a4
       (fst (parseProblem L [] a1 (dofZ F 0)))
       (snd (parseProblem L [] a1 (dofZ F 0))) 0 ;;; ret 0)
      [Call (ParseProblem a1 (dofZ F 0)
               (fst (parseProblem L [] a1 (dofZ F 0)))
               (snd (parseProblem L [] a1 (dofZ F 0))))].
Proof. reflexivity. Qed.

Lemma main_with_flag progname a1 a2 a3 a4 :
  main F L progname [a1; a2; a3; a4; "-v"%string] []
  = (dispatch [progname; a1; a2; a3; a4; "-v"%string] a4
       (fst (parseProblem L [] a1 (dofZ F 0)))
       (snd (parseProblem L [] a1 (dofZ F 0))) 1 ;;; ret 0)
      [Call (ParseProblem a1 (dofZ F 0)
               (fst (parseProblem L [] a1 (dofZ F 0)))
               (snd (parseProblem L [] a1 (dofZ F 0))))].
Proof. reflexivity. Qed.

(** In a dimension other than 3 the two branches do not look at [verbose]. *)
Lemma atlas_mode_flag progname a1 a2 a3 a4 (x y : Vec double) :
  (rows x =? 3) = false ->
  atlas_mode F L [progname; a1; a2; a3; a4; "-v"%string] x y 1
  = atlas_mode F L [progname; a1; a2; a3; a4] x y 0.
Proof. intros H. unfold atlas_mode, plan. rewrite H. reflexivity. Qed.

Lemma projected_mode_flag progname a1 a2 a3 a4 (x y : Vec double) :
  (rows x =? 3) = false ->
  projected_mode F L [progname; a1; a2; a3; a4; "-v"%string] x y 1
  = projected_mode F L [progname; a1; a2; a3; a4] x y 0.
Proof. intros H. unfold projected_mode, plan. rewrite H. reflexivity. Qed.

(** X15.  On a problem whose ambient dimension is not 3 the argument
    "-v" changes nothing: the run with it and the run without it end in
    the same way with the same log, call for call and output for output. *)
Theorem verbose_changes_nothing_unless_dimension_three
    (progname problem planner timelimit mode : string) :
  rows (fst (parseProblem L [] problem (dofZ F 0))) <> 3 ->
  run F L progname [problem; planner; timelimit; mode; "-v"%string]
  = run F L progname [problem; planner; timelimit; mode].
Proof.
  intros Hdim. apply Z.eqb_neq in Hdim.
  unfold run. rewrite main_with_flag, main_without_flag. unfold dispatch.
  rewrite (atlas_mode_flag _ _ _ _ _ _ _ Hdim),
    (projected_mode_flag _ _ _ _ _ _ _ Hdim).
  destruct (strcmp "-a" mode =? 0); [reflexivity |].
  destruct (strcmp "-p" mode =? 0); reflexivity.
Qed.

Lemma lookups_app (a b : log double) : lookups (a ++ b) = lookups a ++ lookups b.
Proof. apply flat_map_app. Qed.

Lemma property_reads_app (a b : log double) :
  property_reads (a ++ b) = property_reads a ++ property_reads b.
Proof. apply flat_map_app. Qed.

Lemma loop_events_look_nothing_up (body : log double) :
  Forall (fun e => loop_event e = true) body ->
  lookups body = [] /\ property_reads body = [].
Proof.
  induction 1 as [| e body He _ IH]; [now split |].
  destruct e as [i | f | f i | f | c]; try exact IH.
  destruct c; try discriminate He; exact IH.
Qed.

(** X16.  A run that returns after [plan] looks the property
    "approx goal distance REAL" up in the planner data with [find], once
    and after the call of [solve].  When the property is not there, that
    is all.  When it is there, the run prints "Approx goal distance: ",
    then reads the property with [operator[]], a second lookup and the
    only read of the run, and prints the value it got and a newline
    (lines 193-197 and 322-326). *)
Theorem goal_distance_is_printed_when_the_planner_data_has_it
    (progname : string) (args : list string) :
  fst (run F L progname args) = Ok 0 ->
  solves (snd (run F L progname args)) <> [] ->
  exists pre post,
    (exists limit stat, solves pre = [(limit, stat)]) /\
    lookups pre = [] /\ lookups post = [] /\
    property_reads pre = [] /\ property_reads post = [] /\
    (snd (run F L progname args)
     = pre ++ [Call GetPlannerData;
               Call (FindProperty "approx goal distance REAL" false)] ++ post \/
     exists value,
       snd (run F L progname args)
       = pre ++ [Call GetPlannerData;
                 Call (FindProperty "approx goal distance REAL" true);
                 Cout (Str "Approx goal distance: ");
                 Call (GetProperty "approx goal distance REAL" value);
                 Cout (Str value); Cout (Str nl)] ++ post).
Proof.
  intros Hr Hsolves.
  destruct (returned_run _ _ Hr) as [Hp | (E & _)]; [| contradiction].
  destruct Hp as (a1 & a2 & a3 & a4 & verbose & sp & n & ext & charts & open
                  & _ & _ & _ & _ & _ & Hext & _ & _ & ->).
  clear Hr Hsolves.
  destruct (prefix_obs F sp a1 a2 n) as (_ & _ & Xs & _).
  assert (Xl : lookups (prefix F sp a1 a2 n) = [] /\
               property_reads (prefix F sp a1 a2 n) = [])
    by now destruct sp.
  assert (El : lookups (epilogue sp (dumps (ans_x n) verbose) charts open) = [] /\
               property_reads (epilogue sp (dumps (ans_x n) verbose) charts open)
               = [])
    by now destruct sp, (dumps (ans_x n) verbose).
  destruct Xl as [Xl Xr], El as [El Er].
  assert (Hdata : forall (pre whole : log double) found,
             whole = pre ++ planner_data found
                         ++ epilogue sp (dumps (ans_x n) verbose) charts open ->
             whole
             = pre ++ [Call GetPlannerData;
                       Call (FindProperty "approx goal distance REAL" false)]
                   ++ epilogue sp (dumps (ans_x n) verbose) charts open \/
             exists value,
               whole
               = pre ++ [Call GetPlannerData;
                         Call (FindProperty "approx goal distance REAL" true);
                         Cout (Str "Approx goal distance: ");
                         Call (GetProperty "approx goal distance REAL" value);
                         Cout (Str value); Cout (Str nl)]
                     ++ epilogue sp (dumps (ans_x n) verbose) charts open).
  { intros pre whole [value |] ->; [right; now exists value | now left]. }
  destruct Hext as (t0 & stat & found
                    & [[Hs ->] | (Hs & t1 & ws & body & _ & Hk & ->)]).
  - exists ((prefix F sp a1 a2 n ++ [Call SetPlanner; Call Setup])
            ++ [Call (Clock t0); Call (Solve (atof L a3) stat); Cout no_solution]),
      (epilogue sp (dumps (ans_x n) verbose) charts open).
    split; [exists (atof L a3), stat; now rewrite !solves_app, Xs |].
    rewrite !lookups_app, !property_reads_app, Xl, Xr.
    repeat (split; [first [exact El | exact Er | reflexivity] |]).
    apply (Hdata _ _ found). rewrite <- !app_assoc. reflexivity.
  - destruct (solution_log_obs sp (dumps (ans_x n) verbose) (atof L a3)
                t0 stat t1 ws) as (Ss & _).
    destruct (report_obs stat (total F (dofZ F 0) body) (seconds F L t0 t1))
      as (Rs & _).
    destruct (loop_events_quiet body Hk) as (_ & _ & Bs & _).
    destruct (loop_events_look_nothing_up _ Hk) as [Bl Br].
    exists ((prefix F sp a1 a2 n ++ [Call SetPlanner; Call Setup])
            ++ solution_log sp (dumps (ans_x n) verbose) (atof L a3) t0 stat t1 ws
            ++ [FOpen "anim.txt"] ++ body ++ [FClose "anim.txt"]
            ++ report stat (total F (dofZ F 0) body) (seconds F L t0 t1)),
      (epilogue sp (dumps (ans_x n) verbose) charts open).
    split; [exists (atof L a3), stat; now rewrite !solves_app, Xs, Ss, Bs, Rs |].
    rewrite !lookups_app, !property_reads_app, Xl, Xr, Bl, Br.
    split; [| split; [exact El | split; [| split; [exact Er |]]]].
    + unfold solution_log, report.
      now destruct (dumps (ans_x n) verbose), (status_eqb stat APPROXIMATE_SOLUTION).
    + unfold solution_log, report.
      now destruct (dumps (ans_x n) verbose), (status_eqb stat APPROXIMATE_SOLUTION).
    + apply (Hdata _ _ found). rewrite <- !app_assoc. reflexivity.
Qed.

End Further.

(** ** The claims on concrete runs *)

Open Scope string_scope.
Open Scope list_scope.

Lemma usage_on_bad_arguments_or_failed_construction_witness :
  usage_exit "demo" (run Toy.ops detour "demo" ["sphere"; "PRM"; "1"; "-a"]).
Proof.
  apply usage_on_bad_arguments_or_failed_construction.
  right. right. right. exists "PRM". vm_compute. left. reflexivity.
Defined.

Lemma usage_on_nonpositive_time_limit_witness :
  usage_exit "demo" (run Toy.ops detour "demo" ["sphere"; "RRT"; "0"; "-p"]) /\
  solves (snd (run Toy.ops detour "demo" ["sphere"; "RRT"; "0"; "-p"])) = [].
Proof.
  apply (usage_on_nonpositive_time_limit Toy.ops detour
           "demo" "sphere" "RRT" "0" "-p" []).
  - right. reflexivity.
  - reflexivity.
Defined.

Lemma silent_return_without_mode_witness :
  fst (run Toy.ops detour "demo" ["sphere"; "RRT"; "1"; "-x"; "-v"]) = Ok 0 /\
  couts (snd (run Toy.ops detour "demo" ["sphere"; "RRT"; "1"; "-x"; "-v"])) = [].
Proof.
  destruct (silent_return_without_mode Toy.ops detour "demo"
              ["sphere"; "RRT"; "1"; "-x"; "-v"] "sphere" "RRT" "1" "-x" 1)
    as (Hr & _ & _ & _ & Hc & _).
  - right. split; reflexivity.
  - discriminate.
  - discriminate.
  - split; [exact Hr | exact Hc].
Defined.

Lemma no_solution_is_a_normal_outcome_witness :
  fst (run Toy.ops timed_out "demo" ["sphere"; "RRT"; "1"; "-a"]) = Ok 0 /\
  usages (snd (run Toy.ops timed_out "demo" ["sphere"; "RRT"; "1"; "-a"])) = [] /\
  exists found sp dump charts open,
    couts (snd (run Toy.ops timed_out "demo" ["sphere"; "RRT"; "1"; "-a"]))
    = no_solution :: goal_distance found ++ closing sp dump charts open.
Proof.
  apply (no_solution_is_a_normal_outcome Toy.ops timed_out "demo"
           ["sphere"; "RRT"; "1"; "-a"] 1000 TIMEOUT).
  - vm_compute. left. reflexivity.
  - reflexivity.
Defined.

(** C2 as stated fails: the planner times out, the run returns 0 and
    [anim.txt] is not created. *)
Lemma anim_not_written_without_solution :
  fst (run Toy.ops timed_out "demo" ["sphere"; "RRT"; "1"; "-a"]) = Ok 0 /\
  ~ In "anim.txt" (opened (snd (run Toy.ops timed_out "demo"
                                  ["sphere"; "RRT"; "1"; "-a"]))).
Proof. split; [reflexivity |]. vm_compute. intros H. exact H. Qed.

(** C3 as stated fails: a verbose run in projection mode on a problem of
    dimension 3 returns 0 and creates no [atlas.ply]. *)
Lemma atlas_ply_not_written_in_projection_mode :
  fst (run Toy.ops detour "demo" ["sphere"; "RRT"; "1"; "-p"; "-v"]) = Ok 0 /\
  problems (snd (run Toy.ops detour "demo" ["sphere"; "RRT"; "1"; "-p"; "-v"]))
  = [([0; 0; 0], [1000; 1000; 1000])] /\
  ~ (In "path.ply" (opened (snd (run Toy.ops detour "demo"
                                   ["sphere"; "RRT"; "1"; "-p"; "-v"]))) /\
     In "atlas.ply" (opened (snd (run Toy.ops detour "demo"
                                    ["sphere"; "RRT"; "1"; "-p"; "-v"]))) /\
     In "graph.ply" (opened (snd (run Toy.ops detour "demo"
                                    ["sphere"; "RRT"; "1"; "-p"; "-v"])))).
Proof.
  split; [reflexivity |]. split; [reflexivity |].
  vm_compute. intros (_ & H & _).
  repeat (destruct H as [H | H]; [discriminate H |]). exact H.
Qed.

Lemma ply_files_of_a_verbose_run_witness :
  In "graph.ply"
     (opened (snd (run Toy.ops detour "demo" ["sphere"; "RRT"; "1"; "-a"; "-v"]))) /\
  (In "atlas.ply"
      (opened (snd (run Toy.ops detour "demo" ["sphere"; "RRT"; "1"; "-a"; "-v"])))
   <-> "-a" = "-a") /\
  (In "path.ply"
      (opened (snd (run Toy.ops detour "demo" ["sphere"; "RRT"; "1"; "-a"; "-v"])))
   <-> exists limit stat,
       In (limit, stat)
          (solves (snd (run Toy.ops detour "demo"
                          ["sphere"; "RRT"; "1"; "-a"; "-v"])))
       /\ status_bool stat = true).
Proof.
  apply (ply_files_of_a_verbose_run Toy.ops detour "demo" "sphere" "RRT" "1" "-a").
  - left. reflexivity.
  - assert (E : problems (snd (run Toy.ops detour "demo"
                                 ["sphere"; "RRT"; "1"; "-a"; "-v"]))
                = [([0; 0; 0], [1000; 1000; 1000])])
      by (vm_compute; reflexivity).
    rewrite E. intros x y [H | []]. injection H as <- _. reflexivity.
  - vm_compute. reflexivity.
Defined.

(** C7 as stated fails in its last clause: the waypoint [addr 4], which
    the segment from [addr 1] and the segment to itself share, is written
    by both, the second time as [stateList[0]] of a traversal whose ends
    are equal. *)
Lemma shared_waypoint_written_twice :
  fst (run Toy.ops detour "demo" ["sphere"; "RRT"; "1"; "-a"]) = Ok 0 /\
  paths (snd (run Toy.ops detour "demo" ["sphere"; "RRT"; "1"; "-a"]))
  = [[addr 1; addr 4; addr 4]] /\
  file_content "anim.txt"
    (snd (run Toy.ops detour "demo" ["sphere"; "RRT"; "1"; "-a"]))
  = lines [[2000; 0; 0]; [4000; 0; 0]; [4000; 0; 0]] /\
  ~ NoDup (map fst (views (snd (run Toy.ops detour "demo"
                                  ["sphere"; "RRT"; "1"; "-a"])))).
Proof.
  split; [vm_compute; reflexivity |].
  split; [vm_compute; reflexivity |].
  split; [vm_compute; reflexivity |].
  assert (E : map fst (views (snd (run Toy.ops detour "demo"
                                     ["sphere"; "RRT"; "1"; "-a"])))
              = [addr 2; addr 4; addr 4]) by (vm_compute; reflexivity).
  rewrite E. intros H.
  inversion H as [| ? ? _ H1]; subst.
  inversion H1 as [| ? ? H2 _]; subst.
  apply H2. left. reflexivity.
Qed.

Lemma detour_fits :
  fits [addr 1; addr 4; addr 4] /\
  forall from to stateList,
    In (from, to, stateList)
       (traversals (snd (run Toy.ops detour "demo" ["sphere"; "RRT"; "1"; "-a"]))) ->
    fits stateList.
Proof.
  split; [unfold fits, SIZE_MAX; simpl; lia |].
  assert (E : traversals (snd (run Toy.ops detour "demo"
                                 ["sphere"; "RRT"; "1"; "-a"]))
              = [(addr 1, addr 4, [addr 1; addr 2; addr 4]);
                 (addr 4, addr 4, [addr 4])]) by (vm_compute; reflexivity).
  rewrite E. intros from to stateList [H | [H | []]];
    injection H as <- <- <-; unfold fits, SIZE_MAX; simpl; lia.
Defined.

Lemma anim_lines_of_each_segment_witness :
  exists before parts after,
    snd (run Toy.ops detour "demo" ["sphere"; "RRT"; "1"; "-a"])
    = before ++ FOpen "anim.txt" :: concat parts
             ++ FClose "anim.txt" :: after /\
    Forall2 (fun p ext => segment_written (fst p) (snd p) ext)
      [(addr 1, addr 4); (addr 4, addr 4)] parts /\
    file_content "anim.txt"
      (snd (run Toy.ops detour "demo" ["sphere"; "RRT"; "1"; "-a"]))
    = lines (map snd (views (concat parts))).
Proof.
  apply (anim_lines_of_each_segment Toy.ops detour "demo"
           ["sphere"; "RRT"; "1"; "-a"] [addr 1; addr 4; addr 4]).
  - vm_compute. reflexivity.
  - vm_compute. left. reflexivity.
  - apply detour_fits.
  - apply detour_fits.
Defined.




(** ** The further properties on concrete runs *)

(** A solution path of one state. *)
Definition single : Library Z := Toy.lib 3 EXACT_SOLUTION [addr 1] None.

(** A problem in the plane. *)
Definition planar : Library Z :=
  Toy.lib 2 EXACT_SOLUTION [addr 1; addr 4] None.

Lemma reported_time_is_the_clock_difference_around_solve_witness :
  exists t0 t1,
    clocks (snd (run Toy.ops detour "demo" ["sphere"; "RRT"; "1"; "-a"]))
    = [t0; t1] /\
    exists before after,
      couts (snd (run Toy.ops detour "demo" ["sphere"; "RRT"; "1"; "-a"]))
      = before
        ++ [Str "Took "; Dbl (1000 * (1000 * (t1 - t0)) / 1000000000);
            Str (" seconds." ++ nl)%string]
        ++ after.
Proof.
  destruct (reported_time_is_the_clock_difference_around_solve
              Toy.ops detour "demo" ["sphere"; "RRT"; "1"; "-a"]
              1000 EXACT_SOLUTION)
    as (t0 & t1 & _ & _ & _ & Hk & Hc).
  - vm_compute. reflexivity.
  - vm_compute. left. reflexivity.
  - reflexivity.
  - exists t0, t1. split; [exact Hk | exact Hc].
Defined.

Lemma solve_is_called_once_after_the_setup_witness :
  solves (snd (run Toy.ops detour "demo" ["sphere"; "RRT"; "1"; "-p"]))
  = [(1000, EXACT_SOLUTION)] /\
  exists pre t0 post,
    snd (run Toy.ops detour "demo" ["sphere"; "RRT"; "1"; "-p"])
    = pre ++ [Call SetPlanner; Call Setup; Call (Clock t0);
              Call (Solve 1000 EXACT_SOLUTION)] ++ post /\
    solves pre = [] /\ solves post = [].
Proof.
  destruct (solve_is_called_once_after_the_setup
              Toy.ops detour "demo" ["sphere"; "RRT"; "1"; "-p"]
              1000 EXACT_SOLUTION) as (Hs & _ & Hl).
  - vm_compute. left. reflexivity.
  - split; [exact Hs | exact Hl].
Defined.

Lemma ply_files_need_verbose_and_dimension_three_witness :
  nth_error ["sphere"; "RRT"; "1"; "-a"; "-v"] 4 = Some "-v" /\
  exists x y,
    problems (snd (run Toy.ops detour "demo" ["sphere"; "RRT"; "1"; "-a"; "-v"]))
    = [(x, y)] /\ rows x = 3.
Proof.
  apply (ply_files_need_verbose_and_dimension_three
           Toy.ops detour "demo" ["sphere"; "RRT"; "1"; "-a"; "-v"] "atlas.ply").
  - vm_compute. right. right. left. reflexivity.
  - discriminate.
Defined.

Lemma one_state_path_gives_an_empty_anim_and_length_zero_witness :
  In "anim.txt" (opened (snd (run Toy.ops single "demo" ["sphere"; "RRT"; "1"; "-a"]))) /\
  file_content "anim.txt" (snd (run Toy.ops single "demo" ["sphere"; "RRT"; "1"; "-a"]))
  = [] /\
  traversals (snd (run Toy.ops single "demo" ["sphere"; "RRT"; "1"; "-a"])) = [] /\
  distances (snd (run Toy.ops single "demo" ["sphere"; "RRT"; "1"; "-a"])) = [] /\
  exists pre post,
    couts (snd (run Toy.ops single "demo" ["sphere"; "RRT"; "1"; "-a"]))
    = pre ++ Str "Length: " :: Dbl 0 :: post.
Proof.
  apply (one_state_path_gives_an_empty_anim_and_length_zero
           Toy.ops single "demo" ["sphere"; "RRT"; "1"; "-a"] (addr 1)).
  - vm_compute. reflexivity.
  - vm_compute. left. reflexivity.
Defined.

Lemma calls_go_to_the_wrapper_of_the_mode_witness :
  nth_error ["sphere"; "RRT"; "1"; "-p"] 3 = Some (flag Projected).
Proof.
  apply (calls_go_to_the_wrapper_of_the_mode
           Toy.ops detour "demo" ["sphere"; "RRT"; "1"; "-p"]
           (Call (NewStateSpace Projected (addr 1))) Projected).
  - vm_compute. right. left. reflexivity.
  - reflexivity.
Defined.

Lemma atlas_run_prints_its_chart_count_witness :
  exists charts pre post,
    snd (run Toy.ops detour "demo" ["sphere"; "RRT"; "1"; "-a"])
    = pre ++ [Cout (Str "Atlas created "); Call (GetChartCount charts);
              Cout (Int charts); Cout (Str (" charts." ++ nl)%string)] ++ post /\
    chart_counts pre = [] /\ chart_counts post = [] /\
    (exists limit stat, solves pre = [(limit, stat)]) /\
    solves post = [].
Proof.
  apply (atlas_run_prints_its_chart_count
           Toy.ops detour "demo" ["sphere"; "RRT"; "1"; "-a"]).
  - vm_compute. reflexivity.
  - reflexivity.
Defined.

Lemma problem_is_parsed_first_and_once_witness :
  exists problem x y rest,
    nth_error ["sphere"; "RRT"; "0"; "-x"] 0 = Some problem /\
    snd (run Toy.ops detour "demo" ["sphere"; "RRT"; "0"; "-x"])
    = Call (ParseProblem problem 0 x y) :: rest /\
    problems rest = [].
Proof.
  apply (problem_is_parsed_first_and_once
           Toy.ops detour "demo" ["sphere"; "RRT"; "0"; "-x"]).
  left. reflexivity.
Defined.

Lemma start_and_goal_are_those_of_the_problem_witness :
  exists x y,
    problems (snd (run Toy.ops detour "demo" ["sphere"; "RRT"; "1"; "-a"]))
    = [(x, y)] /\
    ((nth_error ["sphere"; "RRT"; "1"; "-a"] 3 = Some "-a" /\
      exists c1 c2,
        anchors (snd (run Toy.ops detour "demo" ["sphere"; "RRT"; "1"; "-a"]))
        = [(x, c1); (y, c2)] /\
        real_states (snd (run Toy.ops detour "demo" ["sphere"; "RRT"; "1"; "-a"]))
        = [(Atlas, x, Some c1); (Atlas, y, Some c2)]) \/
     (nth_error ["sphere"; "RRT"; "1"; "-a"] 3 = Some "-p" /\
      anchors (snd (run Toy.ops detour "demo" ["sphere"; "RRT"; "1"; "-a"])) = [] /\
      real_states (snd (run Toy.ops detour "demo" ["sphere"; "RRT"; "1"; "-a"]))
      = [(Projected, x, None); (Projected, y, None)])).
Proof.
  apply (start_and_goal_are_those_of_the_problem
           Toy.ops detour "demo" ["sphere"; "RRT"; "1"; "-a"]
           1000 EXACT_SOLUTION).
  vm_compute. left. reflexivity.
Defined.

Lemma exit_is_through_usage_for_one_of_five_causes_witness :
  usage_exit "demo" (run Toy.ops detour "demo" ["sphere"; "PRM"; "1"; "-p"]).
Proof.
  apply (exit_is_through_usage_for_one_of_five_causes
           Toy.ops detour "demo" ["sphere"; "PRM"; "1"; "-p"] 0).
  vm_compute. reflexivity.
Defined.

Lemma usage_run_prints_the_usage_message_and_nothing_else_witness :
  couts (snd (run Toy.ops detour "demo" ["sphere"; "RRT"; "1"]))
  = [Str "Usage: "; Str "demo";
     Str (" <problem> <planner> <timelimit> <-c?>" ++ nl)%string] /\
  opened (snd (run Toy.ops detour "demo" ["sphere"; "RRT"; "1"])) = [].
Proof.
  destruct (usage_run_prints_the_usage_message_and_nothing_else
              Toy.ops detour "demo" ["sphere"; "RRT"; "1"])
    as (_ & _ & Hc & _ & Ho & _).
  - vm_compute. discriminate.
  - split; [exact Hc | exact Ho].
Defined.

Lemma verbose_changes_nothing_unless_dimension_three_witness :
  run Toy.ops planar "demo" ["plane"; "RRT"; "1"; "-a"; "-v"]
  = run Toy.ops planar "demo" ["plane"; "RRT"; "1"; "-a"].
Proof.
  apply (verbose_changes_nothing_unless_dimension_three
           Toy.ops planar "demo" "plane" "RRT" "1" "-a").
  vm_compute. discriminate.
Defined.

(** The library of [detour] with a planner that records how far from the
    goal it ended. *)
Definition with_goal_distance : Library Z := {|
  CLOCKS_PER_SEC := CLOCKS_PER_SEC detour;
  atof := atof detour;
  clock := clock detour;
  parseProblem := parseProblem detour;
  new_StateSpace := new_StateSpace detour;
  anchorChart := anchorChart detour;
  getAmbientDimension := getAmbientDimension detour;
  getRho_s := getRho_s detour;
  parsePlanner := parsePlanner detour;
  solve := solve detour;
  getStates := getStates detour;
  traverseManifold := traverseManifold detour;
  equalStates := equalStates detour;
  constVectorView := constVectorView detour;
  distance := distance detour;
  findProperty := fun _ key => String.eqb key "approx goal distance REAL";
  getProperty := fun _ _ => "0.25"%string;
  getChartCount := getChartCount detour;
  estimateFrontierPercent := estimateFrontierPercent detour
|}.

Lemma goal_distance_is_printed_when_the_planner_data_has_it_witness :
  exists pre post,
    snd (run Toy.ops with_goal_distance "demo" ["sphere"; "RRT"; "1"; "-p"])
    = pre ++ [Call GetPlannerData;
              Call (FindProperty "approx goal distance REAL" true);
              Cout (Str "Approx goal distance: ");
              Call (GetProperty "approx goal distance REAL" "0.25");
              Cout (Str "0.25"); Cout (Str nl)] ++ post.
Proof.
  assert (El : lookups (snd (run Toy.ops with_goal_distance "demo"
                               ["sphere"; "RRT"; "1"; "-p"]))
               = [("approx goal distance REAL"%string, true)])
    by (vm_compute; reflexivity).
  assert (Er : property_reads (snd (run Toy.ops with_goal_distance "demo"
                                      ["sphere"; "RRT"; "1"; "-p"]))
               = [("approx goal distance REAL", "0.25")%string])
    by (vm_compute; reflexivity).
  destruct (goal_distance_is_printed_when_the_planner_data_has_it
              Toy.ops with_goal_distance "demo" ["sphere"; "RRT"; "1"; "-p"])
    as (pre & post & _ & Hl & Hl' & Hr & Hr' & [H | [value H]]).
  - vm_compute. reflexivity.
  - vm_compute. discriminate.
  - exfalso. rewrite H, !lookups_app, Hl, Hl' in El. discriminate El.
  - exists pre, post. rewrite H, !property_reads_app, Hr, Hr' in Er.
    injection Er as ->. exact H.
Defined.
